(** * mytasks: the task list component and its edit dialog

    A shallow embedding of [src/components/TodoList.tsx] (the version with
    categories, search, filters and statistics) and of the edit dialog
    [EditTodoDialog], followed by the properties of the task collection,
    of the derived views and of the statistics.

    Conventions of the embedding:
    - a JavaScript string is the list of its UTF-16 code units;
    - a timestamp ([createdAt], [completedAt], [deadline]) is an integer
      number of milliseconds, a [Z];
    - an optional field ([completedAt?], [deadline?], [notes?]) is an
      [option]; [None] stands for [undefined];
    - a Number that the statistics compute with is an IEEE 754 binary64
      value, given by the rational it denotes; every arithmetic operation
      rounds its exact result to the nearest binary64 value, ties to even;
    - [Date.now()] and [crypto.randomUUID()] are inputs of the command
      that calls them;
    - React state is a record, and every event handler is a function from
      the state before the event to the state after it. *)

From Stdlib Require Import Ascii String.
From Stdlib Require Import ZArith NArith List Bool Lia Permutation Sorted.
From Stdlib Require Import QArith Qround Qpower Lqa.
From Stdlib Require Import Floats.SpecFloat.
Import ListNotations.

Local Open Scope Z_scope.

(** ** JavaScript strings *)

Module JsString.

Definition jsstring := list N.

(** Code units that [String.prototype.trim] strips: ECMAScript
    WhiteSpace (TAB, VT, FF, ZWNBSP and the space separators) and
    LineTerminator (LF, CR, LS, PS). *)
Definition isWhiteSpace (c : N) : bool :=
  ((c =? 0x9) || (c =? 0xA) || (c =? 0xB) || (c =? 0xC) || (c =? 0xD)
   || (c =? 0x20) || (c =? 0xA0) || (c =? 0x1680)
   || ((0x2000 <=? c) && (c <=? 0x200A))
   || (c =? 0x2028) || (c =? 0x2029) || (c =? 0x202F) || (c =? 0x205F)
   || (c =? 0x3000) || (c =? 0xFEFF))%N.

Fixpoint trimStart (s : jsstring) : jsstring :=
  match s with
  | [] => []
  | c :: s' => if isWhiteSpace c then trimStart s' else s
  end.

Definition trimEnd (s : jsstring) : jsstring := rev (trimStart (rev s)).

Definition trim (s : jsstring) : jsstring := trimEnd (trimStart s).

(** A string is truthy when it is not empty. *)
Definition truthy (s : jsstring) : bool :=
  match s with [] => false | _ :: _ => true end.

Definition eqb (s1 s2 : jsstring) : bool :=
  if list_eq_dec N.eq_dec s1 s2 then true else false.

Fixpoint startsWith (s q : jsstring) : bool :=
  match q, s with
  | [], _ => true
  | _ :: _, [] => false
  | d :: q', c :: s' => (c =? d)%N && startsWith s' q'
  end.

(** [s.includes(q)]: [q] occurs in [s] at some position. *)
Fixpoint includes (s q : jsstring) : bool :=
  startsWith s q ||
  match s with
  | [] => false
  | _ :: s' => includes s' q
  end.

(** The code units of an ASCII literal. *)
Definition lit (s : String.string) : jsstring :=
  map Ascii.N_of_ascii (String.list_ascii_of_string s).
Arguments lit s%_string.

(** Lower-casing restricted to the ASCII letters: an instance of
    [toLowerCase] used to run the filters on concrete inputs. *)
Definition asciiLower (s : jsstring) : jsstring :=
  map (fun c => if ((0x41 <=? c) && (c <=? 0x5A))%N then (c + 0x20)%N else c) s.

End JsString.

Abbreviation jsstring := JsString.jsstring.

(** ** JavaScript Numbers

    The arithmetic of the statistics: division, multiplication, addition
    and subtraction of Numbers, and [Math.round].  A finite Number is
    represented by the rational it denotes.  The sign of zero is not
    represented: a zero is taken as positive. *)

Module Number.

Inductive number :=
| Finite (q : Q)
| Infinite (negative : bool)
| NaN.

Definition pow2 (e : Z) : Q := Qpower 2 e.

(** For a positive [q], the exponent [e] with [2^e <= q < 2^(e+1)]. *)
Definition ilog2 (q : Q) : Z :=
  let e := Z.log2 (Qnum q) - Z.log2 (Zpos (Qden q)) in
  if Qle_bool (pow2 e) q then e else e - 1.

(** The integer nearest to [q], the even one of two equally near. *)
Definition roundTiesToEven (q : Q) : Z :=
  let f := Qfloor q in
  match (q - inject_Z f ?= 1 # 2)%Q with
  | Lt => f
  | Gt => f + 1
  | Eq => if Z.even f then f else f + 1
  end.

(** Rounding of a positive rational to binary64: 53 significant bits,
    unit in the last place no smaller than [2^-1074], overflow to
    infinity from [2^1024]. *)
Definition roundPositive (q : Q) : number :=
  let e := Z.max (ilog2 q - 52) (-1074) in
  let r := (inject_Z (roundTiesToEven (q / pow2 e)) * pow2 e)%Q in
  if Qle_bool (pow2 1024) r then Infinite false else Finite r.

Definition neg (x : number) : number :=
  match x with
  | Finite q => Finite (- q)
  | Infinite s => Infinite (negb s)
  | NaN => NaN
  end.

(** The binary64 value of an exact result. *)
Definition fl (q : Q) : number :=
  match (q ?= 0)%Q with
  | Eq => Finite 0
  | Gt => roundPositive q
  | Lt => neg (roundPositive (- q))
  end.

(** An integer of the program as a Number; the integers of the program
    (lengths, literals, timestamps) are below [2^53] in size and so are
    Numbers as they stand. *)
Definition ofZ (z : Z) : number := Finite (inject_Z z).

Definition isNegative (q : Q) : bool :=
  match (q ?= 0)%Q with Lt => true | _ => false end.

Definition fadd (x y : number) : number :=
  match x, y with
  | Finite a, Finite b => fl (a + b)
  | NaN, _ | _, NaN => NaN
  | Infinite s, Infinite s' => if Bool.eqb s s' then x else NaN
  | Infinite _, Finite _ => x
  | Finite _, Infinite _ => y
  end.

Definition fsub (x y : number) : number := fadd x (neg y).

Definition fmul (x y : number) : number :=
  match x, y with
  | Finite a, Finite b => fl (a * b)
  | NaN, _ | _, NaN => NaN
  | Infinite s, Infinite s' => Infinite (xorb s s')
  | Infinite s, Finite b | Finite b, Infinite s =>
      if Qeq_bool b 0 then NaN else Infinite (xorb s (isNegative b))
  end.

Definition fdiv (x y : number) : number :=
  match x, y with
  | Finite a, Finite b =>
      if Qeq_bool b 0
      then (if Qeq_bool a 0 then NaN else Infinite (isNegative a))
      else fl (a / b)
  | NaN, _ | _, NaN => NaN
  | Infinite _, Infinite _ => NaN
  | Infinite s, Finite b => Infinite (xorb s (isNegative b))
  | Finite _, Infinite _ => Finite 0
  end.

(** [Math.round]: the integer nearest to [x], the larger one of two
    equally near. *)
Definition round (x : number) : number :=
  match x with
  | Finite q => Finite (inject_Z (Qfloor (q + (1 # 2))))
  | _ => x
  end.

(** The value of an optional number in arithmetic: [undefined] converts
    to [NaN]. *)
Definition ofOption (x : option Z) : number :=
  match x with
  | Some v => ofZ v
  | None => NaN
  end.

(** The rational denoted by a value of the Standard Library's
    specification of binary64 arithmetic, to compare the two on concrete
    operands. *)
Definition ofSpecFloat (x : spec_float) : number :=
  match x with
  | S754_zero _ => Finite 0
  | S754_finite s m e =>
      Finite (Qred ((if s then -1 else 1) * inject_Z (Zpos m) * pow2 e))
  | S754_infinity s => Infinite s
  | S754_nan => NaN
  end.

Definition reduced (x : number) : number :=
  match x with
  | Finite q => Finite (Qred q)
  | _ => x
  end.

(** [Math.floor]. *)
Definition floor (x : number) : number :=
  match x with
  | Finite q => Finite (inject_Z (Qfloor q))
  | _ => x
  end.

(** The integer part of a rational, rounding towards zero. *)
Definition truncate (q : Q) : Z :=
  if Qle_bool 0 q then Qfloor q else Qceiling q.

(** The remainder operator [%]: exact, with the sign of the dividend. *)
Definition frem (x y : number) : number :=
  match x, y with
  | Finite a, Finite b =>
      if Qeq_bool b 0 then NaN
      else Finite (a - b * inject_Z (truncate (a / b)))
  | Finite _, Infinite _ => x
  | _, _ => NaN
  end.

(** The comparison [x > y]; it is false when an operand is [NaN]. *)
Definition gt (x y : number) : bool :=
  match x, y with
  | Finite a, Finite b => negb (Qle_bool a b)
  | Infinite s, Finite _ => negb s
  | Finite _, Infinite s => s
  | Infinite s, Infinite s' => negb s && s'
  | NaN, _ | _, NaN => false
  end.

End Number.

Abbreviation number := Number.number.

(** ** The data model *)

Inductive Priority := low | medium | high.
Inductive Category := work | personal | shopping | health | other.
Inductive FilterStatus := all | active | completed.

(** A filter value of type [T | "all"]. *)
Inductive OrAll (T : Type) := All | Only (v : T).
Arguments All {T}.
Arguments Only {T} v.

Definition Priority_eqb (p q : Priority) : bool :=
  match p, q with
  | low, low | medium, medium | high, high => true
  | _, _ => false
  end.

Definition Category_eqb (c d : Category) : bool :=
  match c, d with
  | work, work | personal, personal | shopping, shopping
  | health, health | other, other => true
  | _, _ => false
  end.

Module Todo.

Record Todo := mk {
  id : jsstring;
  text : jsstring;
  completed : bool;
  createdAt : Z;
  completedAt : option Z;
  deadline : option Z;
  priority : Priority;
  category : Category;
  notes : option jsstring
}.

End Todo.

Abbreviation Todo := Todo.Todo.

(** Truthiness of an optional number: [undefined] and [0] are falsy. *)
Definition truthy (x : option Z) : bool :=
  match x with
  | Some v => negb (v =? 0)
  | None => false
  end.

(** The number behind a truthy optional number. *)
Definition truthyVal (x : option Z) : option Z :=
  match x with
  | Some v => if v =? 0 then None else Some v
  | None => None
  end.

(** ** The edit dialog *)

Module EditTodoDialog.

(** The dialog's own state: the five editable fields. *)
Record Fields := mkFields {
  text : jsstring;
  notes : jsstring;
  deadline : option Z;     (* the selected [Date], as its time value *)
  priority : Priority;
  category : Category
}.

(** The largest time value of a [Date], in size: 8.64e15 ms. *)
Definition maxTime : Z := 8640000000000000.

(** The fields as initialised from the [todo] prop.  [new Date(v)] has
    the time value [v] when [v] is at most [maxTime] in size; beyond
    that the Date is invalid and has no time value, which [Fields] does
    not represent: [initial] is [None] there. *)
Definition initial (todo : Todo) : option Fields :=
  match truthyVal (Todo.deadline todo) with
  | Some v =>
      if Z.abs v <=? maxTime
      then Some {| text := Todo.text todo;
                   notes := match Todo.notes todo with
                            | Some n => n
                            | None => []
                            end;
                   deadline := Some v;
                   priority := Todo.priority todo;
                   category := Todo.category todo |}
      else None
  | None =>
      Some {| text := Todo.text todo;
              notes := match Todo.notes todo with Some n => n | None => [] end;
              deadline := None;
              priority := Todo.priority todo;
              category := Todo.category todo |}
  end.

(** [handleSave]: the task handed to [onSave], or [None] when the
    trimmed text is empty and [onSave] is not called. *)
Definition handleSave (todo : Todo) (f : Fields) : option Todo :=
  if JsString.truthy (JsString.trim (text f)) then
    Some {| Todo.id := Todo.id todo;
            Todo.text := JsString.trim (text f);
            Todo.completed := Todo.completed todo;
            Todo.createdAt := Todo.createdAt todo;
            Todo.completedAt := Todo.completedAt todo;
            Todo.deadline := deadline f;
            Todo.priority := priority f;
            Todo.category := category f;
            Todo.notes :=
              if JsString.truthy (JsString.trim (notes f))
              then Some (JsString.trim (notes f)) else None |}
  else None.

End EditTodoDialog.

(** ** Sorting

    [Array.prototype.sort] is stable, and for a comparator that is a
    consistent ordering its result is the one stable arrangement in
    which no element is followed by a smaller one.  Insertion into the
    sorted tail computes it: an element moves behind another only when
    the comparator is positive. *)

Section Sort.

Context {T : Type} (compareFn : T -> T -> Z).

Fixpoint insertSorted (x : T) (l : list T) : list T :=
  match l with
  | [] => [x]
  | y :: l' =>
      if 0 <? compareFn x y then y :: insertSorted x l' else x :: l
  end.

Fixpoint sort (l : list T) : list T :=
  match l with
  | [] => []
  | x :: l' => insertSorted x (sort l')
  end.

End Sort.

(** ** The task list component *)

Module TodoList.

(** The component's state: the task collection, the fields of the add
    form, the search and filter settings, and the task open in the edit
    dialog. *)
Record State := mkState {
  todos : list Todo;
  newTodo : jsstring;
  deadline : option Z;       (* the selected [Date], as its time value *)
  priority : Priority;
  category : Category;
  searchQuery : jsstring;
  filterStatus : FilterStatus;
  filterPriority : OrAll Priority;
  filterCategory : OrAll Category;
  editingTodo : option Todo
}.

(** The initial values given to [useState]. *)
Definition initialState : State :=
  {| todos := []; newTodo := []; deadline := None;
     priority := medium; category := personal;
     searchQuery := []; filterStatus := all;
     filterPriority := All; filterCategory := All;
     editingTodo := None |}.

Definition setTodos (l : list Todo) (st : State) : State :=
  {| todos := l; newTodo := newTodo st; deadline := deadline st;
     priority := priority st; category := category st;
     searchQuery := searchQuery st; filterStatus := filterStatus st;
     filterPriority := filterPriority st; filterCategory := filterCategory st;
     editingTodo := editingTodo st |}.

Definition setNewTodo (s : jsstring) (st : State) : State :=
  {| todos := todos st; newTodo := s; deadline := deadline st;
     priority := priority st; category := category st;
     searchQuery := searchQuery st; filterStatus := filterStatus st;
     filterPriority := filterPriority st; filterCategory := filterCategory st;
     editingTodo := editingTodo st |}.

Definition setDeadline (d : option Z) (st : State) : State :=
  {| todos := todos st; newTodo := newTodo st; deadline := d;
     priority := priority st; category := category st;
     searchQuery := searchQuery st; filterStatus := filterStatus st;
     filterPriority := filterPriority st; filterCategory := filterCategory st;
     editingTodo := editingTodo st |}.

Definition setPriority (p : Priority) (st : State) : State :=
  {| todos := todos st; newTodo := newTodo st; deadline := deadline st;
     priority := p; category := category st;
     searchQuery := searchQuery st; filterStatus := filterStatus st;
     filterPriority := filterPriority st; filterCategory := filterCategory st;
     editingTodo := editingTodo st |}.

Definition setCategory (c : Category) (st : State) : State :=
  {| todos := todos st; newTodo := newTodo st; deadline := deadline st;
     priority := priority st; category := c;
     searchQuery := searchQuery st; filterStatus := filterStatus st;
     filterPriority := filterPriority st; filterCategory := filterCategory st;
     editingTodo := editingTodo st |}.

Definition setSearchQuery (q : jsstring) (st : State) : State :=
  {| todos := todos st; newTodo := newTodo st; deadline := deadline st;
     priority := priority st; category := category st;
     searchQuery := q; filterStatus := filterStatus st;
     filterPriority := filterPriority st; filterCategory := filterCategory st;
     editingTodo := editingTodo st |}.

Definition setFilterStatus (f : FilterStatus) (st : State) : State :=
  {| todos := todos st; newTodo := newTodo st; deadline := deadline st;
     priority := priority st; category := category st;
     searchQuery := searchQuery st; filterStatus := f;
     filterPriority := filterPriority st; filterCategory := filterCategory st;
     editingTodo := editingTodo st |}.

Definition setFilterPriority (f : OrAll Priority) (st : State) : State :=
  {| todos := todos st; newTodo := newTodo st; deadline := deadline st;
     priority := priority st; category := category st;
     searchQuery := searchQuery st; filterStatus := filterStatus st;
     filterPriority := f; filterCategory := filterCategory st;
     editingTodo := editingTodo st |}.

Definition setFilterCategory (f : OrAll Category) (st : State) : State :=
  {| todos := todos st; newTodo := newTodo st; deadline := deadline st;
     priority := priority st; category := category st;
     searchQuery := searchQuery st; filterStatus := filterStatus st;
     filterPriority := filterPriority st; filterCategory := f;
     editingTodo := editingTodo st |}.

Definition setEditingTodo (e : option Todo) (st : State) : State :=
  {| todos := todos st; newTodo := newTodo st; deadline := deadline st;
     priority := priority st; category := category st;
     searchQuery := searchQuery st; filterStatus := filterStatus st;
     filterPriority := filterPriority st; filterCategory := filterCategory st;
     editingTodo := e |}.

(** *** The commands *)

(** [addTodo], with the identifier drawn by [crypto.randomUUID()] and
    the value of [Date.now()]. *)
Definition addTodo (uuid : jsstring) (now : Z) (st : State) : State :=
  if JsString.truthy (JsString.trim (newTodo st)) then
    setCategory personal
      (setPriority medium
        (setDeadline None
          (setNewTodo []
            (setTodos
               (todos st ++
                [ {| Todo.id := uuid;
                     Todo.text := JsString.trim (newTodo st);
                     Todo.completed := false;
                     Todo.createdAt := now;
                     Todo.completedAt := None;
                     Todo.deadline := deadline st;
                     Todo.priority := priority st;
                     Todo.category := category st;
                     Todo.notes := None |} ])
               st))))
  else st.

Definition updateTodo (updatedTodo : Todo) (st : State) : State :=
  setEditingTodo None
    (setTodos
       (map (fun todo =>
               if JsString.eqb (Todo.id todo) (Todo.id updatedTodo)
               then updatedTodo else todo)
            (todos st))
       st).

Definition toggleTodo (id : jsstring) (now : Z) (st : State) : State :=
  setTodos
    (map (fun todo =>
            if JsString.eqb (Todo.id todo) id
            then {| Todo.id := Todo.id todo;
                    Todo.text := Todo.text todo;
                    Todo.completed := negb (Todo.completed todo);
                    Todo.createdAt := Todo.createdAt todo;
                    Todo.completedAt :=
                      if negb (Todo.completed todo) then Some now else None;
                    Todo.deadline := Todo.deadline todo;
                    Todo.priority := Todo.priority todo;
                    Todo.category := Todo.category todo;
                    Todo.notes := Todo.notes todo |}
            else todo)
         (todos st))
    st.

Definition deleteTodo (id : jsstring) (st : State) : State :=
  setTodos
    (filter (fun todo => negb (JsString.eqb (Todo.id todo) id)) (todos st))
    st.

(** *** The statistics *)

Definition totalTasks (st : State) : Z := Z.of_nat (length (todos st)).

Definition completedCount (st : State) : Z :=
  Z.of_nat (length (filter (fun t => Todo.completed t) (todos st))).

Definition completionRate (st : State) : number :=
  if 0 <? totalTasks st
  then Number.round
         (Number.fmul
            (Number.fdiv (Number.ofZ (completedCount st))
                         (Number.ofZ (totalTasks st)))
            (Number.ofZ 100))
  else Number.ofZ 0.

(** [overdueCount], with the value of [Date.now()]. *)
Definition overdueCount (now : Z) (st : State) : Z :=
  Z.of_nat
    (length
       (filter
          (fun t =>
             negb (Todo.completed t) &&
             match truthyVal (Todo.deadline t) with
             | Some d => d <? now
             | None => false
             end)
          (todos st))).

Definition avgCompletionTime (st : State) : number :=
  let completed :=
    filter (fun t => Todo.completed t && truthy (Todo.completedAt t))
           (todos st) in
  if Nat.eqb (length completed) 0 then Number.ofZ 0
  else
    let total :=
      fold_left
        (fun sum t =>
           Number.fadd sum
             (Number.fsub (Number.ofOption (Todo.completedAt t))
                          (Number.ofZ (Todo.createdAt t))))
        completed (Number.ofZ 0) in
    Number.round
      (Number.fdiv
         (Number.fdiv total (Number.ofZ (Z.of_nat (length completed))))
         (Number.fmul (Number.fmul (Number.ofZ 1000) (Number.ofZ 60))
                      (Number.ofZ 60))).

(** *** The derived views *)

Definition priorityOrder (p : Priority) : Z :=
  match p with
  | high => 0
  | medium => 1
  | low => 2
  end.

(** The comparator handed to [sort] by [activeTodos]. *)
Definition compareTodos (a b : Todo) : Z :=
  if negb (priorityOrder (Todo.priority a) =? priorityOrder (Todo.priority b))
  then priorityOrder (Todo.priority a) - priorityOrder (Todo.priority b)
  else
    match truthyVal (Todo.deadline a), truthyVal (Todo.deadline b) with
    | Some da, Some db => da - db
    | Some _, None => -1
    | None, Some _ => 1
    | None, None => Todo.createdAt b - Todo.createdAt a
    end.

Section Views.

(** [String.prototype.toLowerCase] applies the Unicode case mapping,
    whose tables are not part of the repository: it is a parameter of
    the views. *)
Variable toLowerCase : jsstring -> jsstring.

(** The second [filter] callback of [activeTodos] and [completedTodos]. *)
Definition matchesFilters (st : State) (t : Todo) : bool :=
  if JsString.truthy (searchQuery st)
     && negb (JsString.includes (toLowerCase (Todo.text t))
                                (toLowerCase (searchQuery st)))
  then false
  else if match filterPriority st with
          | All => false
          | Only p => negb (Priority_eqb (Todo.priority t) p)
          end
  then false
  else if match filterCategory st with
          | All => false
          | Only c => negb (Category_eqb (Todo.category t) c)
          end
  then false
  else true.

Definition activeTodos (st : State) : list Todo :=
  sort compareTodos
    (filter (matchesFilters st)
       (filter (fun t => negb (Todo.completed t)) (todos st))).

Definition completedTodos (st : State) : list Todo :=
  filter (matchesFilters st)
    (filter (fun t => Todo.completed t) (todos st)).

Definition displayedTodos (st : State) : list Todo :=
  match filterStatus st with
  | all => activeTodos st ++ completedTodos st
  | active => activeTodos st
  | completed => completedTodos st
  end.

(** *** The user's actions

    Every event the component reacts to.  [OnEdit i] is the edit button
    of the [i]-th displayed task; [HandleSave f] is the dialog's save
    button pressed with the fields [f]; [OnClose] closes the dialog.

    [Reload] is a restart of the page.  The component writes the
    collection to [localStorage] after every change and reads it back on
    start; the written document keeps every field of a task, an absent
    optional field staying absent.  A restart thus keeps the collection
    and resets the rest of the state. *)
Inductive Action :=
| SetNewTodo (s : jsstring)
| SetDeadline (d : option Z)
| SetPriority (p : Priority)
| SetCategory (c : Category)
| AddTodo (uuid : jsstring) (now : Z)
| ToggleTodo (id : jsstring) (now : Z)
| DeleteTodo (id : jsstring)
| SetSearchQuery (q : jsstring)
| SetFilterStatus (f : FilterStatus)
| SetFilterPriority (f : OrAll Priority)
| SetFilterCategory (f : OrAll Category)
| ClearFilters
| OnEdit (i : nat)
| OnClose
| HandleSave (f : EditTodoDialog.Fields)
| Reload.

Definition exec (a : Action) (st : State) : State :=
  match a with
  | SetNewTodo s => setNewTodo s st
  | SetDeadline d => setDeadline d st
  | SetPriority p => setPriority p st
  | SetCategory c => setCategory c st
  | AddTodo uuid now => addTodo uuid now st
  | ToggleTodo id now => toggleTodo id now st
  | DeleteTodo id => deleteTodo id st
  | SetSearchQuery q => setSearchQuery q st
  | SetFilterStatus f => setFilterStatus f st
  | SetFilterPriority f => setFilterPriority f st
  | SetFilterCategory f => setFilterCategory f st
  | ClearFilters =>
      setFilterCategory All
        (setFilterPriority All (setFilterStatus all (setSearchQuery [] st)))
  | OnEdit i =>
      match nth_error (displayedTodos st) i with
      | Some t => setEditingTodo (Some t) st
      | None => st
      end
  | OnClose => setEditingTodo None st
  | HandleSave f =>
      match editingTodo st with
      | Some todo =>
          match EditTodoDialog.handleSave todo f with
          | Some updatedTodo => updateTodo updatedTodo st
          | None => st
          end
      | None => st
      end
  | Reload => setTodos (todos st) initialState
  end.

Definition run (acts : list Action) (st : State) : State :=
  fold_left (fun s a => exec a s) acts st.

(** The states the component can be in: those a sequence of actions
    leads to from the initial state. *)
Definition reachable (st : State) : Prop :=
  exists acts, st = run acts initialState.

End Views.

(** *** The category table *)

Record CategoryInfo := mkCategoryInfo {
  value : Category;
  label : jsstring;
  color : jsstring
}.

Definition CATEGORIES : list CategoryInfo :=
  [ mkCategoryInfo work (JsString.lit "Work")
      (JsString.lit "bg-blue-500/10 text-blue-600 dark:text-blue-400");
    mkCategoryInfo personal (JsString.lit "Personal")
      (JsString.lit "bg-purple-500/10 text-purple-600 dark:text-purple-400");
    mkCategoryInfo shopping (JsString.lit "Shopping")
      (JsString.lit "bg-green-500/10 text-green-600 dark:text-green-400");
    mkCategoryInfo health (JsString.lit "Health")
      (JsString.lit "bg-red-500/10 text-red-600 dark:text-red-400");
    mkCategoryInfo other (JsString.lit "Other")
      (JsString.lit "bg-gray-500/10 text-gray-600 dark:text-gray-400") ].

End TodoList.

(** ** A task row *)

Module TodoItem.

(** [isOverdue], as a condition, with the value of [Date.now()]. *)
Definition isOverdue (now : Z) (todo : Todo) : bool :=
  match truthyVal (Todo.deadline todo) with
  | Some d => (d <? now) && negb (Todo.completed todo)
  | None => false
  end.

(** The text that [getTimeTaken] builds, kept as the template chosen and
    the numbers put into it: [`${days}d ${hours}h`],
    [`${hours}h ${minutes}m`] or [`${minutes}m`]. *)
Inductive TimeTaken :=
| DaysHours (days hours : number)
| HoursMinutes (hours minutes : number)
| Minutes (minutes : number).

(** [getTimeTaken]; [None] stands for [null]. *)
Definition getTimeTaken (todo : Todo) : option TimeTaken :=
  if negb (truthy (Todo.completedAt todo)) then None
  else
    let duration :=
      Number.fsub (Number.ofOption (Todo.completedAt todo))
                  (Number.ofZ (Todo.createdAt todo)) in
    let msPerDay :=
      Number.fmul
        (Number.fmul (Number.fmul (Number.ofZ 1000) (Number.ofZ 60))
                     (Number.ofZ 60))
        (Number.ofZ 24) in
    let msPerHour :=
      Number.fmul (Number.fmul (Number.ofZ 1000) (Number.ofZ 60))
                  (Number.ofZ 60) in
    let msPerMinute := Number.fmul (Number.ofZ 1000) (Number.ofZ 60) in
    let days := Number.floor (Number.fdiv duration msPerDay) in
    let hours :=
      Number.floor (Number.fdiv (Number.frem duration msPerDay) msPerHour) in
    let minutes :=
      Number.floor (Number.fdiv (Number.frem duration msPerHour) msPerMinute) in
    if Number.gt days (Number.ofZ 0) then Some (DaysHours days hours)
    else if Number.gt hours (Number.ofZ 0) then Some (HoursMinutes hours minutes)
    else Some (Minutes minutes).

(** The label of the category badge:
    [categories.find((c) => c.value === todo.category)?.label]. *)
Definition categoryLabel (categories : list TodoList.CategoryInfo)
    (todo : Todo) : option jsstring :=
  option_map TodoList.label
    (find (fun c => Category_eqb (TodoList.value c) (Todo.category todo))
          categories).

End TodoItem.

(** * Definitions used by the statements

    The invariants and keys the statements are about, the conditions of
    the specification in its own words (named [spec_...]), and the
    concrete collections the statements are run on. *)

(** ** The task collection *)

(** The identifiers of the collection, in collection order. *)
Definition ids (l : list Todo) : list jsstring := map Todo.id l.

(** The invariant of a task: it carries a completion time exactly when
    it is completed. *)
Definition taskInv (t : Todo) : Prop :=
  Todo.completed t = true <-> Todo.completedAt t <> None.

(** The invariant of the component: every task of the collection and the
    task held by the edit dialog satisfy [taskInv]. *)
Definition stateInv (st : TodoList.State) : Prop :=
  Forall taskInv (TodoList.todos st) /\
  (forall t, TodoList.editingTodo st = Some t -> taskInv t).

(** The task that [toggleTodo] puts in the place of [t]. *)
Definition toggled (now : Z) (t : Todo) : Todo :=
  Todo.mk (Todo.id t) (Todo.text t) (negb (Todo.completed t))
    (Todo.createdAt t)
    (if negb (Todo.completed t) then Some now else None)
    (Todo.deadline t) (Todo.priority t) (Todo.category t) (Todo.notes t).

(** What it would take for an update with an unknown identifier to be
    reported to the caller: all a caller gets back from [updateTodo] is
    the next state, so a report is a function of that state that tells
    the unknown identifiers from the known ones. *)
Definition updateReportsNotFound : Prop :=
  exists report : TodoList.State -> bool,
    forall (u : Todo) (st : TodoList.State),
      report (TodoList.updateTodo u st) = true <->
      ~ In (Todo.id u) (ids (TodoList.todos st)).

(** ** Filtering and sorting *)

(** The condition of the specification, in its words: (a) the status
    filter is "all" or matches the completed state, (b) the search string
    is empty or occurs in the text once both are lower-cased, (c) the
    priority filter is "all" or the task's priority, (d) the category
    filter is "all" or the task's category. *)
Definition spec_passes (toLowerCase : jsstring -> jsstring)
    (st : TodoList.State) (t : Todo) : Prop :=
  (TodoList.filterStatus st = all \/
   (TodoList.filterStatus st = active /\ Todo.completed t = false) \/
   (TodoList.filterStatus st = completed /\ Todo.completed t = true)) /\
  (TodoList.searchQuery st = [] \/
   exists pre post,
     toLowerCase (Todo.text t) =
     pre ++ toLowerCase (TodoList.searchQuery st) ++ post) /\
  (TodoList.filterPriority st = All \/
   TodoList.filterPriority st = Only (Todo.priority t)) /\
  (TodoList.filterCategory st = All \/
   TodoList.filterCategory st = Only (Todo.category t)).

(** The composite key of the specification, in its words: priority rank
    first; among equal ranks a task with a deadline before one without,
    and of two deadlines the earlier first; among those that still tie,
    the more recently created first. *)
Definition spec_keyLe (a b : Todo) : Prop :=
  TodoList.priorityOrder (Todo.priority a) < TodoList.priorityOrder (Todo.priority b) \/
  (TodoList.priorityOrder (Todo.priority a) = TodoList.priorityOrder (Todo.priority b) /\
   match Todo.deadline a, Todo.deadline b with
   | Some da, Some db => da < db \/ (da = db /\ Todo.createdAt b <= Todo.createdAt a)
   | Some _, None => True
   | None, Some _ => False
   | None, None => Todo.createdAt b <= Todo.createdAt a
   end).

(** The key the comparator implements: priority rank first; among equal
    ranks a task with a deadline that is not 0 before one without, and of
    two such deadlines the earlier first, equal deadlines in either
    order; among tasks without such a deadline the more recently created
    first. *)
Definition keyLe (a b : Todo) : Prop :=
  TodoList.priorityOrder (Todo.priority a) < TodoList.priorityOrder (Todo.priority b) \/
  (TodoList.priorityOrder (Todo.priority a) = TodoList.priorityOrder (Todo.priority b) /\
   match truthyVal (Todo.deadline a), truthyVal (Todo.deadline b) with
   | Some da, Some db => da <= db
   | Some _, None => True
   | None, Some _ => False
   | None, None => Todo.createdAt b <= Todo.createdAt a
   end).

(** ** The statistics *)

(** The relative error of one rounding to binary64: [2^-53]. *)
Definition eps : Q := 1 # 9007199254740992.

(** The tasks that [avgCompletionTime] averages over: completed, with a
    completion time that is not 0. *)
Definition timed (t : Todo) : bool :=
  Todo.completed t && truthy (Todo.completedAt t).

(** The time a task took, in milliseconds. *)
Definition duration (t : Todo) : Z :=
  match Todo.completedAt t with
  | Some v => v - Todo.createdAt t
  | None => 0
  end.

Fixpoint totalDuration (l : list Todo) : Z :=
  match l with
  | [] => 0
  | t :: l' => duration t + totalDuration l'
  end.

(** The integer nearest to [a / d], for [d > 0], the larger one of two
    equally near: the result of [Math.round] on the exact quotient. *)
Definition roundHalfUp (a d : Z) : Z := (2 * a + d) / (2 * d).

(** [a / d] lies exactly halfway between two integers. *)
Definition isHalf (a d : Z) : Prop := (2 * a + d) mod (2 * d) = 0.

(** The completion rate of the specification, in its words:
    round(completedCount / totalTasks x 100), 0 when there are no
    tasks. *)
Definition spec_completionRate (st : TodoList.State) : Z :=
  if TodoList.totalTasks st =? 0 then 0
  else roundHalfUp (100 * TodoList.completedCount st) (TodoList.totalTasks st).

(** The average of the specification, in its words: over the completed
    tasks with both timestamps present, the mean of completedAt minus
    createdAt divided by 3 600 000, rounded; 0 when there are none. *)
Definition spec_avgCompletionTime (st : TodoList.State) : Z :=
  let l := filter (fun t => Todo.completed t &&
                            match Todo.completedAt t with
                            | Some _ => true
                            | None => false
                            end) (TodoList.todos st) in
  match l with
  | [] => 0
  | _ :: _ => roundHalfUp (totalDuration l) (Z.of_nat (length l) * 3600000)
  end.

(** The same average over the tasks of [timed], those whose completion
    time is not 0. *)
Definition avgHours (st : TodoList.State) : Z :=
  let l := filter timed (TodoList.todos st) in
  match l with
  | [] => 0
  | _ :: _ => roundHalfUp (totalDuration l) (Z.of_nat (length l) * 3600000)
  end.

(** An integer as a value of the Standard Library's specification of
    binary64 arithmetic. *)
Definition sf (z : Z) : spec_float := binary_normalize 53 1024 z 0 false.

(** ** Sample collections *)

Definition sampleTask : Todo :=
  Todo.mk (JsString.lit "id-1") (JsString.lit "Buy milk") false 1000 None
    None medium personal None.

(** A collection of one task. *)
Definition oneTaskState : TodoList.State :=
  TodoList.setTodos [sampleTask] TodoList.initialState.

(** Three spaces typed into the add form. *)
Definition blankForm : TodoList.State :=
  TodoList.setNewTodo (JsString.lit "   ") oneTaskState.

(** A text with spaces around it typed into the untouched add form. *)
Definition breadForm : TodoList.State :=
  TodoList.setNewTodo (JsString.lit "  Buy bread ") oneTaskState.

(** A task whose identifier no sample collection contains. *)
Definition strayTask : Todo :=
  Todo.mk (JsString.lit "no-such-id") (JsString.lit "Buy milk") false 1000
    None None medium personal None.

(** A run that adds two tasks, completes the first, restarts the page,
    opens the second task in the dialog and completes it while the dialog
    still holds it. *)
Definition sampleRun : list TodoList.Action :=
  [ TodoList.SetNewTodo (JsString.lit "Buy milk");
    TodoList.AddTodo (JsString.lit "id-1") 1000;
    TodoList.SetNewTodo (JsString.lit "Call Ann");
    TodoList.SetPriority high;
    TodoList.AddTodo (JsString.lit "id-2") 2000;
    TodoList.ToggleTodo (JsString.lit "id-1") 3000;
    TodoList.Reload;
    TodoList.OnEdit 0;
    TodoList.ToggleTodo (JsString.lit "id-2") 4000 ].

Definition sampleState : TodoList.State :=
  TodoList.run JsString.asciiLower sampleRun TodoList.initialState.

(** The second task of [sampleState] as the dialog holds it, and the
    state in which the collection holds it like that again. *)
Definition callAnn : Todo :=
  Todo.mk (JsString.lit "id-2") (JsString.lit "Call Ann") false 2000 None
    None high personal None.

Definition editingState : TodoList.State :=
  TodoList.toggleTodo (JsString.lit "id-2") 8000 sampleState.

(** The dialog's fields at the time of saving: a new text, a note, a
    deadline, and another priority and category. *)
Definition editedFields : EditTodoDialog.Fields :=
  EditTodoDialog.mkFields (JsString.lit " Call Bob ") (JsString.lit "at noon")
    (Some 9000) low work.

(** Two tasks of high priority due at the same time, the second one
    created later. *)
Definition dueFirst : Todo :=
  Todo.mk (JsString.lit "x") (JsString.lit "Pay rent") false 1 None (Some 5)
    high personal None.

Definition dueSecond : Todo :=
  Todo.mk (JsString.lit "y") (JsString.lit "Pay gas") false 2 None (Some 5)
    high personal None.

(** The three tasks of the specification's sorting example; the creation
    times of B and C are left open. *)
Definition exampleA : Todo :=
  Todo.mk (JsString.lit "A") (JsString.lit "A") false 1 None None
    high personal None.

Definition exampleB (created : Z) : Todo :=
  Todo.mk (JsString.lit "B") (JsString.lit "B") false created None (Some 5)
    high personal None.

Definition exampleC (created : Z) : Todo :=
  Todo.mk (JsString.lit "C") (JsString.lit "C") false created None (Some 1)
    medium personal None.

(** A collection of [n] tasks of which the first [c] are completed, one
    hour after their creation. *)
Definition taskNo (c : nat) (i : nat) : Todo :=
  Todo.mk (JsString.lit "task-" ++ [N.of_nat i]) (JsString.lit "Task")
    (Nat.ltb i c) 1000
    (if Nat.ltb i c then Some 3601000 else None)
    None medium personal None.

Definition collection (c n : nat) : TodoList.State :=
  TodoList.setTodos (map (taskNo c) (seq 0 n)) TodoList.initialState.

(** The statistics example of the specification: four tasks, one of them
    completed two hours after its creation at time 0. *)
Definition fourTasks : TodoList.State :=
  TodoList.setTodos
    [ Todo.mk (JsString.lit "t1") (JsString.lit "Done") true 0 (Some 7200000)
        None medium personal None;
      Todo.mk (JsString.lit "t2") (JsString.lit "Two") false 10 None
        None high work None;
      Todo.mk (JsString.lit "t3") (JsString.lit "Three") false 20 None
        (Some 500) low other None;
      Todo.mk (JsString.lit "t4") (JsString.lit "Four") false 30 None
        None medium personal None ]
    TodoList.initialState.

(** ** Definitions for the further properties *)

(** A string that does not begin with white space. *)
Definition startsClean (s : jsstring) : Prop :=
  match s with
  | [] => True
  | c :: _ => JsString.isWhiteSpace c = false
  end.

(** A string with no white space at either end. *)
Definition clean (s : jsstring) : Prop :=
  startsClean s /\ startsClean (rev s).

(** A task whose text is not empty and has no white space at either
    end, and whose notes, when present, are so too. *)
Definition textInv (t : Todo) : Prop :=
  Todo.text t <> [] /\ clean (Todo.text t) /\
  match Todo.notes t with
  | Some n => n <> [] /\ clean n
  | None => True
  end.

(** An action that draws an identifier draws one that is new to the
    component: no task of the collection carries it, nor does the task
    that the dialog holds. *)
Definition freshFor (a : TodoList.Action) (st : TodoList.State) : Prop :=
  match a with
  | TodoList.AddTodo uuid _ =>
      ~ In uuid (ids (TodoList.todos st)) /\
      (forall t, TodoList.editingTodo st = Some t -> Todo.id t <> uuid)
  | _ => True
  end.

(** A run in which every identifier drawn is new to the collection. *)
Fixpoint freshRun (toLowerCase : jsstring -> jsstring)
    (acts : list TodoList.Action) (st : TodoList.State) : Prop :=
  match acts with
  | [] => True
  | a :: rest =>
      freshFor a st /\ freshRun toLowerCase rest (TodoList.exec toLowerCase a st)
  end.

(** The identifiers that a run takes from [crypto.randomUUID()], in the
    order of the calls: [addTodo] calls it once, and only when the
    trimmed text is not empty. *)
Fixpoint draws (toLowerCase : jsstring -> jsstring)
    (acts : list TodoList.Action) (st : TodoList.State) : list jsstring :=
  match acts with
  | [] => []
  | a :: rest =>
      match a with
      | TodoList.AddTodo uuid _ =>
          if JsString.truthy (JsString.trim (TodoList.newTodo st))
          then [uuid] else []
      | _ => []
      end ++ draws toLowerCase rest (TodoList.exec toLowerCase a st)
  end.

(** The run that leads to [breadForm]. *)
Definition breadRun : list TodoList.Action :=
  [ TodoList.SetNewTodo (JsString.lit "Buy milk");
    TodoList.AddTodo (JsString.lit "id-1") 1000;
    TodoList.SetNewTodo (JsString.lit "  Buy bread ") ].

(** The deadline that an action brings in from a calendar: the day
    picked in the add form, or the day the edit dialog holds when it
    saves. *)
Definition pickedDeadline (a : TodoList.Action) : option Z :=
  match a with
  | TodoList.SetDeadline d => d
  | TodoList.HandleSave f => EditTodoDialog.deadline f
  | _ => None
  end.

(** A run whose deadlines are days that the calendars offer.  Both
    calendars disable the days before today, so the time value of a
    picked day is never 0, the first millisecond of 1970. *)
Definition calendarRun (acts : list TodoList.Action) : Prop :=
  Forall (fun a => pickedDeadline a <> Some 0) acts.

(** No deadline of the component is the timestamp 0: not in the
    collection, not in the add form, not in the dialog. *)
Definition deadlineInv (st : TodoList.State) : Prop :=
  Forall (fun t => Todo.deadline t <> Some 0) (TodoList.todos st) /\
  TodoList.deadline st <> Some 0 /\
  (forall t, TodoList.editingTodo st = Some t -> Todo.deadline t <> Some 0).

(** Overdue in the words of the specification: the task has a deadline,
    the deadline is before the current time, the task is not
    completed. *)
Definition spec_overdue (now : Z) (t : Todo) : bool :=
  match Todo.deadline t with
  | Some d => (d <? now) && negb (Todo.completed t)
  | None => false
  end.

(** A run that adds a task due at 500 ms. *)
Definition rentRun : list TodoList.Action :=
  [ TodoList.SetNewTodo (JsString.lit "Pay rent");
    TodoList.SetDeadline (Some 500);
    TodoList.AddTodo (JsString.lit "id-1") 100 ].

(** The identifier and the creation time of every task, in collection
    order. *)
Definition births (l : list Todo) : list (jsstring * Z) :=
  map (fun t => (Todo.id t, Todo.createdAt t)) l.

(** How an action may change the list of identifiers and creation
    times: adding appends one entry or, when the text is blank, none;
    deleting removes the entries of one identifier; nothing else changes
    the list. *)
Definition birthsStep (a : TodoList.Action) (before after : list (jsstring * Z))
    : Prop :=
  match a with
  | TodoList.AddTodo uuid now =>
      after = before \/ after = before ++ [(uuid, now)]
  | TodoList.DeleteTodo id =>
      after = filter (fun b => negb (JsString.eqb (fst b) id)) before
  | _ => after = before
  end.

(** The same for the identifiers alone. *)
Definition idsStep (a : TodoList.Action) (before after : list jsstring) : Prop :=
  match a with
  | TodoList.AddTodo uuid _ => after = before \/ after = before ++ [uuid]
  | TodoList.DeleteTodo id =>
      after = filter (fun i => negb (JsString.eqb i id)) before
  | _ => after = before
  end.

(** The dialog holds a task as the collection has it: every task of the
    collection with the identifier of the dialog's task was created when
    the dialog's task was. *)
Definition snapshotInv (st : TodoList.State) : Prop :=
  forall t u,
    TodoList.editingTodo st = Some t -> In u (TodoList.todos st) ->
    Todo.id u = Todo.id t -> Todo.createdAt u = Todo.createdAt t.

(** No search, no filter. *)
Definition noFilters (st : TodoList.State) : Prop :=
  TodoList.searchQuery st = [] /\ TodoList.filterStatus st = all /\
  TodoList.filterPriority st = All /\ TodoList.filterCategory st = All.

(** The status filter alone: what the choice between the three lists in
    [displayedTodos] lets through. *)
Definition statusPasses (st : TodoList.State) (t : Todo) : bool :=
  match TodoList.filterStatus st with
  | all => true
  | active => negb (Todo.completed t)
  | completed => Todo.completed t
  end.

(** What the completion statistics read of a task. *)
Definition timing (t : Todo) : bool * option Z * Z :=
  (Todo.completed t, Todo.completedAt t, Todo.createdAt t).

Definition msPerDay : Z := 86400000.
Definition msPerHour : Z := 3600000.
Definition msPerMinute : Z := 60000.

(** What [getTimeTaken] shows for a duration of [d] milliseconds, in
    integer arithmetic. *)
Definition timeTakenOf (d : Z) : TodoItem.TimeTaken :=
  if 0 <? d / msPerDay
  then TodoItem.DaysHours (Number.ofZ (d / msPerDay))
         (Number.ofZ (d mod msPerDay / msPerHour))
  else if 0 <? d mod msPerDay / msPerHour
  then TodoItem.HoursMinutes (Number.ofZ (d mod msPerDay / msPerHour))
         (Number.ofZ (d mod msPerHour / msPerMinute))
  else TodoItem.Minutes (Number.ofZ (d mod msPerHour / msPerMinute)).

(** A task completed 93 784 000 ms (1 day, 2 hours, 3 minutes and 4
    seconds) after its creation. *)
Definition longTask : Todo :=
  Todo.mk (JsString.lit "long") (JsString.lit "Move house") true 1000
    (Some 93785000) None low other None.

(** A task with notes and a deadline, as the dialog would save it. *)
Definition notedTask : Todo :=
  Todo.mk (JsString.lit "n1") (JsString.lit "Call Bob") false 2000 None
    (Some 9000) low work (Some (JsString.lit "at noon")).

(** * Properties *)

(** ** Strings *)

Lemma trimStart_all_ws (s : jsstring) :
  JsString.trimStart s = [] <->
  Forall (fun c => JsString.isWhiteSpace c = true) s.
Proof.
  induction s as [|c s IH]; simpl.
  - split; auto.
  - destruct (JsString.isWhiteSpace c) eqn:Hc.
    + rewrite IH. split; intros H.
      * constructor; assumption.
      * inversion H; assumption.
    + split; intros H.
      * discriminate.
      * inversion H; congruence.
Qed.

Lemma trimStart_head (s r : jsstring) (c : N) :
  JsString.trimStart s = c :: r -> JsString.isWhiteSpace c = false.
Proof.
  induction s as [|d s IH]; simpl; intros H.
  - discriminate.
  - destruct (JsString.isWhiteSpace d) eqn:Hd.
    + auto.
    + injection H as -> _. exact Hd.
Qed.

(** The trimmed text is empty exactly when the text holds nothing but
    white space. *)
Lemma trim_nil_iff (s : jsstring) :
  JsString.trim s = [] <->
  Forall (fun c => JsString.isWhiteSpace c = true) s.
Proof.
  unfold JsString.trim, JsString.trimEnd. split; intros H.
  - apply trimStart_all_ws.
    destruct (JsString.trimStart s) as [|c r] eqn:Hs; [reflexivity|].
    exfalso.
    apply (f_equal (@rev N)) in H. rewrite rev_involutive in H.
    change (rev []) with (@nil N) in H.
    apply trimStart_all_ws in H.
    apply Forall_rev in H. rewrite rev_involutive in H.
    inversion H as [|? ? Hc _]; subst.
    apply trimStart_head in Hs. congruence.
  - apply trimStart_all_ws in H. rewrite H. reflexivity.
Qed.

Lemma JsString_eqb_eq (s1 s2 : jsstring) :
  JsString.eqb s1 s2 = true <-> s1 = s2.
Proof.
  unfold JsString.eqb.
  destruct (list_eq_dec N.eq_dec s1 s2); split; intros; congruence.
Qed.

Lemma JsString_eqb_neq (s1 s2 : jsstring) :
  JsString.eqb s1 s2 = false <-> s1 <> s2.
Proof.
  unfold JsString.eqb.
  destruct (list_eq_dec N.eq_dec s1 s2); split; intros; congruence.
Qed.

Lemma startsWith_spec (s q : jsstring) :
  JsString.startsWith s q = true <-> exists post, s = q ++ post.
Proof.
  revert s. induction q as [|d q IH]; intros s; simpl.
  - destruct s; simpl; (split; [intros _; eexists; reflexivity | reflexivity]).
  - destruct s as [|c s]; simpl.
    + split; [discriminate | intros [post H]; discriminate].
    + rewrite andb_true_iff, N.eqb_eq, IH. split.
      * intros [-> [post ->]]. exists post. reflexivity.
      * intros [post H]. injection H as -> ->. split; [reflexivity|].
        exists post. reflexivity.
Qed.

(** [includes] finds exactly the substrings. *)
Lemma includes_spec (s q : jsstring) :
  JsString.includes s q = true <-> exists pre post, s = pre ++ q ++ post.
Proof.
  induction s as [|c s IH].
  - change (JsString.includes [] q) with (JsString.startsWith [] q || false).
    rewrite orb_false_r, startsWith_spec. split.
    + intros [post H]. exists [], post. exact H.
    + intros [pre [post H]]. destruct pre; [|discriminate].
      exists post. exact H.
  - change (JsString.includes (c :: s) q)
      with (JsString.startsWith (c :: s) q || JsString.includes s q).
    rewrite orb_true_iff, startsWith_spec, IH. split.
    + intros [[post H] | [pre [post H]]].
      * exists [], post. exact H.
      * exists (c :: pre), post. rewrite H. reflexivity.
    + intros [pre [post H]]. destruct pre as [|c' pre].
      * left. exists post. exact H.
      * right. injection H as -> ->. exists pre, post. reflexivity.
Qed.

(** ** Sorting *)

Section SortFacts.

Context {T : Type} (compareFn : T -> T -> Z).

Lemma insertSorted_perm (x : T) (l : list T) :
  Permutation (insertSorted compareFn x l) (x :: l).
Proof.
  induction l as [|y l IH]; simpl.
  - apply Permutation_refl.
  - destruct (0 <? compareFn x y).
    + rewrite IH. apply perm_swap.
    + apply Permutation_refl.
Qed.

Lemma sort_perm (l : list T) : Permutation (sort compareFn l) l.
Proof.
  induction l as [|x l IH]; simpl.
  - apply Permutation_refl.
  - rewrite insertSorted_perm. apply perm_skip. exact IH.
Qed.

(** An order that the comparator decides: [le a b] holds exactly when the
    comparator does not put [a] behind [b]. *)
Variable le : T -> T -> Prop.
Hypothesis le_compare : forall a b, le a b <-> compareFn a b <= 0.
Hypothesis le_total : forall a b, le a b \/ le b a.
Hypothesis le_trans : forall a b c, le a b -> le b c -> le a c.

Lemma insertSorted_sorted (x : T) (l : list T) :
  StronglySorted le l -> StronglySorted le (insertSorted compareFn x l).
Proof.
  induction l as [|y l IH]; simpl; intros Hs.
  - constructor; constructor.
  - inversion Hs as [|? ? Hl Hy]; subst.
    destruct (0 <? compareFn x y) eqn:Hc.
    + apply Z.ltb_lt in Hc.
      assert (Hyx : le y x).
      { destruct (le_total x y) as [H|H]; [|exact H].
        apply le_compare in H. lia. }
      constructor; [apply IH; exact Hl|].
      apply Forall_forall. intros z Hz.
      apply (Permutation_in _ (insertSorted_perm x l)) in Hz.
      destruct Hz as [<- | Hz]; [exact Hyx|].
      rewrite Forall_forall in Hy. apply Hy. exact Hz.
    + apply Z.ltb_ge in Hc. apply le_compare in Hc.
      constructor; [exact Hs|].
      constructor; [exact Hc|].
      rewrite Forall_forall in Hy |- *. intros z Hz.
      apply le_trans with y; [exact Hc | apply Hy; exact Hz].
Qed.

Lemma sort_sorted (l : list T) : StronglySorted le (sort compareFn l).
Proof.
  induction l as [|x l IH]; simpl.
  - constructor.
  - apply insertSorted_sorted. exact IH.
Qed.

(** Stability: the elements that tie with [z] keep their order. *)
Hypothesis tie_trans :
  forall z a b, compareFn z a = 0 -> compareFn z b = 0 -> compareFn a b = 0.

Lemma insertSorted_stable (z x : T) (l : list T) :
  filter (fun y => compareFn z y =? 0) (insertSorted compareFn x l) =
  filter (fun y => compareFn z y =? 0) (x :: l).
Proof.
  induction l as [|y l IH]; simpl.
  - reflexivity.
  - destruct (0 <? compareFn x y) eqn:Hc; [|reflexivity].
    apply Z.ltb_lt in Hc. simpl. simpl in IH. rewrite IH.
    destruct (compareFn z x =? 0) eqn:Hx; [|reflexivity].
    destruct (compareFn z y =? 0) eqn:Hy; [|reflexivity].
    apply Z.eqb_eq in Hx, Hy.
    pose proof (tie_trans z x y Hx Hy). lia.
Qed.

Lemma sort_stable (z : T) (l : list T) :
  filter (fun y => compareFn z y =? 0) (sort compareFn l) =
  filter (fun y => compareFn z y =? 0) l.
Proof.
  induction l as [|x l IH]; simpl.
  - reflexivity.
  - rewrite insertSorted_stable. simpl. rewrite IH. reflexivity.
Qed.

End SortFacts.

(** ** The task collection *)

(** *** Adding *)

Lemma NoDup_snoc {A : Type} (l : list A) (x : A) :
  NoDup l -> ~ In x l -> NoDup (l ++ [x]).
Proof.
  induction l as [|y l IH]; simpl; intros Hnd Hx.
  - constructor; [intros []|constructor].
  - inversion Hnd as [|? ? Hy Hl]; subst. constructor.
    + rewrite in_app_iff. simpl. intros [H | [H | []]]; [auto|].
      apply Hx. left. symmetry. exact H.
    + apply IH; [exact Hl|]. intros H. apply Hx. right. exact H.
Qed.

Lemma addTodo_blank (uuid : jsstring) (now : Z) (st : TodoList.State) :
  JsString.trim (TodoList.newTodo st) = [] ->
  TodoList.addTodo uuid now st = st.
Proof.
  intros H. unfold TodoList.addTodo. rewrite H. reflexivity.
Qed.

Lemma addTodo_nonblank (uuid : jsstring) (now : Z) (st : TodoList.State) :
  JsString.trim (TodoList.newTodo st) <> [] ->
  TodoList.todos (TodoList.addTodo uuid now st) =
  TodoList.todos st ++
  [ Todo.mk uuid (JsString.trim (TodoList.newTodo st)) false now None
      (TodoList.deadline st) (TodoList.priority st) (TodoList.category st)
      None ].
Proof.
  intros H. unfold TodoList.addTodo.
  destruct (JsString.trim (TodoList.newTodo st)); [congruence|].
  reflexivity.
Qed.

(** C2.  When the text of the add form is empty or holds only white
    space, [addTodo] changes nothing: the state after it, and with it the
    task collection, is the state before it; the command returns
    normally, there is no error to surface. *)
Theorem add_blank_text_changes_nothing :
  forall (uuid : jsstring) (now : Z) (st : TodoList.State),
    Forall (fun c => JsString.isWhiteSpace c = true) (TodoList.newTodo st) ->
    TodoList.addTodo uuid now st = st /\
    TodoList.todos (TodoList.addTodo uuid now st) = TodoList.todos st.
Proof.
  intros uuid now st H. apply trim_nil_iff in H.
  rewrite (addTodo_blank uuid now st H). split; reflexivity.
Qed.

Lemma add_blank_text_changes_nothing_witness :
  Forall (fun c => JsString.isWhiteSpace c = true) (TodoList.newTodo blankForm) /\
  TodoList.addTodo (JsString.lit "id-2") 2000 blankForm = blankForm /\
  TodoList.todos (TodoList.addTodo (JsString.lit "id-2") 2000 blankForm) =
  TodoList.todos blankForm.
Proof.
  assert (H : Forall (fun c => JsString.isWhiteSpace c = true)
                (TodoList.newTodo blankForm)).
  { repeat constructor. }
  split; [exact H|].
  exact (add_blank_text_changes_nothing (JsString.lit "id-2") 2000 blankForm H).
Defined.

Example add_buy_milk :
  TodoList.todos
    (TodoList.addTodo (JsString.lit "u1") 42
       (TodoList.setNewTodo (JsString.lit "Buy milk") TodoList.initialState)) =
  [ Todo.mk (JsString.lit "u1") (JsString.lit "Buy milk") false 42 None None
      medium personal None ].
Proof. reflexivity. Qed.

(** *** The invariant of the collection *)

Lemma activeTodos_perm (toLowerCase : jsstring -> jsstring) (st : TodoList.State) :
  Permutation (TodoList.activeTodos toLowerCase st)
    (filter (TodoList.matchesFilters toLowerCase st)
       (filter (fun t => negb (Todo.completed t)) (TodoList.todos st))).
Proof. apply sort_perm. Qed.

Lemma displayedTodos_incl (toLowerCase : jsstring -> jsstring)
    (st : TodoList.State) (t : Todo) :
  In t (TodoList.displayedTodos toLowerCase st) -> In t (TodoList.todos st).
Proof.
  assert (Ha : In t (TodoList.activeTodos toLowerCase st) ->
               In t (TodoList.todos st)).
  { intros H. apply (Permutation_in _ (activeTodos_perm toLowerCase st)) in H.
    apply filter_In in H. destruct H as [H _].
    apply filter_In in H. tauto. }
  assert (Hc : In t (TodoList.completedTodos toLowerCase st) ->
               In t (TodoList.todos st)).
  { unfold TodoList.completedTodos. intros H.
    apply filter_In in H. destruct H as [H _].
    apply filter_In in H. tauto. }
  unfold TodoList.displayedTodos.
  destruct (TodoList.filterStatus st); [|assumption|assumption].
  rewrite in_app_iff. tauto.
Qed.

Lemma toggled_taskInv (now : Z) (t : Todo) : taskInv (toggled now t).
Proof.
  unfold taskInv, toggled. simpl. destruct (Todo.completed t); simpl; split;
    intros; congruence.
Qed.

Lemma handleSave_taskInv (todo u : Todo) (f : EditTodoDialog.Fields) :
  EditTodoDialog.handleSave todo f = Some u -> taskInv todo -> taskInv u.
Proof.
  unfold EditTodoDialog.handleSave.
  destruct (JsString.truthy (JsString.trim (EditTodoDialog.text f)));
    [|discriminate].
  intros H. injection H as <-. unfold taskInv. simpl. tauto.
Qed.

Lemma initialState_inv : stateInv TodoList.initialState.
Proof.
  split; [constructor | discriminate].
Qed.

(** Every action keeps the invariant. *)
Lemma exec_inv (toLowerCase : jsstring -> jsstring)
    (a : TodoList.Action) (st : TodoList.State) :
  stateInv st -> stateInv (TodoList.exec toLowerCase a st).
Proof.
  intros [Hl He].
  destruct a; simpl; try (split; [exact Hl | exact He]).
  - (* AddTodo *)
    unfold TodoList.addTodo.
    destruct (JsString.truthy (JsString.trim (TodoList.newTodo st)));
      [|split; assumption].
    split; [|exact He]. simpl.
    apply Forall_app. split; [exact Hl|].
    constructor; [|constructor].
    unfold taskInv. simpl. split; intros; congruence.
  - (* ToggleTodo *)
    split; [|exact He]. simpl.
    apply Forall_forall. intros t Ht.
    apply in_map_iff in Ht. destruct Ht as [u [<- Hu]].
    destruct (JsString.eqb (Todo.id u) id).
    + apply toggled_taskInv.
    + rewrite Forall_forall in Hl. apply Hl. exact Hu.
  - (* DeleteTodo *)
    split; [|exact He]. simpl.
    apply Forall_forall. intros t Ht. apply filter_In in Ht.
    rewrite Forall_forall in Hl. apply Hl. tauto.
  - (* OnEdit *)
    destruct (nth_error (TodoList.displayedTodos toLowerCase st) i) as [t|] eqn:Hn;
      [|split; assumption].
    split; [exact Hl|]. simpl. intros t' Ht'. injection Ht' as <-.
    apply nth_error_In in Hn. apply displayedTodos_incl in Hn.
    rewrite Forall_forall in Hl. apply Hl. exact Hn.
  - (* OnClose *)
    split; [exact Hl | discriminate].
  - (* HandleSave *)
    destruct (TodoList.editingTodo st) as [todo|] eqn:Hed;
      [|split; [assumption | intros t Ht; apply He; congruence]].
    destruct (EditTodoDialog.handleSave todo f) as [u|] eqn:Hs;
      [|split; [assumption | intros t Ht; apply He; congruence]].
    split; [|discriminate]. simpl.
    apply Forall_forall. intros t Ht.
    apply in_map_iff in Ht. destruct Ht as [v [<- Hv]].
    destruct (JsString.eqb (Todo.id v) (Todo.id u)).
    + apply (handleSave_taskInv todo u f Hs). apply He. reflexivity.
    + rewrite Forall_forall in Hl. apply Hl. exact Hv.
  - (* Reload *)
    split; [exact Hl | discriminate].
Qed.

Lemma run_inv (toLowerCase : jsstring -> jsstring)
    (acts : list TodoList.Action) (st : TodoList.State) :
  stateInv st -> stateInv (TodoList.run toLowerCase acts st).
Proof.
  revert st. induction acts as [|a acts IH]; simpl; intros st H.
  - exact H.
  - apply IH. apply exec_inv. exact H.
Qed.

Lemma reachable_inv (toLowerCase : jsstring -> jsstring) (st : TodoList.State) :
  TodoList.reachable toLowerCase st -> stateInv st.
Proof.
  intros [acts ->]. apply run_inv. apply initialState_inv.
Qed.

Lemma sampleState_reachable :
  TodoList.reachable JsString.asciiLower sampleState.
Proof. exists sampleRun. reflexivity. Defined.

(** C1.  In every state the component can reach, each task of the
    collection has a completion time exactly when it is completed, and
    the same holds after any further action (adding, toggling, saving an
    edit, deleting, or any other event). *)
Theorem completedAt_iff_completed :
  forall (toLowerCase : jsstring -> jsstring) (st : TodoList.State),
    TodoList.reachable toLowerCase st ->
    Forall (fun t => Todo.completed t = true <-> Todo.completedAt t <> None)
      (TodoList.todos st) /\
    forall a : TodoList.Action,
      Forall (fun t => Todo.completed t = true <-> Todo.completedAt t <> None)
        (TodoList.todos (TodoList.exec toLowerCase a st)).
Proof.
  intros toLowerCase st Hr. apply reachable_inv in Hr. split.
  - exact (proj1 Hr).
  - intros a. exact (proj1 (exec_inv toLowerCase a st Hr)).
Qed.

Lemma completedAt_iff_completed_witness :
  TodoList.reachable JsString.asciiLower sampleState /\
  Forall (fun t => Todo.completed t = true <-> Todo.completedAt t <> None)
    (TodoList.todos sampleState) /\
  Forall (fun t => Todo.completed t = true <-> Todo.completedAt t <> None)
    (TodoList.todos
       (TodoList.exec JsString.asciiLower
          (TodoList.HandleSave
             (EditTodoDialog.mkFields (JsString.lit "Call Bob") [] None low work))
          sampleState)).
Proof.
  split; [exact sampleState_reachable|].
  destruct (completedAt_iff_completed JsString.asciiLower sampleState
              sampleState_reachable) as [H1 H2].
  split; [exact H1 | apply H2].
Defined.

(** *** Toggling twice *)

Lemma toggleTodo_nth (id : jsstring) (now : Z) (st : TodoList.State) (i : nat) :
  nth_error (TodoList.todos (TodoList.toggleTodo id now st)) i =
  option_map
    (fun t => if JsString.eqb (Todo.id t) id then toggled now t else t)
    (nth_error (TodoList.todos st) i).
Proof.
  unfold TodoList.toggleTodo. simpl. apply nth_error_map.
Qed.

Lemma JsString_eqb_refl (s : jsstring) : JsString.eqb s s = true.
Proof. apply JsString_eqb_eq. reflexivity. Qed.

(** C8, as stated, fails: two toggles do not return a completed task
    to its completion time.  The first task of [sampleState], completed
    at 3000, is completed at 6000 after toggles at 5000 and 6000. *)
Lemma toggle_twice_changes_completedAt :
  ~ (forall (toLowerCase : jsstring -> jsstring) (st : TodoList.State)
            (i : nat) (t : Todo) (now1 now2 : Z),
       TodoList.reachable toLowerCase st ->
       nth_error (TodoList.todos st) i = Some t ->
       exists t',
         nth_error
           (TodoList.todos
              (TodoList.toggleTodo (Todo.id t) now2
                 (TodoList.toggleTodo (Todo.id t) now1 st))) i = Some t' /\
         Todo.completed t' = Todo.completed t /\
         Todo.completedAt t' = Todo.completedAt t).
Proof.
  intros H.
  assert (Hn : nth_error (TodoList.todos sampleState) 0 =
               Some (Todo.mk (JsString.lit "id-1") (JsString.lit "Buy milk")
                       true 1000 (Some 3000) None medium personal None))
    by (vm_compute; reflexivity).
  destruct (H JsString.asciiLower sampleState 0%nat _ 5000 6000
              sampleState_reachable Hn) as [t' [Ht' [_ Hc]]].
  rewrite toggleTodo_nth, toggleTodo_nth, Hn in Ht'.
  cbn [option_map Todo.id] in Ht'.
  rewrite JsString_eqb_refl in Ht'. cbn [toggled Todo.id] in Ht'.
  rewrite JsString_eqb_refl in Ht'. injection Ht' as <-.
  cbn [toggled Todo.completedAt Todo.completed negb] in Hc.
  assert (E : 6000 = 3000) by congruence. lia.
Qed.

(** C8, amended.  In a reachable state, toggling a task of the
    collection twice in succession brings back its completed flag and
    the presence of its completion time, and changes no other field.  A
    task that was not completed is exactly as before: its completion
    time is absent again.  A task that was completed carries the time of
    the second toggle, not the completion time it had before. *)
Theorem toggle_twice_restores :
  forall (toLowerCase : jsstring -> jsstring) (st : TodoList.State)
         (i : nat) (t : Todo) (now1 now2 : Z),
    TodoList.reachable toLowerCase st ->
    nth_error (TodoList.todos st) i = Some t ->
    exists t',
      nth_error
        (TodoList.todos
           (TodoList.toggleTodo (Todo.id t) now2
              (TodoList.toggleTodo (Todo.id t) now1 st))) i = Some t' /\
      Todo.completed t' = Todo.completed t /\
      (Todo.completedAt t' = None <-> Todo.completedAt t = None) /\
      (Todo.completed t = false -> Todo.completedAt t' = None /\ t' = t) /\
      (Todo.completed t = true -> Todo.completedAt t' = Some now2) /\
      Todo.id t' = Todo.id t /\
      Todo.text t' = Todo.text t /\
      Todo.createdAt t' = Todo.createdAt t /\
      Todo.deadline t' = Todo.deadline t /\
      Todo.priority t' = Todo.priority t /\
      Todo.category t' = Todo.category t /\
      Todo.notes t' = Todo.notes t.
Proof.
  intros toLowerCase st i t now1 now2 Hr Hn.
  assert (Hinv : taskInv t).
  { apply reachable_inv in Hr. destruct Hr as [Hl _].
    rewrite Forall_forall in Hl. apply Hl.
    apply nth_error_In with i. exact Hn. }
  exists (toggled now2 (toggled now1 t)). split.
  { rewrite toggleTodo_nth, toggleTodo_nth, Hn. simpl.
    rewrite JsString_eqb_refl. simpl. rewrite JsString_eqb_refl. reflexivity. }
  unfold taskInv in Hinv. destruct t as [i0 tx c cr ca d p cat n].
  simpl in *. destruct c; simpl.
  - split; [reflexivity|]. split.
    { split; [discriminate|].
      intros H. exfalso. apply (proj1 Hinv eq_refl). exact H. }
    split; [discriminate|].
    repeat split; reflexivity.
  - assert (ca = None) as ->.
    { destruct ca as [z|]; [|reflexivity].
      assert (false = true) by (apply Hinv; discriminate). discriminate. }
    repeat split; try reflexivity; try discriminate.
Qed.

Lemma toggle_twice_restores_witness :
  TodoList.reachable JsString.asciiLower sampleState /\
  exists t',
    nth_error
      (TodoList.todos
         (TodoList.toggleTodo (JsString.lit "id-1") 6000
            (TodoList.toggleTodo (JsString.lit "id-1") 5000 sampleState))) 0
    = Some t' /\
    Todo.completed t' = true /\
    Todo.completedAt t' = Some 6000.
Proof.
  split; [exact sampleState_reachable|].
  destruct (toggle_twice_restores JsString.asciiLower sampleState 0
              (Todo.mk (JsString.lit "id-1") (JsString.lit "Buy milk") true
                 1000 (Some 3000) None medium personal None)
              5000 6000 sampleState_reachable eq_refl)
    as [t' [H1 [H2 [_ [_ [H5 _]]]]]].
  exists t'. split; [exact H1|]. split; [exact H2 | exact (H5 eq_refl)].
Defined.

(** *** Unknown identifiers *)

Lemma setTodos_same (st : TodoList.State) :
  TodoList.setTodos (TodoList.todos st) st = st.
Proof. destruct st; reflexivity. Qed.

Lemma map_unknown_id (g : Todo -> Todo) (id : jsstring) (l : list Todo) :
  ~ In id (ids l) ->
  map (fun todo => if JsString.eqb (Todo.id todo) id then g todo else todo) l = l.
Proof.
  induction l as [|t l IH]; simpl; intros H.
  - reflexivity.
  - destruct (JsString.eqb (Todo.id t) id) eqn:E.
    + apply JsString_eqb_eq in E. exfalso. apply H. left. exact E.
    + rewrite IH; [reflexivity|]. intros Hin. apply H. right. exact Hin.
Qed.

Lemma filter_unknown_id (id : jsstring) (l : list Todo) :
  ~ In id (ids l) ->
  filter (fun todo => negb (JsString.eqb (Todo.id todo) id)) l = l.
Proof.
  induction l as [|t l IH]; simpl; intros H.
  - reflexivity.
  - destruct (JsString.eqb (Todo.id t) id) eqn:E; simpl.
    + apply JsString_eqb_eq in E. exfalso. apply H. left. exact E.
    + rewrite IH; [reflexivity|]. intros Hin. apply H. right. exact Hin.
Qed.

(** C9, as stated, fails: updating with the task itself (identifier
    known) and updating with a task of unknown identifier leave the
    component in the same state, so nothing reports the unknown one. *)
Lemma update_reports_nothing : ~ updateReportsNotFound.
Proof.
  intros [report H].
  assert (E : TodoList.updateTodo sampleTask oneTaskState =
              TodoList.updateTodo strayTask oneTaskState) by reflexivity.
  pose proof (H sampleTask oneTaskState) as H1.
  pose proof (H strayTask oneTaskState) as H2.
  rewrite E in H1.
  assert (Hnot : ~ In (Todo.id strayTask) (ids (TodoList.todos oneTaskState))).
  { simpl. intros [Heq | []]. discriminate. }
  apply H2 in Hnot. apply H1 in Hnot. apply Hnot. left. reflexivity.
Qed.

(** C9, amended.  With an identifier that no task of the collection
    carries, saving an edit, toggling and deleting leave the task
    collection as it was (toggling and deleting leave the whole state as
    it was); each command returns normally and returns nothing. *)
Theorem unknown_id_changes_nothing :
  forall (st : TodoList.State) (u : Todo) (now : Z),
    ~ In (Todo.id u) (ids (TodoList.todos st)) ->
    TodoList.todos (TodoList.updateTodo u st) = TodoList.todos st /\
    TodoList.toggleTodo (Todo.id u) now st = st /\
    TodoList.deleteTodo (Todo.id u) st = st.
Proof.
  intros st u now H. repeat split.
  - unfold TodoList.updateTodo. simpl.
    apply (map_unknown_id (fun _ => u)). exact H.
  - unfold TodoList.toggleTodo.
    rewrite (map_unknown_id (toggled now)); [apply setTodos_same | exact H].
  - unfold TodoList.deleteTodo.
    rewrite filter_unknown_id; [apply setTodos_same | exact H].
Qed.

Lemma unknown_id_changes_nothing_witness :
  ~ In (Todo.id strayTask) (ids (TodoList.todos sampleState)) /\
  TodoList.todos (TodoList.updateTodo strayTask sampleState) =
  TodoList.todos sampleState /\
  TodoList.toggleTodo (Todo.id strayTask) 7000 sampleState = sampleState /\
  TodoList.deleteTodo (Todo.id strayTask) sampleState = sampleState.
Proof.
  assert (H : ~ In (Todo.id strayTask) (ids (TodoList.todos sampleState))).
  { vm_compute. intros [H | [H | []]]; discriminate. }
  split; [exact H|].
  exact (unknown_id_changes_nothing sampleState strayTask 7000 H).
Defined.

(** *** Saving an edit *)

Lemma updateTodo_nth (u : Todo) (st : TodoList.State) (i : nat) :
  nth_error (TodoList.todos (TodoList.updateTodo u st)) i =
  option_map
    (fun t => if JsString.eqb (Todo.id t) (Todo.id u) then u else t)
    (nth_error (TodoList.todos st) i).
Proof.
  unfold TodoList.updateTodo. simpl. apply nth_error_map.
Qed.

Lemma handleSave_fields (todo u : Todo) (f : EditTodoDialog.Fields) :
  EditTodoDialog.handleSave todo f = Some u ->
  Todo.id u = Todo.id todo /\
  Todo.completed u = Todo.completed todo /\
  Todo.completedAt u = Todo.completedAt todo /\
  Todo.createdAt u = Todo.createdAt todo.
Proof.
  unfold EditTodoDialog.handleSave.
  destruct (JsString.truthy (JsString.trim (EditTodoDialog.text f)));
    [|discriminate].
  intros H. injection H as <-. simpl. repeat split; reflexivity.
Qed.

(** C10.  When the dialog is open on a task of the collection, pressing
    save, with whatever the five fields hold, leaves that task's
    [completed], [completedAt], [id] and [createdAt] as they were, keeps
    the length of the collection, and leaves every task with another
    identifier untouched at its place. *)
Theorem save_edit_keeps_status_and_others :
  forall (toLowerCase : jsstring -> jsstring) (st : TodoList.State)
         (todo : Todo) (f : EditTodoDialog.Fields) (i : nat),
    TodoList.editingTodo st = Some todo ->
    nth_error (TodoList.todos st) i = Some todo ->
    (exists t',
       nth_error
         (TodoList.todos (TodoList.exec toLowerCase (TodoList.HandleSave f) st)) i
       = Some t' /\
       Todo.completed t' = Todo.completed todo /\
       Todo.completedAt t' = Todo.completedAt todo /\
       Todo.id t' = Todo.id todo /\
       Todo.createdAt t' = Todo.createdAt todo) /\
    length (TodoList.todos (TodoList.exec toLowerCase (TodoList.HandleSave f) st))
    = length (TodoList.todos st) /\
    forall (j : nat) (u : Todo),
      nth_error (TodoList.todos st) j = Some u ->
      Todo.id u <> Todo.id todo ->
      nth_error
        (TodoList.todos (TodoList.exec toLowerCase (TodoList.HandleSave f) st)) j
      = Some u.
Proof.
  intros toLowerCase st todo f i Hed Hn. simpl. rewrite Hed.
  destruct (EditTodoDialog.handleSave todo f) as [v|] eqn:Hs.
  - destruct (handleSave_fields todo v f Hs) as [Hid [Hc [Hca Hcr]]].
    split; [|split].
    + exists v. rewrite updateTodo_nth, Hn. simpl.
      rewrite Hid, JsString_eqb_refl. auto.
    + unfold TodoList.updateTodo. simpl. apply length_map.
    + intros j u Hj Hne. rewrite updateTodo_nth, Hj. simpl.
      rewrite Hid.
      apply JsString_eqb_neq in Hne. rewrite Hne. reflexivity.
  - split; [|split].
    + exists todo. auto.
    + reflexivity.
    + intros j u Hj _. exact Hj.
Qed.

Lemma save_edit_keeps_status_and_others_witness :
  TodoList.editingTodo editingState = Some callAnn /\
  nth_error (TodoList.todos editingState) 1 = Some callAnn /\
  exists t',
    nth_error
      (TodoList.todos
         (TodoList.exec JsString.asciiLower (TodoList.HandleSave editedFields)
            editingState)) 1
    = Some t' /\
    Todo.completed t' = Todo.completed callAnn /\
    Todo.completedAt t' = Todo.completedAt callAnn /\
    Todo.id t' = Todo.id callAnn /\
    Todo.createdAt t' = Todo.createdAt callAnn.
Proof.
  split; [reflexivity|]. split; [reflexivity|].
  exact (proj1 (save_edit_keeps_status_and_others JsString.asciiLower
                  editingState callAnn editedFields 1 eq_refl eq_refl)).
Defined.

(** ** Filtering *)

Lemma matchesFilters_spec (toLowerCase : jsstring -> jsstring)
    (st : TodoList.State) (t : Todo) :
  TodoList.matchesFilters toLowerCase st t = true <->
  (TodoList.searchQuery st = [] \/
   exists pre post,
     toLowerCase (Todo.text t) =
     pre ++ toLowerCase (TodoList.searchQuery st) ++ post) /\
  (TodoList.filterPriority st = All \/
   TodoList.filterPriority st = Only (Todo.priority t)) /\
  (TodoList.filterCategory st = All \/
   TodoList.filterCategory st = Only (Todo.category t)).
Proof.
  unfold TodoList.matchesFilters.
  assert (Hq : JsString.truthy (TodoList.searchQuery st)
               && negb (JsString.includes (toLowerCase (Todo.text t))
                          (toLowerCase (TodoList.searchQuery st))) = false <->
               (TodoList.searchQuery st = [] \/
                exists pre post,
                  toLowerCase (Todo.text t) =
                  pre ++ toLowerCase (TodoList.searchQuery st) ++ post)).
  { rewrite <- includes_spec.
    destruct (TodoList.searchQuery st) as [|c q]; simpl.
    - split; auto.
    - destruct (JsString.includes _ _); simpl; split; auto.
      intros [H | H]; discriminate. }
  assert (Hp : match TodoList.filterPriority st with
               | All => false
               | Only p => negb (Priority_eqb (Todo.priority t) p)
               end = false <->
               (TodoList.filterPriority st = All \/
                TodoList.filterPriority st = Only (Todo.priority t))).
  { destruct (TodoList.filterPriority st) as [|p]; [split; auto|].
    destruct (Todo.priority t), p; simpl;
      intuition (try discriminate; auto). }
  assert (Hc : match TodoList.filterCategory st with
               | All => false
               | Only c => negb (Category_eqb (Todo.category t) c)
               end = false <->
               (TodoList.filterCategory st = All \/
                TodoList.filterCategory st = Only (Todo.category t))).
  { destruct (TodoList.filterCategory st) as [|c]; [split; auto|].
    destruct (Todo.category t), c; simpl;
      intuition (try discriminate; auto). }
  rewrite <- Hq, <- Hp, <- Hc.
  destruct (JsString.truthy _ && _);
    destruct (match TodoList.filterPriority st with All => _ | Only _ => _ end);
    destruct (match TodoList.filterCategory st with All => _ | Only _ => _ end);
    intuition congruence.
Qed.

(** C4.  A task is displayed exactly when it is in the collection and
    passes the four conditions of the query. *)
Theorem displayed_iff_passes :
  forall (toLowerCase : jsstring -> jsstring) (st : TodoList.State) (t : Todo),
    In t (TodoList.displayedTodos toLowerCase st) <->
    In t (TodoList.todos st) /\ spec_passes toLowerCase st t.
Proof.
  intros toLowerCase st t.
  assert (Ha : In t (TodoList.activeTodos toLowerCase st) <->
               In t (TodoList.todos st) /\ Todo.completed t = false /\
               TodoList.matchesFilters toLowerCase st t = true).
  { split.
    - intros H. apply (Permutation_in _ (activeTodos_perm toLowerCase st)) in H.
      apply filter_In in H. destruct H as [H Hm].
      apply filter_In in H. destruct H as [H Hc].
      apply negb_true_iff in Hc. auto.
    - intros [H [Hc Hm]].
      apply (Permutation_in _
               (Permutation_sym (activeTodos_perm toLowerCase st))).
      apply filter_In. split; [|exact Hm].
      apply filter_In. split; [exact H|]. rewrite Hc. reflexivity. }
  assert (Hc : In t (TodoList.completedTodos toLowerCase st) <->
               In t (TodoList.todos st) /\ Todo.completed t = true /\
               TodoList.matchesFilters toLowerCase st t = true).
  { unfold TodoList.completedTodos. rewrite filter_In, filter_In. tauto. }
  unfold spec_passes. rewrite <- matchesFilters_spec.
  unfold TodoList.displayedTodos.
  destruct (TodoList.filterStatus st).
  - rewrite in_app_iff, Ha, Hc.
    destruct (Todo.completed t); intuition congruence.
  - rewrite Ha. intuition congruence.
  - rewrite Hc. intuition congruence.
Qed.

Example search_is_case_insensitive :
  TodoList.displayedTodos JsString.asciiLower
    (TodoList.setSearchQuery (JsString.lit "MILK") oneTaskState)
  = [sampleTask] /\
  TodoList.displayedTodos JsString.asciiLower
    (TodoList.setSearchQuery (JsString.lit "eggs") oneTaskState)
  = [].
Proof. split; reflexivity. Qed.

(** ** The order of the active tasks *)

Ltac compare_cases :=
  unfold keyLe, TodoList.compareTodos, truthyVal;
  repeat match goal with
         | |- context [Todo.deadline ?t] => destruct (Todo.deadline t) as [?|]
         | |- context [?x =? ?y] => destruct (Z.eqb_spec x y)
         end;
  cbn [negb]; intros; lia.

Lemma keyLe_compare (a b : Todo) :
  keyLe a b <-> TodoList.compareTodos a b <= 0.
Proof. compare_cases. Qed.

Lemma keyLe_total (a b : Todo) : keyLe a b \/ keyLe b a.
Proof. compare_cases. Qed.

Lemma keyLe_trans (a b c : Todo) : keyLe a b -> keyLe b c -> keyLe a c.
Proof. compare_cases. Qed.

Lemma compare_tie_trans (z a b : Todo) :
  TodoList.compareTodos z a = 0 -> TodoList.compareTodos z b = 0 ->
  TodoList.compareTodos a b = 0.
Proof. compare_cases. Qed.

(** C5, as stated, fails: of two active tasks with the same priority and
    the same deadline the one created later is not moved to the front. *)
Lemma equal_deadlines_not_by_createdAt :
  ~ (forall st : TodoList.State,
       StronglySorted spec_keyLe (TodoList.activeTodos JsString.asciiLower st)).
Proof.
  intros H.
  specialize (H (TodoList.setTodos [dueFirst; dueSecond] TodoList.initialState)).
  change (StronglySorted spec_keyLe [dueFirst; dueSecond]) in H.
  inversion H as [|? ? _ Hall]; subst.
  inversion Hall as [|? ? Hle _]; subst.
  unfold spec_keyLe in Hle. simpl in Hle. lia.
Qed.

(** The sort is stable: active tasks between which the comparator does
    not decide are displayed in their collection order. *)
Lemma activeTodos_stable (toLowerCase : jsstring -> jsstring)
    (st : TodoList.State) (z : Todo) :
  filter (fun y => TodoList.compareTodos z y =? 0)
    (TodoList.activeTodos toLowerCase st) =
  filter (fun y => TodoList.compareTodos z y =? 0)
    (filter (TodoList.matchesFilters toLowerCase st)
       (filter (fun t => negb (Todo.completed t)) (TodoList.todos st))).
Proof. apply sort_stable. exact compare_tie_trans. Qed.

(** C5, amended.  The active tasks that pass the filters are displayed,
    each once, in ascending order of the key [keyLe]: by priority rank
    (high, medium, low); among equal ranks those with a deadline other
    than 0 before those without, and two such tasks by earlier deadline
    first; among tasks of equal rank without such a deadline by
    [createdAt] descending.  The example holds: A, B and C are displayed
    as B, A, C whatever their order in the collection. *)
Theorem active_sorted_by_key :
  forall (toLowerCase : jsstring -> jsstring) (st : TodoList.State),
    StronglySorted keyLe (TodoList.activeTodos toLowerCase st) /\
    Permutation (TodoList.activeTodos toLowerCase st)
      (filter (TodoList.matchesFilters toLowerCase st)
         (filter (fun t => negb (Todo.completed t)) (TodoList.todos st))) /\
    (forall cb cc : Z,
       Forall
         (fun l =>
            TodoList.activeTodos toLowerCase
              (TodoList.setTodos l TodoList.initialState)
            = [exampleB cb; exampleA; exampleC cc])
         [ [exampleA; exampleB cb; exampleC cc];
           [exampleA; exampleC cc; exampleB cb];
           [exampleB cb; exampleA; exampleC cc];
           [exampleB cb; exampleC cc; exampleA];
           [exampleC cc; exampleA; exampleB cb];
           [exampleC cc; exampleB cb; exampleA] ]).
Proof.
  intros toLowerCase st. split; [|split].
  - apply sort_sorted.
    + exact keyLe_compare.
    + exact keyLe_total.
    + exact keyLe_trans.
  - apply activeTodos_perm.
  - intros cb cc. repeat constructor.
Qed.

(** ** Overdue tasks *)

(** [overdueCount] counts the tasks that [isOverdue] marks. *)
Lemma overdueCount_counts_overdue (now : Z) (st : TodoList.State) :
  TodoList.overdueCount now st =
  Z.of_nat (length (filter (TodoItem.isOverdue now) (TodoList.todos st))).
Proof.
  unfold TodoList.overdueCount. f_equal. f_equal.
  apply filter_ext. intros t. unfold TodoItem.isOverdue.
  destruct (truthyVal (Todo.deadline t)); [apply andb_comm|].
  apply andb_false_r.
Qed.

(** [isOverdue] tests the deadline by its truthiness.  For a deadline
    that is not the timestamp 0 this is the test for its presence. *)
Lemma isOverdue_spec (now : Z) (t : Todo) :
  Todo.deadline t <> Some 0 ->
  TodoItem.isOverdue now t = spec_overdue now t.
Proof.
  intros H. unfold TodoItem.isOverdue, spec_overdue, truthyVal.
  destruct (Todo.deadline t) as [d|]; [|reflexivity].
  destruct (d =? 0) eqn:E; [|reflexivity].
  apply Z.eqb_eq in E. congruence.
Qed.

Lemma spec_overdue_iff (now : Z) (t : Todo) :
  spec_overdue now t = true <->
  (exists d, Todo.deadline t = Some d /\ d < now) /\
  Todo.completed t = false.
Proof.
  unfold spec_overdue. destruct (Todo.deadline t) as [d|].
  - rewrite andb_true_iff, Z.ltb_lt, negb_true_iff. split.
    + intros [H1 H2]. split; [|exact H2]. exists d. auto.
    + intros [[d' [Hd Hlt]] Hc]. injection Hd as <-. auto.
  - split; [discriminate|]. intros [[d [Hd _]] _]. discriminate.
Qed.

(** The timestamp 0 itself is the one deadline at which the test for
    truthiness and the test for presence part: such a task is not
    overdue at time 1.  No day that the calendars offer has it. *)
Remark deadline_zero_never_overdue :
  ~ (forall (now : Z) (t : Todo),
       TodoItem.isOverdue now t = true <->
       (exists d, Todo.deadline t = Some d /\ d < now) /\
       Todo.completed t = false).
Proof.
  intros H.
  specialize (H 1 (Todo.mk (JsString.lit "e") (JsString.lit "Epoch") false
                     (-5) None (Some 0) medium personal None)).
  simpl in H. destruct H as [_ H].
  assert (false = true); [|discriminate].
  apply H. split; [|reflexivity]. exists 0. split; [reflexivity | lia].
Qed.

(** Every action keeps the deadlines of the component away from the
    timestamp 0, when the calendar does. *)
Lemma exec_deadlineInv (toLowerCase : jsstring -> jsstring)
    (a : TodoList.Action) (st : TodoList.State) :
  pickedDeadline a <> Some 0 -> deadlineInv st ->
  deadlineInv (TodoList.exec toLowerCase a st).
Proof.
  intros Hp Hst. pose proof Hst as [Hl [Hf He]].
  assert (Hkeep : forall (g : Todo -> Todo) (l : list Todo),
             (forall t, Todo.deadline t <> Some 0 ->
                        Todo.deadline (g t) <> Some 0) ->
             Forall (fun t => Todo.deadline t <> Some 0) l ->
             Forall (fun t => Todo.deadline t <> Some 0) (map g l)).
  { intros g l Hg H. induction H as [|x l Hx _ IH]; simpl; constructor; auto. }
  destruct a; cbn [TodoList.exec pickedDeadline] in *;
    try exact Hst.
  - (* SetDeadline *)
    split; [exact Hl | split; [exact Hp | exact He]].
  - (* AddTodo *)
    unfold TodoList.addTodo.
    destruct (JsString.truthy (JsString.trim (TodoList.newTodo st)));
      [|exact Hst].
    split; [|split; [discriminate | exact He]].
    cbn [TodoList.todos TodoList.setCategory TodoList.setPriority
         TodoList.setDeadline TodoList.setNewTodo TodoList.setTodos].
    apply Forall_app. split; [exact Hl|].
    constructor; [exact Hf | constructor].
  - (* ToggleTodo *)
    split; [|split; [exact Hf | exact He]].
    unfold TodoList.toggleTodo. cbn [TodoList.todos TodoList.setTodos].
    apply Hkeep; [|exact Hl].
    intros t Ht. destruct (JsString.eqb (Todo.id t) id); exact Ht.
  - (* DeleteTodo *)
    split; [|split; [exact Hf | exact He]].
    unfold TodoList.deleteTodo. cbn [TodoList.todos TodoList.setTodos].
    apply Forall_forall. intros t Ht. apply filter_In in Ht.
    rewrite Forall_forall in Hl. apply Hl. exact (proj1 Ht).
  - (* OnEdit *)
    destruct (nth_error (TodoList.displayedTodos toLowerCase st) i)
      as [t|] eqn:En; [|exact Hst].
    split; [exact Hl | split; [exact Hf|]].
    intros t' Ht'. cbn [TodoList.editingTodo TodoList.setEditingTodo] in Ht'.
    injection Ht' as <-.
    rewrite Forall_forall in Hl. apply Hl.
    apply (displayedTodos_incl toLowerCase). eapply nth_error_In. exact En.
  - (* OnClose *)
    split; [exact Hl | split; [exact Hf|]]. intros t Ht. discriminate Ht.
  - (* HandleSave *)
    destruct (TodoList.editingTodo st) as [todo|];
      [|exact Hst].
    destruct (EditTodoDialog.handleSave todo f) as [u|] eqn:Eu;
      [|exact Hst].
    assert (Hu : Todo.deadline u <> Some 0).
    { unfold EditTodoDialog.handleSave in Eu.
      destruct (JsString.truthy (JsString.trim (EditTodoDialog.text f)));
        [|discriminate Eu].
      injection Eu as <-. exact Hp. }
    split; [|split; [exact Hf|]].
    + unfold TodoList.updateTodo.
      cbn [TodoList.todos TodoList.setTodos TodoList.setEditingTodo].
      apply Hkeep; [|exact Hl].
      intros t Ht. destruct (JsString.eqb (Todo.id t) (Todo.id u)); assumption.
    + intros t Ht. discriminate Ht.
  - (* Reload *)
    split; [exact Hl | split; [discriminate|]]. intros t Ht. discriminate Ht.
Qed.

Lemma run_deadlineInv (toLowerCase : jsstring -> jsstring)
    (acts : list TodoList.Action) :
  forall st : TodoList.State,
    calendarRun acts -> deadlineInv st ->
    deadlineInv (TodoList.run toLowerCase acts st).
Proof.
  induction acts as [|a acts IH]; intros st Hc Hi; [exact Hi|].
  inversion Hc as [|? ? Ha Hr]; subst.
  apply (IH (TodoList.exec toLowerCase a st) Hr).
  apply exec_deadlineInv; assumption.
Qed.

Lemma initialState_deadlineInv : deadlineInv TodoList.initialState.
Proof.
  split; [constructor|]. split; [discriminate|]. intros t H. discriminate H.
Qed.

(** C6.  In every state that a run of the component leads to with the
    deadlines that its calendars offer, a task of the collection is
    overdue at a time exactly when it has a deadline, the deadline is
    strictly before that time, and the task is not completed; and the
    overdue count of the statistics is the number of such tasks.  The
    same holds of any task at all whose deadline is not the timestamp
    0. *)
Theorem overdue_iff_deadline_passed :
  forall (toLowerCase : jsstring -> jsstring)
         (acts : list TodoList.Action) (now : Z),
    calendarRun acts ->
    (forall t : Todo,
       In t (TodoList.todos
               (TodoList.run toLowerCase acts TodoList.initialState)) ->
       (TodoItem.isOverdue now t = true <->
        (exists d, Todo.deadline t = Some d /\ d < now) /\
        Todo.completed t = false)) /\
    TodoList.overdueCount now
      (TodoList.run toLowerCase acts TodoList.initialState) =
    Z.of_nat
      (length
         (filter (spec_overdue now)
            (TodoList.todos
               (TodoList.run toLowerCase acts TodoList.initialState)))) /\
    (forall t : Todo,
       Todo.deadline t <> Some 0 ->
       (TodoItem.isOverdue now t = true <->
        (exists d, Todo.deadline t = Some d /\ d < now) /\
        Todo.completed t = false)).
Proof.
  intros toLowerCase acts now Hc.
  assert (Hany : forall t : Todo,
             Todo.deadline t <> Some 0 ->
             (TodoItem.isOverdue now t = true <->
              (exists d, Todo.deadline t = Some d /\ d < now) /\
              Todo.completed t = false)).
  { intros t Ht. rewrite (isOverdue_spec now t Ht). apply spec_overdue_iff. }
  destruct (run_deadlineInv toLowerCase acts TodoList.initialState Hc
              initialState_deadlineInv) as [Hl _].
  rewrite Forall_forall in Hl.
  split; [|split; [|exact Hany]].
  - intros t Hin. apply Hany. apply Hl. exact Hin.
  - rewrite overdueCount_counts_overdue. f_equal. f_equal.
    apply filter_ext_in. intros t Hin. apply isOverdue_spec. apply Hl.
    exact Hin.
Qed.

Lemma overdue_iff_deadline_passed_witness :
  calendarRun rentRun /\
  (forall t : Todo,
     In t (TodoList.todos
             (TodoList.run JsString.asciiLower rentRun TodoList.initialState)) ->
     (TodoItem.isOverdue 501 t = true <->
      (exists d, Todo.deadline t = Some d /\ d < 501) /\
      Todo.completed t = false)) /\
  TodoList.overdueCount 501
    (TodoList.run JsString.asciiLower rentRun TodoList.initialState) = 1.
Proof.
  assert (H : calendarRun rentRun).
  { unfold calendarRun, rentRun. repeat constructor; discriminate. }
  split; [exact H|].
  destruct (overdue_iff_deadline_passed JsString.asciiLower rentRun 501 H)
    as [H1 [H2 _]].
  split; [exact H1|]. rewrite H2. vm_compute. reflexivity.
Defined.

Example overdue_one_ms_ago :
  forall now : Z, now <> 1 ->
    TodoItem.isOverdue now
      (Todo.mk (JsString.lit "o") (JsString.lit "Late") false 0 None
         (Some (now - 1)) medium personal None) = true /\
    TodoItem.isOverdue now
      (Todo.mk (JsString.lit "o") (JsString.lit "Late") true 0 (Some now)
         (Some (now - 1)) medium personal None) = false.
Proof.
  intros now H. unfold TodoItem.isOverdue, truthyVal. simpl.
  destruct (now - 1 =? 0) eqn:E; [apply Z.eqb_eq in E; lia|].
  split; [|apply andb_false_r].
  rewrite andb_true_r. apply Z.ltb_lt. lia.
Qed.

(** ** Number arithmetic *)

Import Number.

(** On concrete operands the operations agree with the Standard
    Library's specification of binary64 arithmetic. *)
Example fdiv_23_40_agrees :
  reduced (fdiv (ofZ 23) (ofZ 40)) =
  ofSpecFloat (SFdiv 53 1024 (sf 23) (sf 40)).
Proof. vm_compute. reflexivity. Qed.

Example fmul_fdiv_23_40_agrees :
  reduced (fmul (fdiv (ofZ 23) (ofZ 40)) (ofZ 100)) =
  ofSpecFloat (SFmul 53 1024 (SFdiv 53 1024 (sf 23) (sf 40)) (sf 100)).
Proof. vm_compute. reflexivity. Qed.

Example fdiv_hours_agrees :
  reduced (fdiv (fdiv (ofZ 9000000) (ofZ 7)) (ofZ 3600000)) =
  ofSpecFloat
    (SFdiv 53 1024 (SFdiv 53 1024 (sf 9000000) (sf 7)) (sf 3600000)).
Proof. vm_compute. reflexivity. Qed.

Example fadd_fsub_agrees :
  reduced (fadd (ofZ 9007199254740992) (fsub (ofZ 5) (ofZ 2))) =
  ofSpecFloat
    (SFadd 53 1024 (sf 9007199254740992) (SFsub 53 1024 (sf 5) (sf 2))) /\
  reduced (fadd (ofZ 9007199254740992) (fsub (ofZ 5) (ofZ 2))) =
  ofZ 9007199254740996.
Proof. split; vm_compute; reflexivity. Qed.

Lemma pow2_pos (e : Z) : (0 < pow2 e)%Q.
Proof. apply Qpower_0_lt. reflexivity. Qed.

Lemma pow2_add (a b : Z) : (pow2 (a + b) == pow2 a * pow2 b)%Q.
Proof. apply Qpower_plus. discriminate. Qed.

Lemma pow2_le (a b : Z) : a <= b -> (pow2 a <= pow2 b)%Q.
Proof.
  intros H. apply Qpower_le_compat_l; [exact H|]. discriminate.
Qed.

Lemma pow2_lt (a b : Z) : a < b -> (pow2 a < pow2 b)%Q.
Proof.
  intros H. apply Qpower_lt_compat_l; [exact H|]. reflexivity.
Qed.

Lemma pow2_lt_inv (a b : Z) : (pow2 a < pow2 b)%Q -> a < b.
Proof.
  intros H. destruct (Z_lt_le_dec a b) as [Hl|Hl]; [exact Hl|].
  apply pow2_le in Hl. lra.
Qed.

Lemma pow2_Z (e : Z) : 0 <= e -> (pow2 e == inject_Z (2 ^ e))%Q.
Proof.
  intros H. unfold pow2. rewrite Zpower_Qpower by exact H. reflexivity.
Qed.

Lemma Qmake_pos (a : Z) (b : positive) : (0 < a # b)%Q -> 0 < a.
Proof. unfold Qlt. simpl. lia. Qed.

Lemma log2_Q (n : Z) :
  0 < n ->
  (pow2 (Z.log2 n) <= inject_Z n)%Q /\ (inject_Z n < pow2 (Z.log2 n + 1))%Q.
Proof.
  intros H. pose proof (Z.log2_spec n H) as [H1 H2].
  pose proof (Z.log2_nonneg n) as H0.
  rewrite !pow2_Z by lia. rewrite <- Zle_Qle, <- Zlt_Qlt.
  split; [exact H1 | exact H2].
Qed.

(** [ilog2] brackets a positive rational between two powers of 2. *)
Lemma ilog2_spec (q : Q) :
  (0 < q)%Q -> (pow2 (ilog2 q) <= q)%Q /\ (q < pow2 (ilog2 q + 1))%Q.
Proof.
  intros Hq. destruct q as [a b]. pose proof (Qmake_pos a b Hq) as Ha.
  unfold ilog2. simpl Qnum. simpl Qden.
  set (la := Z.log2 a). set (lb := Z.log2 (Z.pos b)).
  destruct (log2_Q a Ha) as [Ha1 Ha2]. fold la in Ha1, Ha2.
  destruct (log2_Q (Z.pos b) eq_refl) as [Hb1 Hb2]. fold lb in Hb1, Hb2.
  pose proof (pow2_pos lb) as Hpb.
  assert (HB : (0 < inject_Z (Z.pos b))%Q) by lra.
  assert (Hup : (a # b < pow2 (la - lb + 1))%Q).
  { rewrite (Qmake_Qdiv a b). apply Qlt_shift_div_r; [exact HB|].
    pose proof (pow2_add (la - lb + 1) lb) as E.
    replace (la - lb + 1 + lb) with (la + 1) in E by lia.
    pose proof (pow2_pos (la - lb + 1)). nra. }
  assert (Hlo : (pow2 (la - lb - 1) <= a # b)%Q).
  { rewrite (Qmake_Qdiv a b). apply Qle_shift_div_l; [exact HB|].
    pose proof (pow2_add (la - lb - 1) (lb + 1)) as E.
    replace (la - lb - 1 + (lb + 1)) with la in E by lia.
    pose proof (pow2_pos (la - lb - 1)). nra. }
  destruct (Qle_bool (pow2 (la - lb)) (a # b)) eqn:E.
  - apply Qle_bool_iff in E. split; [exact E | exact Hup].
  - split; [exact Hlo|].
    replace (la - lb - 1 + 1) with (la - lb) by lia.
    apply Qnot_le_lt. intros H. apply Qle_bool_iff in H. congruence.
Qed.

(** Rounding to an integer moves by at most one half, and leaves
    integers alone. *)
Lemma roundTiesToEven_bounds (q : Q) :
  (q - (1 # 2) <= inject_Z (roundTiesToEven q))%Q /\
  (inject_Z (roundTiesToEven q) <= q + (1 # 2))%Q.
Proof.
  unfold roundTiesToEven.
  pose proof (Qfloor_le q) as H1. pose proof (Qlt_floor q) as H2.
  rewrite inject_Z_plus in H2. change (inject_Z 1) with 1%Q in H2.
  destruct (q - inject_Z (Qfloor q) ?= 1 # 2)%Q eqn:E.
  - apply Qeq_alt in E. destruct (Z.even (Qfloor q));
      rewrite ?inject_Z_plus; change (inject_Z 1) with 1%Q; split; lra.
  - apply Qlt_alt in E. split; lra.
  - apply Qgt_alt in E. rewrite inject_Z_plus.
    change (inject_Z 1) with 1%Q. split; lra.
Qed.

Lemma roundTiesToEven_Z (q : Q) (k : Z) :
  (q == inject_Z k)%Q -> roundTiesToEven q = k.
Proof.
  intros H. unfold roundTiesToEven.
  rewrite (Qfloor_comp _ _ H), Qfloor_Z.
  assert (E : (q - inject_Z k ?= 1 # 2)%Q = Lt).
  { apply (proj1 (Qlt_alt _ _)). lra. }
  rewrite E. reflexivity.
Qed.

Lemma fl_zero (q : Q) : (q == 0)%Q -> fl q = Finite 0.
Proof.
  intros H. unfold fl. apply Qeq_alt in H. rewrite H. reflexivity.
Qed.

Lemma pow2_le_inv (a b : Z) : (pow2 a <= pow2 b)%Q -> a <= b.
Proof.
  intros H. destruct (Z_le_gt_dec a b) as [Hl|Hl]; [exact Hl|].
  assert (b < a) as Hlt by lia. apply pow2_lt in Hlt. lra.
Qed.

(** In the normal range one rounding changes a value by at most the
    fraction [eps] of it. *)
Lemma fl_error (q : Q) :
  (pow2 (-1022) <= q)%Q -> (q <= pow2 1023)%Q ->
  exists r, fl q = Finite r /\
            (q - q * eps <= r)%Q /\ (r <= q + q * eps)%Q.
Proof.
  intros Hlo Hhi.
  assert (Hq : (0 < q)%Q) by (pose proof (pow2_pos (-1022)); lra).
  destruct (ilog2_spec q Hq) as [L U].
  assert (Hl1 : -1022 < ilog2 q + 1) by (apply pow2_lt_inv; lra).
  assert (Hl2 : ilog2 q <= 1023) by (apply pow2_le_inv; lra).
  unfold fl. apply Qgt_alt in Hq. rewrite Hq. apply Qgt_alt in Hq.
  unfold roundPositive.
  rewrite Z.max_l by lia.
  set (e := ilog2 q - 52).
  pose proof (pow2_pos e) as HP.
  pose proof (roundTiesToEven_bounds (q / pow2 e)) as [M1 M2].
  set (m := inject_Z (roundTiesToEven (q / pow2 e))) in *.
  assert (Ex : (q / pow2 e * pow2 e == q)%Q) by (field; lra).
  set (x := (q / pow2 e)%Q) in *.
  set (P := pow2 e) in *.
  assert (El : (pow2 (ilog2 q) == pow2 e * pow2 52)%Q).
  { rewrite <- pow2_add. unfold e.
    replace (ilog2 q - 52 + 52) with (ilog2 q) by lia. reflexivity. }
  assert (E52 : (pow2 52 == 4503599627370496)%Q) by reflexivity.
  rewrite E52 in El. fold P in El.
  clearbody m x P.
  assert (R1 : (q - q * eps <= m * P)%Q).
  { apply (Qmult_le_compat_r _ _ P) in M1; [|lra].
    unfold eps. lra. }
  assert (R2 : (m * P <= q + q * eps)%Q).
  { apply (Qmult_le_compat_r _ _ P) in M2; [|lra].
    unfold eps. lra. }
  assert (E1024 : (pow2 1024 == pow2 1023 * 2)%Q).
  { change 1024 with (1023 + 1). rewrite pow2_add. reflexivity. }
  destruct (Qle_bool (pow2 1024) (m * P)) eqn:Ov.
  - apply Qle_bool_iff in Ov. exfalso.
    pose proof (pow2_pos 1023). unfold eps in R2. lra.
  - exists (m * P)%Q. auto.
Qed.

Lemma inject_Z_pos (z : Z) : 0 < z -> (0 < inject_Z z)%Q.
Proof. intros H. change 0%Q with (inject_Z 0). rewrite <- Zlt_Qlt. exact H. Qed.

Lemma inject_Z_nonneg (z : Z) : 0 <= z -> (0 <= inject_Z z)%Q.
Proof. intros H. change 0%Q with (inject_Z 0). rewrite <- Zle_Qle. exact H. Qed.

(** A value with a significand of at most 53 bits is its own rounding. *)
Lemma fl_exact (q : Q) (m e' : Z) :
  (q == inject_Z m * pow2 e')%Q ->
  0 < m < 2 ^ 53 -> -1074 <= e' -> (q < pow2 1024)%Q ->
  exists r, fl q = Finite r /\ (r == q)%Q.
Proof.
  intros Eq Hm He Hov.
  pose proof (pow2_pos e') as HP'.
  assert (Hm1 : (0 < inject_Z m)%Q) by (apply inject_Z_pos; lia).
  assert (Hm2 : (inject_Z m < pow2 53)%Q).
  { rewrite pow2_Z by lia. rewrite <- Zlt_Qlt. lia. }
  assert (Hq : (0 < q)%Q) by (rewrite Eq; apply Qmult_lt_0_compat; lra).
  destruct (ilog2_spec q Hq) as [L U].
  assert (Hl : ilog2 q < 53 + e').
  { apply pow2_lt_inv. rewrite pow2_add.
    apply Qle_lt_trans with q; [exact L|].
    rewrite Eq. apply Qmult_lt_compat_r; lra. }
  unfold fl. apply Qgt_alt in Hq. rewrite Hq. apply Qgt_alt in Hq.
  unfold roundPositive.
  set (e := Z.max (ilog2 q - 52) (-1074)).
  assert (Hd : 0 <= e' - e) by (unfold e; lia).
  pose proof (pow2_pos e) as HP.
  assert (Ex : (q / pow2 e == inject_Z (m * 2 ^ (e' - e)))%Q).
  { rewrite inject_Z_mult, <- pow2_Z by exact Hd.
    unfold Z.sub at 1. rewrite pow2_add. unfold pow2 at 3.
    rewrite Qpower_opp. fold (pow2 e). rewrite Eq. field. lra. }
  rewrite (roundTiesToEven_Z _ _ Ex).
  assert (Er : (inject_Z (m * 2 ^ (e' - e)) * pow2 e == q)%Q).
  { rewrite <- Ex. field. lra. }
  destruct (Qle_bool (pow2 1024) (inject_Z (m * 2 ^ (e' - e)) * pow2 e)) eqn:Ov.
  - apply Qle_bool_iff in Ov. exfalso. lra.
  - eexists. split; [reflexivity | exact Er].
Qed.

Lemma pow2_53_1024 : (pow2 53 < pow2 1024)%Q.
Proof. apply pow2_lt. lia. Qed.

(** Integers below 2^53 are computed exactly. *)
Lemma fl_int (q : Q) (z : Z) :
  (q == inject_Z z)%Q -> 0 <= z < 2 ^ 53 ->
  exists r, fl q = Finite r /\ (r == inject_Z z)%Q.
Proof.
  intros Eq Hz. destruct (Z.eq_dec z 0) as [->|Hnz].
  - exists 0%Q. split; [apply fl_zero; exact Eq | reflexivity].
  - destruct (fl_exact q z 0) as [r [Hr Er]].
    + rewrite Eq. change (pow2 0) with 1%Q. ring.
    + lia.
    + lia.
    + pose proof pow2_53_1024. rewrite Eq.
      apply Qlt_trans with (pow2 53); [|assumption].
      rewrite pow2_Z by lia. rewrite <- Zlt_Qlt. lia.
    + exists r. split; [exact Hr|]. rewrite Er. exact Eq.
Qed.

(** So are the odd multiples of one half below 2^52. *)
Lemma fl_half (q : Q) (z : Z) :
  (q == inject_Z z * (1 # 2))%Q -> 0 < z < 2 ^ 53 ->
  exists r, fl q = Finite r /\ (r == q)%Q.
Proof.
  intros Eq Hz. apply (fl_exact q z (-1)).
  - rewrite Eq. reflexivity.
  - exact Hz.
  - lia.
  - pose proof pow2_53_1024. rewrite Eq.
    apply Qlt_trans with (pow2 53); [|assumption].
    assert ((inject_Z z < pow2 53)%Q).
    { rewrite pow2_Z by lia. rewrite <- Zlt_Qlt. lia. }
    assert ((0 < inject_Z z)%Q) by (apply inject_Z_pos; lia).
    lra.
Qed.

Lemma fl_error_mid (q : Q) :
  (1 # 18446744073709551616 <= q)%Q -> (q <= 18446744073709551616)%Q ->
  exists r, fl q = Finite r /\
            (q - q * eps <= r)%Q /\ (r <= q + q * eps)%Q.
Proof.
  intros Hlo Hhi. apply fl_error.
  - apply Qle_trans with (pow2 (-64)); [apply pow2_le; lia|].
    assert (E : (pow2 (-64) == 1 # 18446744073709551616)%Q) by reflexivity.
    rewrite E. exact Hlo.
  - apply Qle_trans with (pow2 64); [|apply pow2_le; lia].
    assert (E : (pow2 64 == 18446744073709551616)%Q) by reflexivity.
    rewrite E. exact Hhi.
Qed.

Lemma fdiv_Finite (a b : Q) :
  ~ (b == 0)%Q -> fdiv (Finite a) (Finite b) = fl (a / b).
Proof.
  intros H. unfold fdiv. destruct (Qeq_bool b 0) eqn:E; [|reflexivity].
  apply Qeq_bool_iff in E. contradiction.
Qed.

Lemma Qfloor_unique (x : Q) (k : Z) :
  (inject_Z k <= x)%Q -> (x < inject_Z k + 1)%Q -> Qfloor x = k.
Proof.
  intros H1 H2.
  pose proof (Qfloor_le x) as F1. pose proof (Qlt_floor x) as F2.
  rewrite inject_Z_plus in F2. change (inject_Z 1) with 1%Q in F2.
  assert (A : (inject_Z (Qfloor x) < inject_Z (k + 1))%Q).
  { rewrite inject_Z_plus. change (inject_Z 1) with 1%Q. lra. }
  assert (B : (inject_Z k < inject_Z (Qfloor x + 1))%Q).
  { rewrite inject_Z_plus. change (inject_Z 1) with 1%Q. lra. }
  rewrite <- Zlt_Qlt in A, B. lia.
Qed.

Lemma Qfloor_lower (x : Q) (k : Z) : (inject_Z k <= x)%Q -> k <= Qfloor x.
Proof.
  intros H. apply Qfloor_resp_le in H. rewrite Qfloor_Z in H. exact H.
Qed.

Lemma Qfloor_upper (x : Q) (k : Z) : (x < inject_Z k + 1)%Q -> Qfloor x <= k.
Proof.
  intros H. pose proof (Qfloor_le x) as F1.
  assert (A : (inject_Z (Qfloor x) < inject_Z (k + 1))%Q).
  { rewrite inject_Z_plus. change (inject_Z 1) with 1%Q. lra. }
  rewrite <- Zlt_Qlt in A. lia.
Qed.

(** [Math.round] of an approximation [r] of [v]: when [v + 1/2] is at
    least [w] below the next integer and [r] is within [w] of [v], the
    result is the rounding of [v] or one less, and it is the rounding of
    [v] when [v + 1/2] is also at least [w] above the integer below. *)
Lemma round_stable (v r w : Q) (E : Z) :
  (inject_Z E <= v + (1 # 2))%Q ->
  (v + (1 # 2) <= inject_Z E + 1 - w)%Q ->
  (v - w < r)%Q -> (r < v + w)%Q ->
  E - 1 <= Qfloor (r + (1 # 2)) <= E /\
  ((inject_Z E + w <= v + (1 # 2))%Q -> Qfloor (r + (1 # 2)) = E).
Proof.
  intros H1 H2 H3 H4. split; [split|].
  - apply Qfloor_lower. unfold Z.sub. rewrite inject_Z_plus, inject_Z_opp.
    change (inject_Z 1) with 1%Q. lra.
  - apply Qfloor_upper. lra.
  - intros H5. apply Qfloor_unique; lra.
Qed.

(** The exact rounding [E] of [a / d] to the nearest integer, halves
    upwards, and how far [a / d + 1/2] is from the integers around it. *)
Lemma half_up_margins (a d : Z) :
  0 < d ->
  let E := (2 * a + d) / (2 * d) in
  let v := (inject_Z a / inject_Z d)%Q in
  let w := (1 / (2 * inject_Z d))%Q in
  (0 < w)%Q /\
  (inject_Z E <= v + (1 # 2))%Q /\
  (v + (1 # 2) <= inject_Z E + 1 - w)%Q /\
  ((2 * a + d) mod (2 * d) <> 0 -> (inject_Z E + w <= v + (1 # 2))%Q) /\
  ((2 * a + d) mod (2 * d) = 0 -> (v + (1 # 2) == inject_Z E)%Q).
Proof.
  intros Hd E v w.
  assert (HD : (0 < inject_Z d)%Q) by (apply inject_Z_pos; exact Hd).
  pose proof (Z.div_mod (2 * a + d) (2 * d) ltac:(lia)) as Hdm.
  pose proof (Z.mod_pos_bound (2 * a + d) (2 * d) ltac:(lia)) as Hm.
  fold E in Hdm. set (m := (2 * a + d) mod (2 * d)) in *.
  assert (Ev : (v + (1 # 2) == inject_Z E + inject_Z m * w)%Q).
  { apply (f_equal inject_Z) in Hdm.
    rewrite !inject_Z_plus, !inject_Z_mult in Hdm.
    change (inject_Z 2) with 2%Q in Hdm.
    unfold v, w. field_simplify_eq; [|lra].
    rewrite <- Hdm. ring. }
  assert (Hw : (0 < w)%Q).
  { unfold w. apply Qlt_shift_div_l; lra. }
  assert (Ew : (2 * inject_Z d * w == 1)%Q) by (unfold w; field; lra).
  assert (M0 : (0 <= inject_Z m)%Q) by (apply inject_Z_nonneg; lia).
  assert (M1 : (inject_Z m <= 2 * inject_Z d - 1)%Q).
  { assert (m <= 2 * d - 1) as H by lia. rewrite Zle_Qle in H.
    unfold Z.sub in H. rewrite inject_Z_plus, inject_Z_mult, inject_Z_opp in H.
    exact H. }
  clearbody v w m E.
  split; [exact Hw|]. split; [|split; [|split]].
  - assert ((0 <= inject_Z m * w)%Q) by (apply Qmult_le_0_compat; lra). lra.
  - assert ((inject_Z m * w <= (2 * inject_Z d - 1) * w)%Q)
      by (apply Qmult_le_compat_r; lra).
    lra.
  - intros Hnz.
    assert (H1 : (1 <= inject_Z m)%Q).
    { assert (1 <= m) as H by lia. rewrite Zle_Qle in H. exact H. }
    assert ((1 * w <= inject_Z m * w)%Q) by (apply Qmult_le_compat_r; lra).
    lra.
  - intros Hz. rewrite Ev, Hz. change (inject_Z 0) with 0%Q. ring.
Qed.

Lemma eps_val : (eps == 1 # 9007199254740992)%Q.
Proof. reflexivity. Qed.

(** The completion rate computed from the two counts. *)
Lemma rate_of_counts (c n : Z) :
  0 <= c <= n -> 0 < n < 2 ^ 32 ->
  exists k,
    round (fmul (fdiv (ofZ c) (ofZ n)) (ofZ 100)) = ofZ k /\
    (2 * (100 * c) + n) / (2 * n) - 1 <= k <= (2 * (100 * c) + n) / (2 * n) /\
    ((2 * (100 * c) + n) mod (2 * n) <> 0 ->
     k = (2 * (100 * c) + n) / (2 * n)).
Proof.
  intros Hc Hn.
  assert (HN : (0 < inject_Z n)%Q) by (apply inject_Z_pos; lia).
  assert (HN2 : (inject_Z n < 4294967296)%Q).
  { change 4294967296%Q with (inject_Z (2 ^ 32)). rewrite <- Zlt_Qlt. lia. }
  unfold ofZ. rewrite fdiv_Finite by lra.
  destruct (Z.eq_dec c 0) as [->|Hc0].
  - rewrite (fl_zero (inject_Z 0 / inject_Z n)) by (field; lra).
    unfold fmul. rewrite (fl_zero (0 * inject_Z 100)) by reflexivity.
    exists 0. split; [reflexivity|].
    replace (2 * (100 * 0) + n) with n by lia.
    rewrite Z.div_small by lia. rewrite Z.mod_small by lia. lia.
  - assert (HC : (1 <= inject_Z c)%Q).
    { change 1%Q with (inject_Z 1). rewrite <- Zle_Qle. lia. }
    assert (HCN : (inject_Z c <= inject_Z n)%Q) by (rewrite <- Zle_Qle; lia).
    set (q1 := (inject_Z c / inject_Z n)%Q).
    assert (Q1lo : (1 # 4294967296 <= q1)%Q).
    { unfold q1. apply Qle_shift_div_l; [exact HN | lra]. }
    assert (Q1hi : (q1 <= 1)%Q).
    { unfold q1. apply Qle_shift_div_r; [exact HN | lra]. }
    destruct (fl_error_mid q1) as [r1 [E1 [R1lo R1hi]]]; [lra | lra |].
    rewrite E1. unfold fmul. change (inject_Z 100) with 100%Q.
    rewrite eps_val in R1lo, R1hi.
    destruct (fl_error_mid (r1 * 100)) as [r2 [E2 [R2lo R2hi]]]; [lra | lra |].
    rewrite E2. rewrite eps_val in R2lo, R2hi. unfold round.
    exists (Qfloor (r2 + (1 # 2))). split; [reflexivity|].
    pose proof (half_up_margins (100 * c) n ltac:(lia)) as M.
    cbv zeta in M. destruct M as (Hw & M1 & M2 & M3 & M4).
    set (E := (2 * (100 * c) + n) / (2 * n)) in *.
    set (w := (1 / (2 * inject_Z n))%Q) in *.
    assert (Ev : (inject_Z (100 * c) / inject_Z n == 100 * q1)%Q).
    { unfold q1. rewrite inject_Z_mult. change (inject_Z 100) with 100%Q.
      field. lra. }
    rewrite Ev in M1, M2, M3, M4.
    assert (Wlo : (1 # 8589934592 < w)%Q).
    { unfold w. apply Qlt_shift_div_l; lra. }
    clearbody q1 w E.
    destruct (round_stable (100 * q1) r2 w E M1 M2) as [B1 B2]; [lra | lra |].
    split; [exact B1|]. intros Hnz. apply B2. apply M3. exact Hnz.
Qed.

(** ** The average completion time *)

Lemma totalDuration_nonneg (l : list Todo) :
  Forall (fun t => 0 <= duration t) l -> 0 <= totalDuration l.
Proof.
  induction 1 as [|t l Ht _ IH]; simpl; lia.
Qed.

(** One step of [reduce] adds the duration exactly as long as the sum
    stays below 2^53. *)
Lemma add_duration_exact (t : Todo) (acc : Q) (s : Z) :
  timed t = true -> 0 <= duration t ->
  (acc == inject_Z s)%Q -> 0 <= s -> s + duration t < 2 ^ 53 ->
  exists a,
    fadd (Finite acc)
      (fsub (ofOption (Todo.completedAt t)) (ofZ (Todo.createdAt t)))
    = Finite a /\
    (a == inject_Z (s + duration t))%Q.
Proof.
  unfold timed, duration. intros Ht Hd Hacc Hs Hb.
  apply andb_true_iff in Ht. destruct Ht as [_ Ht].
  destruct (Todo.completedAt t) as [ca|]; [|discriminate].
  destruct (fl_int (inject_Z ca + - inject_Z (Todo.createdAt t))
              (ca - Todo.createdAt t)) as [d [Ed Hd']].
  { unfold Z.sub. rewrite inject_Z_plus, inject_Z_opp. reflexivity. }
  { lia. }
  destruct (fl_int (acc + d) (s + (ca - Todo.createdAt t))) as [a [Ea Ha]].
  { rewrite inject_Z_plus, Hacc, Hd'. reflexivity. }
  { lia. }
  exists a. split; [|exact Ha].
  change (fl (acc + d) = Finite a) in Ea.
  change (fsub (ofOption (Some ca)) (ofZ (Todo.createdAt t)))
    with (fl (inject_Z ca + - inject_Z (Todo.createdAt t))).
  rewrite Ed. exact Ea.
Qed.

(** The sum accumulated by [reduce] is exact as long as it stays below
    2^53. *)
Lemma total_exact (l : list Todo) :
  forall (acc : Q) (s : Z),
    (acc == inject_Z s)%Q -> 0 <= s ->
    Forall (fun t => timed t = true) l ->
    Forall (fun t => 0 <= duration t) l ->
    s + totalDuration l < 2 ^ 53 ->
    exists r,
      fold_left
        (fun sum t =>
           fadd sum (fsub (ofOption (Todo.completedAt t))
                          (ofZ (Todo.createdAt t))))
        l (Finite acc) = Finite r /\
      (r == inject_Z (s + totalDuration l))%Q.
Proof.
  induction l as [|t l IH]; intros acc s Hacc Hs Ht Hd Hb.
  - exists acc. split; [reflexivity|].
    cbn [totalDuration]. rewrite Z.add_0_r. exact Hacc.
  - inversion Ht as [|? ? Ht1 Ht2]; subst.
    inversion Hd as [|? ? Hd1 Hd2]; subst.
    pose proof (totalDuration_nonneg l Hd2) as Hl.
    cbn [totalDuration] in Hb |- *. cbn [fold_left].
    destruct (add_duration_exact t acc s Ht1 Hd1 Hacc Hs ltac:(lia))
      as [a [Ea Ha]].
    rewrite Ea.
    destruct (IH a (s + duration t) Ha ltac:(lia) Ht2 Hd2 ltac:(lia))
      as [r [Er Hr]].
    exists r. split; [exact Er|]. rewrite Hr, Z.add_assoc. reflexivity.
Qed.

Lemma hour_in_ms :
  exists h, fmul (fmul (ofZ 1000) (ofZ 60)) (ofZ 60) = Finite h /\
            (h == 3600000)%Q.
Proof.
  eexists. split; [vm_compute; reflexivity | reflexivity].
Qed.

(** The average computed from an exact total. *)
Lemma avg_of_total (r h : Q) (T len : Z) :
  (r == inject_Z T)%Q -> (h == 3600000)%Q ->
  0 <= T < 2 ^ 50 -> 0 < len < 2 ^ 32 ->
  round (fdiv (fdiv (Finite r) (ofZ len)) (Finite h)) =
  ofZ ((2 * T + len * 3600000) / (2 * (len * 3600000))).
Proof.
  intros Hr Hh HT Hlen.
  assert (HL : (0 < inject_Z len)%Q) by (apply inject_Z_pos; lia).
  assert (HL2 : (inject_Z len < 4294967296)%Q).
  { change 4294967296%Q with (inject_Z (2 ^ 32)). rewrite <- Zlt_Qlt. lia. }
  assert (HT2 : (inject_Z T < 1125899906842624)%Q).
  { change 1125899906842624%Q with (inject_Z (2 ^ 50)).
    rewrite <- Zlt_Qlt. lia. }
  set (D := len * 3600000).
  assert (HD : 0 < D) by (unfold D; lia).
  assert (ED : (inject_Z D == inject_Z len * 3600000)%Q).
  { unfold D. rewrite inject_Z_mult. reflexivity. }
  unfold ofZ at 1. rewrite fdiv_Finite by lra.
  destruct (Z.eq_dec T 0) as [->|HT0].
  - rewrite (fl_zero (r / inject_Z len)) by (rewrite Hr; field; lra).
    rewrite fdiv_Finite by lra.
    rewrite (fl_zero (0 / h)) by (field; lra).
    replace (2 * 0 + D) with D by lia. rewrite Z.div_small by lia.
    reflexivity.
  - pose proof (half_up_margins T D HD) as M.
    cbv zeta in M. destruct M as (Hw & M1 & M2 & M3 & M4).
    set (E := (2 * T + D) / (2 * D)) in *.
    destruct (Z.eq_dec ((2 * T + D) mod (2 * D)) 0) as [Hz|Hnz].
    + (* the exact quotient is a half: both divisions are exact *)
      pose proof (Z.div_mod (2 * T + D) (2 * D) ltac:(lia)) as Hdm.
      fold E in Hdm. rewrite Hz in Hdm.
      assert (HE : 0 < 2 * E - 1) by nia.
      assert (HTE : T = len * (1800000 * (2 * E - 1))) by (unfold D in Hdm; lia).
      destruct (fl_int (r / inject_Z len) (1800000 * (2 * E - 1)))
        as [r1 [E1 R1]].
      { rewrite Hr, HTE, inject_Z_mult. field. lra. }
      { nia. }
      rewrite E1, fdiv_Finite by lra.
      destruct (fl_half (r1 / h) (2 * E - 1)) as [r2 [E2 R2]].
      { rewrite R1, Hh, inject_Z_mult.
        change (inject_Z 1800000) with 1800000%Q. field. }
      { nia. }
      rewrite E2. unfold round, ofZ. f_equal. f_equal.
      assert (Hval : (r2 + (1 # 2) == inject_Z E)%Q).
      { rewrite R2, R1, Hh, inject_Z_mult.
        unfold Z.sub. rewrite inject_Z_plus, inject_Z_mult, inject_Z_opp.
        change (inject_Z 1800000) with 1800000%Q.
        change (inject_Z 2) with 2%Q. change (inject_Z 1) with 1%Q.
        field. }
      apply Qfloor_unique; lra.
    + (* otherwise the two rounding errors stay inside the margin *)
      assert (HT1 : (1 <= inject_Z T)%Q).
      { change 1%Q with (inject_Z 1). rewrite <- Zle_Qle. lia. }
      set (q1 := (r / inject_Z len)%Q).
      assert (Eq1 : (q1 * inject_Z len == inject_Z T)%Q).
      { unfold q1. rewrite Hr. field. lra. }
      assert (Q1lo : (1 # 4294967296 <= q1)%Q).
      { unfold q1. apply Qle_shift_div_l; [exact HL | lra]. }
      assert (Q1hi : (q1 <= inject_Z T)%Q).
      { unfold q1. apply Qle_shift_div_r; [exact HL|].
        assert ((inject_Z T * 1 <= inject_Z T * inject_Z len)%Q).
        { apply Qmult_le_l; [lra|].
          change 1%Q with (inject_Z 1). rewrite <- Zle_Qle. lia. }
        lra. }
      destruct (fl_error_mid q1) as [r1 [E1 [R1lo R1hi]]]; [lra | lra |].
      rewrite E1, fdiv_Finite by lra.
      rewrite eps_val in R1lo, R1hi.
      set (q2 := (r1 / h)%Q).
      assert (Eq2 : (q2 * 3600000 == r1)%Q).
      { unfold q2. rewrite Hh. field. }
      destruct (fl_error_mid q2) as [r2 [E2 [R2lo R2hi]]]; [lra | lra |].
      rewrite E2. rewrite eps_val in R2lo, R2hi.
      unfold round, ofZ. f_equal. f_equal.
      set (w := (1 / (2 * inject_Z D))%Q) in *.
      set (v := (inject_Z T / inject_Z D)%Q) in *.
      assert (Ev : (v * 3600000 == q1)%Q).
      { unfold v, q1. rewrite Hr, ED. field. lra. }
      assert (Evw : (v == 2 * (inject_Z T * w))%Q).
      { unfold v, w. rewrite ED. field. lra. }
      assert (Hvw : (inject_Z T * w < 1125899906842624 * w)%Q).
      { apply Qmult_lt_compat_r; lra. }
      clearbody q1 q2 v w E.
      destruct (round_stable v r2 w E M1 M2) as [_ B2]; [lra | lra |].
      apply B2. apply M3. exact Hnz.
Qed.

(** ** The statistics *)

Lemma ofZ_inj (a b : Z) : ofZ a = ofZ b -> a = b.
Proof.
  intros H.
  apply (f_equal (fun x => match x with Finite q => Qnum q | _ => 0 end)) in H.
  exact H.
Qed.

(** C7, as stated, fails: with 23 of 40 tasks completed the rate is
    57.5 percent, which rounds to 58, and the component shows 57: the
    quotient 23/40 and its product with 100 are each rounded to a
    binary64 value, and the product comes out just below 57.5. *)
Lemma rate_23_of_40 :
  ~ (forall st : TodoList.State,
       TodoList.completionRate st = ofZ (spec_completionRate st)).
Proof.
  intros H. specialize (H (collection 23 40)).
  assert (E1 : TodoList.completionRate (collection 23 40) = ofZ 57)
    by (vm_compute; reflexivity).
  assert (E2 : spec_completionRate (collection 23 40) = 58)
    by (vm_compute; reflexivity).
  rewrite E1, E2 in H. apply ofZ_inj in H. lia.
Qed.

(** The specification's average also counts a completed task whose
    completion time is the timestamp 0; the component leaves it out. *)
Example completedAt_zero_not_averaged :
  let st := TodoList.setTodos
              [ Todo.mk (JsString.lit "z") (JsString.lit "Old") true
                  (-7200000) (Some 0) None medium personal None ]
              TodoList.initialState in
  TodoList.avgCompletionTime st = ofZ 0 /\ spec_avgCompletionTime st = 2.
Proof. split; vm_compute; reflexivity. Qed.

Lemma completedCount_le (st : TodoList.State) :
  0 <= TodoList.completedCount st <= TodoList.totalTasks st.
Proof.
  unfold TodoList.completedCount, TodoList.totalTasks.
  pose proof (filter_length_le (fun t => Todo.completed t) (TodoList.todos st)).
  lia.
Qed.

Lemma completionRate_value (st : TodoList.State) :
  TodoList.totalTasks st < 2 ^ 32 ->
  exists k,
    TodoList.completionRate st = ofZ k /\
    spec_completionRate st - 1 <= k <= spec_completionRate st /\
    (~ isHalf (100 * TodoList.completedCount st) (TodoList.totalTasks st) ->
     k = spec_completionRate st).
Proof.
  intros Hn. pose proof (completedCount_le st) as Hc.
  unfold TodoList.completionRate, spec_completionRate, roundHalfUp, isHalf.
  destruct (0 <? TodoList.totalTasks st) eqn:E.
  - apply Z.ltb_lt in E.
    destruct (TodoList.totalTasks st =? 0) eqn:E0;
      [apply Z.eqb_eq in E0; lia|].
    apply rate_of_counts; lia.
  - apply Z.ltb_ge in E.
    assert (E0 : TodoList.totalTasks st = 0) by lia.
    rewrite E0. exists 0. simpl. split; [reflexivity|]. lia.
Qed.

Lemma avgCompletionTime_value (st : TodoList.State) :
  TodoList.totalTasks st < 2 ^ 32 ->
  Forall (fun t => 0 <= duration t) (filter timed (TodoList.todos st)) ->
  totalDuration (filter timed (TodoList.todos st)) < 2 ^ 50 ->
  TodoList.avgCompletionTime st = ofZ (avgHours st).
Proof.
  intros Hn Hd Ht.
  unfold TodoList.avgCompletionTime, avgHours.
  change (fun t : Todo => Todo.completed t && truthy (Todo.completedAt t))
    with timed.
  assert (Hlen : Z.of_nat (length (filter timed (TodoList.todos st))) < 2 ^ 32).
  { pose proof (filter_length_le timed (TodoList.todos st)).
    unfold TodoList.totalTasks in Hn. lia. }
  assert (Hall : Forall (fun t => timed t = true)
                   (filter timed (TodoList.todos st))).
  { apply Forall_forall. intros t H. apply filter_In in H. tauto. }
  remember (filter timed (TodoList.todos st)) as done eqn:El.
  destruct done as [|t l].
  - reflexivity.
  - cbn [length Nat.eqb].
    pose proof (totalDuration_nonneg (t :: l) Hd) as Hnn.
    destruct (total_exact (t :: l) (inject_Z 0) 0) as [r [Er Hr]];
      [reflexivity | lia | exact Hall | exact Hd | lia |].
    destruct hour_in_ms as [h [Eh Hh]].
    change (ofZ 0) with (Finite (inject_Z 0)).
    rewrite Er, Eh. unfold roundHalfUp.
    apply avg_of_total; [exact Hr | exact Hh | lia |].
    split; [|exact Hlen].
    cbn [length]. lia.
Qed.

(** C7, amended.  For a collection of fewer than 2^32 tasks:
    - the completion rate is 0 when there are no tasks; otherwise it is
      the percentage completedCount / totalTasks x 100 rounded to the
      nearest integer, halves upwards, whenever the exact percentage is
      not halfway between two integers, and it is that rounding or one
      less when it is;
    - the average completion time is taken over the completed tasks whose
      completion time is present and not 0; it is 0 when there are none,
      and otherwise, when none of them was completed before its creation
      and their durations add up to less than 2^50 ms, it is the mean
      duration divided by 3 600 000, rounded to the nearest integer,
      halves upwards.
    For four tasks of which one was completed 7 200 000 ms after its
    creation at 0 the rate is 25 and the average is 2. *)
Theorem statistics_values :
  forall st : TodoList.State,
    (TodoList.totalTasks st < 2 ^ 32 ->
     exists k,
       TodoList.completionRate st = ofZ k /\
       spec_completionRate st - 1 <= k <= spec_completionRate st /\
       (~ isHalf (100 * TodoList.completedCount st) (TodoList.totalTasks st) ->
        k = spec_completionRate st)) /\
    (TodoList.totalTasks st = 0 -> TodoList.completionRate st = ofZ 0) /\
    (TodoList.totalTasks st < 2 ^ 32 ->
     Forall (fun t => 0 <= duration t) (filter timed (TodoList.todos st)) ->
     totalDuration (filter timed (TodoList.todos st)) < 2 ^ 50 ->
     TodoList.avgCompletionTime st = ofZ (avgHours st)) /\
    (filter timed (TodoList.todos st) = [] ->
     TodoList.avgCompletionTime st = ofZ 0) /\
    TodoList.completionRate fourTasks = ofZ 25 /\
    TodoList.avgCompletionTime fourTasks = ofZ 2.
Proof.
  intros st. split; [|split; [|split; [|split; [|split]]]].
  - apply completionRate_value.
  - intros H. unfold TodoList.completionRate. rewrite H. reflexivity.
  - apply avgCompletionTime_value.
  - intros H. unfold TodoList.avgCompletionTime.
    change (fun t : Todo => Todo.completed t && truthy (Todo.completedAt t))
      with timed.
    rewrite H. reflexivity.
  - vm_compute. reflexivity.
  - vm_compute. reflexivity.
Qed.

(** Three of seven tasks completed, each after one hour. *)
Lemma statistics_values_witness :
  TodoList.totalTasks (collection 3 7) < 2 ^ 32 /\
  Forall (fun t => 0 <= duration t)
    (filter timed (TodoList.todos (collection 3 7))) /\
  totalDuration (filter timed (TodoList.todos (collection 3 7))) < 2 ^ 50 /\
  TodoList.completionRate (collection 3 7) = ofZ 43 /\
  TodoList.avgCompletionTime (collection 3 7) = ofZ 1.
Proof.
  assert (H1 : TodoList.totalTasks (collection 3 7) < 2 ^ 32)
    by (vm_compute; reflexivity).
  assert (H2 : Forall (fun t => 0 <= duration t)
                 (filter timed (TodoList.todos (collection 3 7)))).
  { repeat constructor; vm_compute; discriminate. }
  assert (H3 : totalDuration (filter timed (TodoList.todos (collection 3 7)))
               < 2 ^ 50) by (vm_compute; reflexivity).
  destruct (statistics_values (collection 3 7)) as (Hr & _ & Ha & _).
  destruct (Hr H1) as [k [Ek [_ Hk]]].
  split; [exact H1|]. split; [exact H2|]. split; [exact H3|]. split.
  - rewrite Ek, Hk; [reflexivity|].
    unfold isHalf. vm_compute. discriminate.
  - rewrite (Ha H1 H2 H3). reflexivity.
Defined.

(** * Further properties of the component *)

(** ** Trimming *)

Lemma trimStart_split (s : jsstring) :
  exists pre,
    s = pre ++ JsString.trimStart s /\
    Forall (fun c => JsString.isWhiteSpace c = true) pre.
Proof.
  induction s as [|c s IH]; simpl.
  - exists []. split; [reflexivity | constructor].
  - destruct (JsString.isWhiteSpace c) eqn:Hc.
    + destruct IH as [pre [E H]]. exists (c :: pre). split.
      * simpl. rewrite <- E. reflexivity.
      * constructor; assumption.
    + exists []. split; [reflexivity | constructor].
Qed.

Lemma trimStart_startsClean (s : jsstring) : startsClean (JsString.trimStart s).
Proof.
  destruct (JsString.trimStart s) as [|c r] eqn:E; simpl; [exact I|].
  apply (trimStart_head s r c E).
Qed.

Lemma trimStart_clean_id (s : jsstring) :
  startsClean s -> JsString.trimStart s = s.
Proof.
  destruct s as [|c s]; simpl; intros H; [reflexivity|].
  rewrite H. reflexivity.
Qed.

Lemma startsClean_prefix (a b : jsstring) :
  startsClean (a ++ b) -> startsClean a.
Proof. destruct a; simpl; auto. Qed.

(** [trim] removes white space at the two ends and nothing else, and
    leaves none there. *)
Lemma trim_split (s : jsstring) :
  exists pre post,
    s = pre ++ JsString.trim s ++ post /\
    Forall (fun c => JsString.isWhiteSpace c = true) pre /\
    Forall (fun c => JsString.isWhiteSpace c = true) post /\
    clean (JsString.trim s).
Proof.
  unfold JsString.trim, JsString.trimEnd.
  destruct (trimStart_split s) as [pre [E1 H1]].
  destruct (trimStart_split (rev (JsString.trimStart s))) as [p [E2 H2]].
  set (u := JsString.trimStart s) in *.
  set (v := JsString.trimStart (rev u)) in *.
  assert (Eu : u = rev v ++ rev p).
  { rewrite <- rev_app_distr, <- E2, rev_involutive. reflexivity. }
  exists pre, (rev p). split; [|split; [|split; [|split]]].
  - rewrite <- Eu. exact E1.
  - exact H1.
  - apply Forall_rev. exact H2.
  - apply startsClean_prefix with (rev p). rewrite <- Eu.
    apply trimStart_startsClean.
  - rewrite rev_involutive. apply trimStart_startsClean.
Qed.

Lemma trim_clean_id (s : jsstring) : clean s -> JsString.trim s = s.
Proof.
  intros [H1 H2]. unfold JsString.trim, JsString.trimEnd.
  rewrite (trimStart_clean_id s H1), (trimStart_clean_id (rev s) H2).
  apply rev_involutive.
Qed.

Lemma trim_clean (s : jsstring) : clean (JsString.trim s).
Proof.
  destruct (trim_split s) as [pre [post [_ [_ [_ H]]]]]. exact H.
Qed.

Lemma trim_idempotent (s : jsstring) :
  JsString.trim (JsString.trim s) = JsString.trim s.
Proof. apply trim_clean_id. apply trim_clean. Qed.

(** ** Adding and deleting *)

(** X1.  When [addTodo] adds a task, the text it stores is the typed text
    with white space removed at its two ends and nothing else changed:
    the typed text is the stored one between two runs of white space, and
    the stored one is not empty and has no white space at either end. *)
Theorem add_stores_trimmed_text :
  forall (uuid : jsstring) (now : Z) (st : TodoList.State),
    JsString.trim (TodoList.newTodo st) <> [] ->
    exists t pre post,
      TodoList.todos (TodoList.addTodo uuid now st) = TodoList.todos st ++ [t] /\
      TodoList.newTodo st = pre ++ Todo.text t ++ post /\
      Forall (fun c => JsString.isWhiteSpace c = true) pre /\
      Forall (fun c => JsString.isWhiteSpace c = true) post /\
      Todo.text t <> [] /\
      clean (Todo.text t).
Proof.
  intros uuid now st H.
  destruct (trim_split (TodoList.newTodo st)) as [pre [post [E [H1 [H2 H3]]]]].
  eexists. exists pre, post.
  split; [exact (addTodo_nonblank uuid now st H)|]. simpl.
  repeat split; assumption || apply H3.
Qed.

Lemma add_stores_trimmed_text_witness :
  exists t pre post,
    TodoList.todos (TodoList.addTodo (JsString.lit "id-2") 2000 breadForm) =
    TodoList.todos breadForm ++ [t] /\
    TodoList.newTodo breadForm = pre ++ Todo.text t ++ post /\
    Forall (fun c => JsString.isWhiteSpace c = true) pre /\
    Forall (fun c => JsString.isWhiteSpace c = true) post /\
    Todo.text t <> [] /\
    clean (Todo.text t).
Proof.
  apply (add_stores_trimmed_text (JsString.lit "id-2") 2000 breadForm).
  vm_compute. discriminate.
Defined.

(** X2.  Adding a task under an identifier new to the collection and
    then deleting that identifier gives back the collection as it was. *)
Theorem add_then_delete :
  forall (uuid : jsstring) (now : Z) (st : TodoList.State),
    ~ In uuid (ids (TodoList.todos st)) ->
    TodoList.todos (TodoList.deleteTodo uuid (TodoList.addTodo uuid now st)) =
    TodoList.todos st.
Proof.
  intros uuid now st Hfresh.
  destruct (JsString.trim (TodoList.newTodo st)) as [|c r] eqn:E.
  - rewrite (addTodo_blank uuid now st E). unfold TodoList.deleteTodo. simpl.
    apply filter_unknown_id. exact Hfresh.
  - unfold TodoList.deleteTodo. simpl TodoList.todos at 1.
    rewrite (addTodo_nonblank uuid now st) by (rewrite E; discriminate).
    rewrite filter_app, (filter_unknown_id uuid _ Hfresh). simpl.
    rewrite JsString_eqb_refl. simpl. apply app_nil_r.
Qed.

Lemma add_then_delete_witness :
  ~ In (JsString.lit "id-2") (ids (TodoList.todos breadForm)) /\
  TodoList.todos
    (TodoList.deleteTodo (JsString.lit "id-2")
       (TodoList.addTodo (JsString.lit "id-2") 2000 breadForm)) =
  TodoList.todos breadForm.
Proof.
  assert (H : ~ In (JsString.lit "id-2") (ids (TodoList.todos breadForm))).
  { vm_compute. intros [H | []]. discriminate. }
  split; [exact H|].
  exact (add_then_delete (JsString.lit "id-2") 2000 breadForm H).
Defined.

(** X3.  After [deleteTodo] no task carries the deleted identifier, and
    the collection holds exactly the tasks it held under another
    identifier. *)
Theorem delete_removes_id :
  forall (id : jsstring) (st : TodoList.State),
    ~ In id (ids (TodoList.todos (TodoList.deleteTodo id st))) /\
    forall t : Todo,
      In t (TodoList.todos (TodoList.deleteTodo id st)) <->
      In t (TodoList.todos st) /\ Todo.id t <> id.
Proof.
  intros id st. unfold TodoList.deleteTodo. simpl.
  assert (H : forall t : Todo,
             In t (filter (fun todo => negb (JsString.eqb (Todo.id todo) id))
                     (TodoList.todos st)) <->
             In t (TodoList.todos st) /\ Todo.id t <> id).
  { intros t. rewrite filter_In, negb_true_iff, JsString_eqb_neq. tauto. }
  split; [|exact H].
  unfold ids. intros Hin. apply in_map_iff in Hin.
  destruct Hin as [t [Ht Hin]]. apply H in Hin. tauto.
Qed.

Lemma ids_filter_NoDup (f : Todo -> bool) (l : list Todo) :
  NoDup (ids l) -> NoDup (ids (filter f l)).
Proof.
  unfold ids. induction l as [|t l IH]; simpl; intros H; [constructor|].
  inversion H as [|? ? Hn Hl]; subst.
  destruct (f t); simpl; [|apply IH; exact Hl].
  constructor; [|apply IH; exact Hl].
  intros Hin. apply Hn. apply in_map_iff in Hin.
  destruct Hin as [u [Hu Hin]]. apply filter_In in Hin.
  apply in_map_iff. exists u. tauto.
Qed.

Lemma delete_length_unique (id : jsstring) (l : list Todo) :
  NoDup (ids l) -> In id (ids l) ->
  length l =
  S (length (filter (fun todo => negb (JsString.eqb (Todo.id todo) id)) l)).
Proof.
  unfold ids. induction l as [|t l IH]; simpl; intros Hnd Hin; [contradiction|].
  inversion Hnd as [|? ? Hn Hl]; subst.
  destruct (JsString.eqb (Todo.id t) id) eqn:E; simpl.
  - apply JsString_eqb_eq in E. subst id.
    rewrite (filter_unknown_id (Todo.id t) l Hn). reflexivity.
  - apply JsString_eqb_neq in E. destruct Hin as [Hin | Hin]; [contradiction|].
    rewrite (IH Hl Hin). reflexivity.
Qed.

(** X4.  In a collection whose identifiers are pairwise distinct,
    deleting an identifier that is present removes exactly one task. *)
Theorem delete_removes_one :
  forall (id : jsstring) (st : TodoList.State),
    NoDup (ids (TodoList.todos st)) ->
    In id (ids (TodoList.todos st)) ->
    length (TodoList.todos st) =
    S (length (TodoList.todos (TodoList.deleteTodo id st))).
Proof.
  intros id st Hnd Hin. unfold TodoList.deleteTodo. simpl.
  apply delete_length_unique; assumption.
Qed.

Lemma delete_removes_one_witness :
  NoDup (ids (TodoList.todos sampleState)) /\
  In (JsString.lit "id-1") (ids (TodoList.todos sampleState)) /\
  length (TodoList.todos sampleState) =
  S (length (TodoList.todos
               (TodoList.deleteTodo (JsString.lit "id-1") sampleState))).
Proof.
  assert (H1 : NoDup (ids (TodoList.todos sampleState))).
  { vm_compute. repeat constructor.
    - intros [H | []]. discriminate.
    - intros []. }
  assert (H2 : In (JsString.lit "id-1") (ids (TodoList.todos sampleState))).
  { vm_compute. left. reflexivity. }
  split; [exact H1|]. split; [exact H2|].
  exact (delete_removes_one (JsString.lit "id-1") sampleState H1 H2).
Defined.

(** ** What the actions do to identifiers and creation times *)

Lemma ids_map_same (g : Todo -> Todo) (l : list Todo) :
  (forall t, In t l -> Todo.id (g t) = Todo.id t) -> ids (map g l) = ids l.
Proof.
  unfold ids. intros H. rewrite map_map. apply map_ext_in. exact H.
Qed.

Lemma ids_filter (id : jsstring) (l : list Todo) :
  ids (filter (fun todo => negb (JsString.eqb (Todo.id todo) id)) l) =
  filter (fun i => negb (JsString.eqb i id)) (ids l).
Proof.
  unfold ids. induction l as [|t l IH]; simpl; [reflexivity|].
  destruct (JsString.eqb (Todo.id t) id); simpl; rewrite IH; reflexivity.
Qed.

Lemma ids_update (u : Todo) (l : list Todo) :
  ids (map (fun todo => if JsString.eqb (Todo.id todo) (Todo.id u)
                        then u else todo) l) = ids l.
Proof.
  apply ids_map_same. intros t _.
  destruct (JsString.eqb (Todo.id t) (Todo.id u)) eqn:E; [|reflexivity].
  apply JsString_eqb_eq in E. symmetry. exact E.
Qed.

Lemma ids_toggle (id : jsstring) (now : Z) (l : list Todo) :
  ids (map (fun todo => if JsString.eqb (Todo.id todo) id
                        then toggled now todo else todo) l) = ids l.
Proof.
  apply ids_map_same. intros t _.
  destruct (JsString.eqb (Todo.id t) id); reflexivity.
Qed.

Lemma exec_idsStep (toLowerCase : jsstring -> jsstring)
    (a : TodoList.Action) (st : TodoList.State) :
  idsStep a (ids (TodoList.todos st))
    (ids (TodoList.todos (TodoList.exec toLowerCase a st))).
Proof.
  destruct a; simpl; try reflexivity.
  - (* AddTodo *)
    unfold TodoList.addTodo.
    destruct (JsString.truthy (JsString.trim (TodoList.newTodo st)));
      [|left; reflexivity].
    right. simpl. unfold ids. rewrite map_app. reflexivity.
  - (* ToggleTodo *)
    apply (ids_toggle id now).
  - (* DeleteTodo *)
    apply ids_filter.
  - (* OnEdit *)
    destruct (nth_error (TodoList.displayedTodos toLowerCase st) i);
      reflexivity.
  - (* HandleSave *)
    destruct (TodoList.editingTodo st) as [todo|]; [|reflexivity].
    destruct (EditTodoDialog.handleSave todo f) as [u|]; [|reflexivity].
    simpl. apply ids_update.
Qed.

(** X5.  The sequence of identifiers of the collection changes only by
    an append when a task is added and by the removal of one identifier
    when a task is deleted: toggling, saving an edit, the form, the
    filters, the dialog and a restart never add, remove or reorder
    tasks. *)
Theorem ids_change_only_by_add_and_delete :
  forall (toLowerCase : jsstring -> jsstring)
         (a : TodoList.Action) (st : TodoList.State),
    idsStep a (ids (TodoList.todos st))
      (ids (TodoList.todos (TodoList.exec toLowerCase a st))).
Proof.
  intros toLowerCase a st. apply exec_idsStep.
Qed.

Lemma exec_NoDup (toLowerCase : jsstring -> jsstring)
    (a : TodoList.Action) (st : TodoList.State) :
  NoDup (ids (TodoList.todos st)) -> freshFor a st ->
  NoDup (ids (TodoList.todos (TodoList.exec toLowerCase a st))).
Proof.
  intros Hnd Hf.
  pose proof (exec_idsStep toLowerCase a st) as H.
  destruct a; unfold idsStep in H; try (rewrite H; exact Hnd).
  - destruct H as [H | H]; rewrite H; [exact Hnd|].
    apply NoDup_snoc; [exact Hnd | exact (proj1 Hf)].
  - rewrite H. apply NoDup_filter. exact Hnd.
Qed.

Lemma run_NoDup (toLowerCase : jsstring -> jsstring)
    (acts : list TodoList.Action) :
  forall st : TodoList.State,
    NoDup (ids (TodoList.todos st)) -> freshRun toLowerCase acts st ->
    NoDup (ids (TodoList.todos (TodoList.run toLowerCase acts st))).
Proof.
  induction acts as [|a acts IH]; simpl; intros st Hnd Hf; [exact Hnd|].
  destruct Hf as [Hf Hr].
  apply IH; [apply exec_NoDup; assumption | exact Hr].
Qed.

Lemma sampleRun_fresh :
  freshRun JsString.asciiLower sampleRun TodoList.initialState.
Proof.
  simpl. repeat split; try exact I; try (intros t H; discriminate H).
  - intros [].
  - intros [H | []]. discriminate H.
Defined.

(** X6.  As long as every identifier drawn for a new task is new, the
    identifiers of the collection are pairwise distinct, whatever the
    user does. *)
Theorem ids_stay_distinct :
  forall (toLowerCase : jsstring -> jsstring) (acts : list TodoList.Action),
    freshRun toLowerCase acts TodoList.initialState ->
    NoDup (ids (TodoList.todos
                  (TodoList.run toLowerCase acts TodoList.initialState))).
Proof.
  intros toLowerCase acts H.
  apply run_NoDup; [constructor | exact H].
Qed.

Lemma ids_stay_distinct_witness :
  freshRun JsString.asciiLower sampleRun TodoList.initialState /\
  NoDup (ids (TodoList.todos sampleState)).
Proof.
  split; [exact sampleRun_fresh|].
  exact (ids_stay_distinct JsString.asciiLower sampleRun sampleRun_fresh).
Defined.

(** ** Adding a task *)

Lemma truthy_nonempty (s : jsstring) : JsString.truthy s = true -> s <> [].
Proof. destruct s; simpl; intros H; [discriminate H | discriminate]. Qed.

(** One action keeps the identifiers of the collection among those
    drawn so far and pairwise distinct, when no drawn value repeats. *)
Lemma exec_drawn (toLowerCase : jsstring -> jsstring)
    (a : TodoList.Action) (st : TodoList.State) (D : list jsstring) :
  incl (ids (TodoList.todos st)) D ->
  NoDup (ids (TodoList.todos st)) ->
  NoDup (D ++ draws toLowerCase [a] st) ->
  incl (ids (TodoList.todos (TodoList.exec toLowerCase a st)))
       (D ++ draws toLowerCase [a] st) /\
  NoDup (ids (TodoList.todos (TodoList.exec toLowerCase a st))).
Proof.
  intros Hi Hn Hd.
  pose proof (exec_idsStep toLowerCase a st) as H.
  assert (Hsame : draws toLowerCase [a] st = [] ->
                  ids (TodoList.todos (TodoList.exec toLowerCase a st)) =
                  ids (TodoList.todos st) ->
                  incl (ids (TodoList.todos (TodoList.exec toLowerCase a st)))
                       (D ++ draws toLowerCase [a] st) /\
                  NoDup (ids (TodoList.todos (TodoList.exec toLowerCase a st)))).
  { intros E1 E2. rewrite E1, E2, app_nil_r. split; assumption. }
  destruct a; unfold idsStep in H; try (apply Hsame; [reflexivity | exact H]).
  - (* AddTodo *)
    cbn [draws TodoList.exec] in *.
    destruct (JsString.truthy (JsString.trim (TodoList.newTodo st))) eqn:E.
    + apply truthy_nonempty in E.
      rewrite (addTodo_nonblank uuid now st E).
      assert (Eids : forall (l : list Todo) (t : Todo),
                 ids (l ++ [t]) = ids l ++ [Todo.id t]).
      { intros l t. unfold ids. rewrite map_app. reflexivity. }
      rewrite Eids. cbn [Todo.id app] in Hd |- *. split.
      * apply incl_app; [apply incl_appl; exact Hi|].
        apply incl_appr. apply incl_refl.
      * apply NoDup_snoc; [exact Hn|].
        intros Hu. apply Hi in Hu.
        apply NoDup_remove_2 in Hd. rewrite app_nil_r in Hd.
        contradiction.
    + unfold TodoList.addTodo. rewrite E. cbn [app].
      rewrite app_nil_r. split; assumption.
  - (* DeleteTodo *)
    cbn [draws app]. rewrite app_nil_r, H. split.
    + intros x Hx. apply filter_In in Hx. apply Hi. exact (proj1 Hx).
    + apply NoDup_filter. exact Hn.
Qed.

Lemma draws_cons (toLowerCase : jsstring -> jsstring)
    (a : TodoList.Action) (acts : list TodoList.Action) (st : TodoList.State) :
  draws toLowerCase (a :: acts) st =
  draws toLowerCase [a] st ++
  draws toLowerCase acts (TodoList.exec toLowerCase a st).
Proof.
  cbn [draws]. rewrite app_nil_r. reflexivity.
Qed.

(** The code never makes up an identifier: those of the collection are
    among the values drawn, so they are pairwise distinct when the
    generator has not repeated itself. *)
Lemma run_drawn (toLowerCase : jsstring -> jsstring)
    (acts : list TodoList.Action) :
  forall (st : TodoList.State) (D : list jsstring),
    incl (ids (TodoList.todos st)) D ->
    NoDup (ids (TodoList.todos st)) ->
    NoDup (D ++ draws toLowerCase acts st) ->
    incl (ids (TodoList.todos (TodoList.run toLowerCase acts st)))
         (D ++ draws toLowerCase acts st) /\
    NoDup (ids (TodoList.todos (TodoList.run toLowerCase acts st))).
Proof.
  induction acts as [|a acts IH]; intros st D Hi Hn Hd.
  - cbn [draws TodoList.run fold_left]. rewrite app_nil_r.
    split; assumption.
  - rewrite draws_cons, app_assoc in Hd |- *.
    assert (Hd1 : NoDup (D ++ draws toLowerCase [a] st)).
    { apply NoDup_app_remove_r in Hd. exact Hd. }
    destruct (exec_drawn toLowerCase a st D Hi Hn Hd1) as [Hi' Hn'].
    exact (IH (TodoList.exec toLowerCase a st)
              (D ++ draws toLowerCase [a] st) Hi' Hn' Hd).
Qed.

(** C3.  When the trimmed text is not empty, [addTodo] appends exactly
    one task and leaves the tasks before it as they were.  The text of
    the new task is the typed text with white space, and nothing else,
    removed at its two ends; the task is not completed, has no
    completion time, is created at the current time and carries the
    value drawn for it from [crypto.randomUUID()].  Its priority and
    category are the selections of the add form, which are "medium" and
    "personal" in the initial state and again after every add, that is,
    whenever the user has not selected anything else.  In every state
    that a run of the component leads to, that identifier is fresh and
    unique, as long as the generator has never returned a value twice:
    no task of the collection carries it, and the identifiers stay
    pairwise distinct. *)
Theorem add_appends_one_task :
  forall (uuid : jsstring) (now : Z) (st : TodoList.State),
    JsString.trim (TodoList.newTodo st) <> [] ->
    exists t pre post,
      TodoList.todos (TodoList.addTodo uuid now st) = TodoList.todos st ++ [t] /\
      TodoList.newTodo st = pre ++ Todo.text t ++ post /\
      Forall (fun c => JsString.isWhiteSpace c = true) pre /\
      Forall (fun c => JsString.isWhiteSpace c = true) post /\
      Todo.text t <> [] /\
      clean (Todo.text t) /\
      Todo.text t = JsString.trim (TodoList.newTodo st) /\
      Todo.completed t = false /\
      Todo.completedAt t = None /\
      Todo.createdAt t = now /\
      Todo.id t = uuid /\
      Todo.deadline t = TodoList.deadline st /\
      Todo.notes t = None /\
      Todo.priority t = TodoList.priority st /\
      Todo.category t = TodoList.category st /\
      TodoList.priority TodoList.initialState = medium /\
      TodoList.category TodoList.initialState = personal /\
      TodoList.priority (TodoList.addTodo uuid now st) = medium /\
      TodoList.category (TodoList.addTodo uuid now st) = personal /\
      forall (toLowerCase : jsstring -> jsstring)
             (acts : list TodoList.Action),
        st = TodoList.run toLowerCase acts TodoList.initialState ->
        NoDup (draws toLowerCase acts TodoList.initialState ++ [uuid]) ->
        ~ In (Todo.id t) (ids (TodoList.todos st)) /\
        Forall (fun u => Todo.id u <> Todo.id t) (TodoList.todos st) /\
        NoDup (ids (TodoList.todos (TodoList.addTodo uuid now st))).
Proof.
  intros uuid now st Htext.
  pose proof (addTodo_nonblank uuid now st Htext) as Hadd.
  destruct (trim_split (TodoList.newTodo st)) as [pre [post [E [H1 [H2 H3]]]]].
  eexists. exists pre, post. split; [exact Hadd|].
  cbn [Todo.text Todo.completed Todo.completedAt Todo.createdAt Todo.id
       Todo.deadline Todo.notes Todo.priority Todo.category].
  split; [exact E|]. split; [exact H1|]. split; [exact H2|].
  split; [exact Htext|]. split; [exact H3|].
  do 11 (split; [reflexivity|]).
  split.
  { unfold TodoList.addTodo.
    destruct (JsString.trim (TodoList.newTodo st)); [congruence|].
    reflexivity. }
  split.
  { unfold TodoList.addTodo.
    destruct (JsString.trim (TodoList.newTodo st)); [congruence|].
    reflexivity. }
  intros toLowerCase acts Hst Hd.
  destruct (run_drawn toLowerCase acts TodoList.initialState []
              (incl_refl _) (NoDup_nil _)
              (NoDup_app_remove_r _ _ Hd)) as [Hi Hn].
  rewrite <- Hst in Hi, Hn. cbn [app] in Hi.
  assert (Hfresh : ~ In uuid (ids (TodoList.todos st))).
  { intros Hu. apply Hi in Hu.
    apply NoDup_remove_2 in Hd. rewrite app_nil_r in Hd. contradiction. }
  split; [exact Hfresh|]. split.
  - apply Forall_forall. intros u Hu Heq. apply Hfresh.
    unfold ids. rewrite <- Heq. apply in_map. exact Hu.
  - rewrite Hadd. unfold ids. rewrite map_app. cbn [map Todo.id].
    apply NoDup_snoc; assumption.
Qed.

Lemma add_appends_one_task_witness :
  JsString.trim (TodoList.newTodo breadForm) <> [] /\
  breadForm = TodoList.run JsString.asciiLower breadRun TodoList.initialState /\
  NoDup (draws JsString.asciiLower breadRun TodoList.initialState ++
         [JsString.lit "id-2"]) /\
  exists t,
    TodoList.todos (TodoList.addTodo (JsString.lit "id-2") 2000 breadForm) =
    TodoList.todos breadForm ++ [t] /\
    Todo.text t = JsString.lit "Buy bread" /\
    Todo.id t = JsString.lit "id-2" /\
    ~ In (Todo.id t) (ids (TodoList.todos breadForm)) /\
    NoDup (ids (TodoList.todos
                  (TodoList.addTodo (JsString.lit "id-2") 2000 breadForm))).
Proof.
  assert (H1 : JsString.trim (TodoList.newTodo breadForm) <> [])
    by (vm_compute; discriminate).
  assert (H2 : breadForm =
               TodoList.run JsString.asciiLower breadRun TodoList.initialState)
    by (vm_compute; reflexivity).
  assert (H3 : NoDup (draws JsString.asciiLower breadRun TodoList.initialState
                      ++ [JsString.lit "id-2"])).
  { vm_compute. repeat constructor.
    - intros [H | []]. discriminate H.
    - intros []. }
  split; [exact H1|]. split; [exact H2|]. split; [exact H3|].
  destruct (add_appends_one_task (JsString.lit "id-2") 2000 breadForm H1)
    as [t [pre [post [Ha [_ [_ [_ [_ [_ [Ht [_ [_ [_ [Hid R]]]]]]]]]]]]]].
  destruct R as [_ [_ [_ [_ [_ [_ [_ [_ Hf]]]]]]]].
  destruct (Hf JsString.asciiLower breadRun H2 H3) as [F1 [_ F3]].
  exists t. split; [exact Ha|]. split; [rewrite Ht; vm_compute; reflexivity|].
  split; [exact Hid|]. split; [exact F1 | exact F3].
Defined.

(** ** The texts of the tasks *)

Lemma handleSave_textInv (todo u : Todo) (f : EditTodoDialog.Fields) :
  EditTodoDialog.handleSave todo f = Some u -> textInv u.
Proof.
  unfold EditTodoDialog.handleSave.
  destruct (JsString.truthy (JsString.trim (EditTodoDialog.text f))) eqn:E;
    [|discriminate].
  intros H. injection H as <-. unfold textInv. simpl.
  split; [apply truthy_nonempty; exact E|].
  split; [apply trim_clean|].
  destruct (JsString.truthy (JsString.trim (EditTodoDialog.notes f))) eqn:En;
    [|exact I].
  split; [apply truthy_nonempty; exact En | apply trim_clean].
Qed.

Lemma exec_textInv (toLowerCase : jsstring -> jsstring)
    (a : TodoList.Action) (st : TodoList.State) :
  (Forall textInv (TodoList.todos st) /\
   forall t, TodoList.editingTodo st = Some t -> textInv t) ->
  Forall textInv (TodoList.todos (TodoList.exec toLowerCase a st)) /\
  forall t, TodoList.editingTodo (TodoList.exec toLowerCase a st) = Some t ->
            textInv t.
Proof.
  intros [Hl He].
  destruct a; simpl; try (split; [exact Hl | exact He]).
  - (* AddTodo *)
    unfold TodoList.addTodo.
    destruct (JsString.truthy (JsString.trim (TodoList.newTodo st))) eqn:E;
      [|split; assumption].
    split; [|exact He]. simpl.
    apply Forall_app. split; [exact Hl|].
    constructor; [|constructor].
    unfold textInv. simpl.
    split; [apply truthy_nonempty; exact E|].
    split; [apply trim_clean | exact I].
  - (* ToggleTodo *)
    split; [|exact He]. simpl.
    apply Forall_forall. intros t Ht.
    apply in_map_iff in Ht. destruct Ht as [u [<- Hu]].
    rewrite Forall_forall in Hl. specialize (Hl u Hu).
    destruct (JsString.eqb (Todo.id u) id); exact Hl.
  - (* DeleteTodo *)
    split; [|exact He]. simpl.
    apply Forall_forall. intros t Ht. apply filter_In in Ht.
    rewrite Forall_forall in Hl. apply Hl. tauto.
  - (* OnEdit *)
    destruct (nth_error (TodoList.displayedTodos toLowerCase st) i) as [t|] eqn:Hn;
      [|split; assumption].
    split; [exact Hl|]. simpl. intros t' Ht'. injection Ht' as <-.
    apply nth_error_In in Hn. apply displayedTodos_incl in Hn.
    rewrite Forall_forall in Hl. apply Hl. exact Hn.
  - (* OnClose *)
    split; [exact Hl | discriminate].
  - (* HandleSave *)
    destruct (TodoList.editingTodo st) as [todo|] eqn:Hed;
      [|split; [assumption | intros t Ht; apply He; congruence]].
    destruct (EditTodoDialog.handleSave todo f) as [u|] eqn:Hs;
      [|split; [assumption | intros t Ht; apply He; congruence]].
    split; [|discriminate]. simpl.
    apply Forall_forall. intros t Ht.
    apply in_map_iff in Ht. destruct Ht as [v [<- Hv]].
    destruct (JsString.eqb (Todo.id v) (Todo.id u)).
    + apply (handleSave_textInv todo u f Hs).
    + rewrite Forall_forall in Hl. apply Hl. exact Hv.
  - (* Reload *)
    split; [exact Hl | discriminate].
Qed.

(** X7.  In every state the component can reach, the text of every task
    is not empty and has no white space at either end, and so are the
    notes of every task that has notes: trimming them again changes
    nothing. *)
Theorem texts_stay_trimmed :
  forall (toLowerCase : jsstring -> jsstring) (st : TodoList.State),
    TodoList.reachable toLowerCase st ->
    Forall
      (fun t =>
         textInv t /\ JsString.trim (Todo.text t) = Todo.text t)
      (TodoList.todos st).
Proof.
  intros toLowerCase st [acts ->].
  assert (H : Forall textInv
                (TodoList.todos
                   (TodoList.run toLowerCase acts TodoList.initialState)) /\
              forall t,
                TodoList.editingTodo
                  (TodoList.run toLowerCase acts TodoList.initialState) = Some t ->
                textInv t).
  { assert (H0 : Forall textInv (TodoList.todos TodoList.initialState) /\
                 forall t, TodoList.editingTodo TodoList.initialState = Some t ->
                           textInv t)
      by (split; [constructor | discriminate]).
    revert H0. generalize TodoList.initialState.
    induction acts as [|a acts IH]; simpl; intros st H0; [exact H0|].
    apply IH. apply exec_textInv. exact H0. }
  destruct H as [H _]. rewrite Forall_forall in H |- *.
  intros t Ht. specialize (H t Ht). split; [exact H|].
  apply trim_clean_id. apply H.
Qed.

Lemma texts_stay_trimmed_witness :
  TodoList.reachable JsString.asciiLower sampleState /\
  Forall
    (fun t => textInv t /\ JsString.trim (Todo.text t) = Todo.text t)
    (TodoList.todos sampleState).
Proof.
  split; [exact sampleState_reachable|].
  exact (texts_stay_trimmed JsString.asciiLower sampleState
           sampleState_reachable).
Defined.

(** ** Creation times *)

Lemma NoDup_ids_inj (l : list Todo) (a b : Todo) :
  NoDup (ids l) -> In a l -> In b l -> Todo.id a = Todo.id b -> a = b.
Proof.
  unfold ids. induction l as [|t l IH]; simpl; intros Hnd Ha Hb E;
    [contradiction|].
  inversion Hnd as [|? ? Hn Hl]; subst.
  destruct Ha as [-> | Ha], Hb as [-> | Hb].
  - reflexivity.
  - exfalso. apply Hn. rewrite E. apply in_map. exact Hb.
  - exfalso. apply Hn. rewrite <- E. apply in_map. exact Ha.
  - apply IH; assumption.
Qed.

Lemma births_map_same (g : Todo -> Todo) (l : list Todo) :
  (forall t, In t l ->
     Todo.id (g t) = Todo.id t /\ Todo.createdAt (g t) = Todo.createdAt t) ->
  births (map g l) = births l.
Proof.
  unfold births. intros H. rewrite map_map. apply map_ext_in.
  intros t Ht. destruct (H t Ht) as [-> ->]. reflexivity.
Qed.

Lemma births_filter (id : jsstring) (l : list Todo) :
  births (filter (fun todo => negb (JsString.eqb (Todo.id todo) id)) l) =
  filter (fun b => negb (JsString.eqb (fst b) id)) (births l).
Proof.
  unfold births. induction l as [|t l IH]; simpl; [reflexivity|].
  destruct (JsString.eqb (Todo.id t) id); simpl; rewrite IH; reflexivity.
Qed.

(** When the dialog holds its task as the collection has it, no action
    changes the creation time of a task. *)
Lemma exec_births (toLowerCase : jsstring -> jsstring)
    (a : TodoList.Action) (st : TodoList.State) :
  snapshotInv st ->
  birthsStep a (births (TodoList.todos st))
    (births (TodoList.todos (TodoList.exec toLowerCase a st))).
Proof.
  intros Hs.
  destruct a; simpl; try reflexivity.
  - (* AddTodo *)
    unfold TodoList.addTodo.
    destruct (JsString.truthy (JsString.trim (TodoList.newTodo st)));
      [|left; reflexivity].
    right. simpl. unfold births. rewrite map_app. reflexivity.
  - (* ToggleTodo *)
    apply births_map_same. intros t _.
    destruct (JsString.eqb (Todo.id t) id); split; reflexivity.
  - (* DeleteTodo *)
    apply births_filter.
  - (* OnEdit *)
    destruct (nth_error (TodoList.displayedTodos toLowerCase st) i);
      reflexivity.
  - (* HandleSave *)
    destruct (TodoList.editingTodo st) as [todo|] eqn:Hed; [|reflexivity].
    destruct (EditTodoDialog.handleSave todo f) as [u|] eqn:Hu; [|reflexivity].
    simpl. destruct (handleSave_fields todo u f Hu) as [Hid [_ [_ Hcr]]].
    apply births_map_same. intros t Ht.
    destruct (JsString.eqb (Todo.id t) (Todo.id u)) eqn:E;
      [|split; reflexivity].
    apply JsString_eqb_eq in E. split; [symmetry; exact E|].
    rewrite Hcr. symmetry. apply (Hs todo t Hed Ht). congruence.
Qed.

Lemma exec_snapshotInv (toLowerCase : jsstring -> jsstring)
    (a : TodoList.Action) (st : TodoList.State) :
  NoDup (ids (TodoList.todos st)) -> snapshotInv st -> freshFor a st ->
  snapshotInv (TodoList.exec toLowerCase a st).
Proof.
  intros Hnd Hs Hf.
  destruct a; simpl; try exact Hs.
  - (* AddTodo *)
    unfold TodoList.addTodo.
    destruct (JsString.truthy (JsString.trim (TodoList.newTodo st)));
      [|exact Hs].
    intros t u Hed Hin E. simpl in Hed, Hin. apply in_app_iff in Hin.
    destruct Hin as [Hin | [<- | []]]; [apply (Hs t u Hed Hin E)|].
    simpl in E. exfalso. apply (proj2 Hf t Hed). symmetry. exact E.
  - (* ToggleTodo *)
    intros t u Hed Hin E. simpl in Hed, Hin. apply in_map_iff in Hin.
    destruct Hin as [v [<- Hv]].
    destruct (JsString.eqb (Todo.id v) id); apply (Hs t v Hed Hv); exact E.
  - (* DeleteTodo *)
    intros t u Hed Hin E. simpl in Hed, Hin. apply filter_In in Hin.
    apply (Hs t u Hed (proj1 Hin) E).
  - (* OnEdit *)
    destruct (nth_error (TodoList.displayedTodos toLowerCase st) i) as [t0|] eqn:Hn;
      [|exact Hs].
    intros t u Hed Hin E. simpl in Hed, Hin. injection Hed as <-.
    apply nth_error_In in Hn. apply displayedTodos_incl in Hn.
    rewrite (NoDup_ids_inj _ u t0 Hnd Hin Hn E). reflexivity.
  - (* OnClose *)
    intros t u Hed. discriminate Hed.
  - (* HandleSave *)
    destruct (TodoList.editingTodo st) as [todo|]; [|exact Hs].
    destruct (EditTodoDialog.handleSave todo f) as [u0|]; [|exact Hs].
    intros t u Hed. discriminate Hed.
  - (* Reload *)
    intros t u Hed. discriminate Hed.
Qed.

Lemma run_snapshotInv (toLowerCase : jsstring -> jsstring)
    (acts : list TodoList.Action) :
  forall st : TodoList.State,
    NoDup (ids (TodoList.todos st)) -> snapshotInv st ->
    freshRun toLowerCase acts st ->
    snapshotInv (TodoList.run toLowerCase acts st).
Proof.
  induction acts as [|a acts IH]; simpl; intros st Hnd Hs Hf; [exact Hs|].
  destruct Hf as [Hf Hr].
  apply IH; [apply exec_NoDup | apply exec_snapshotInv | exact Hr]; assumption.
Qed.

(** X8.  As long as every identifier drawn is new, no action ever changes
    the creation time of a task: after any run, whatever the next action
    is, the list of identifiers with their creation times changes only by
    the entry appended when a task is added and by the removal of the
    entries of a deleted identifier. *)
Theorem createdAt_never_changes :
  forall (toLowerCase : jsstring -> jsstring)
         (acts : list TodoList.Action) (a : TodoList.Action),
    freshRun toLowerCase acts TodoList.initialState ->
    birthsStep a
      (births (TodoList.todos
                 (TodoList.run toLowerCase acts TodoList.initialState)))
      (births (TodoList.todos
                 (TodoList.exec toLowerCase a
                    (TodoList.run toLowerCase acts TodoList.initialState)))).
Proof.
  intros toLowerCase acts a Hf. apply exec_births.
  apply run_snapshotInv; [constructor | | exact Hf].
  intros t u H. discriminate H.
Qed.

Lemma createdAt_never_changes_witness :
  freshRun JsString.asciiLower sampleRun TodoList.initialState /\
  births (TodoList.todos
            (TodoList.exec JsString.asciiLower
               (TodoList.HandleSave editedFields) sampleState)) =
  births (TodoList.todos sampleState).
Proof.
  split; [exact sampleRun_fresh|].
  exact (createdAt_never_changes JsString.asciiLower sampleRun
           (TodoList.HandleSave editedFields) sampleRun_fresh).
Defined.

(** ** Toggling and the counts *)

Lemma completed_count_toggle (id : jsstring) (now : Z) (t : Todo) (l : list Todo) :
  NoDup (ids l) -> In t l -> Todo.id t = id ->
  Z.of_nat
    (length
       (filter (fun u => Todo.completed u)
          (map (fun todo => if JsString.eqb (Todo.id todo) id
                            then toggled now todo else todo) l))) =
  Z.of_nat (length (filter (fun u => Todo.completed u) l)) +
  (if Todo.completed t then -1 else 1).
Proof.
  intros Hnd Hin <-. induction l as [|x l IH]; [contradiction|].
  unfold ids in Hnd. simpl in Hnd.
  inversion Hnd as [|? ? Hn Hl]; subst. fold (ids l) in Hn, Hl.
  cbn [map].
  destruct (JsString.eqb (Todo.id x) (Todo.id t)) eqn:E.
  - apply JsString_eqb_eq in E.
    assert (x = t) as ->.
    { apply (NoDup_ids_inj (x :: l)); simpl; auto. }
    rewrite (map_unknown_id (toggled now) (Todo.id t) l Hn).
    cbn [filter toggled Todo.completed].
    destruct (Todo.completed t); cbn [negb length]; lia.
  - apply JsString_eqb_neq in E.
    destruct Hin as [-> | Hin]; [congruence|].
    specialize (IH Hl Hin). cbn [filter].
    destruct (Todo.completed x); cbn [length]; lia.
Qed.

(** X9.  In a collection whose identifiers are pairwise distinct,
    toggling a task changes the number of completed tasks by exactly one,
    up for a task that was not completed and down for one that was, and
    leaves the number of tasks as it was. *)
Theorem toggle_changes_count_by_one :
  forall (st : TodoList.State) (t : Todo) (now : Z),
    NoDup (ids (TodoList.todos st)) ->
    In t (TodoList.todos st) ->
    TodoList.completedCount (TodoList.toggleTodo (Todo.id t) now st) =
    TodoList.completedCount st + (if Todo.completed t then -1 else 1) /\
    TodoList.totalTasks (TodoList.toggleTodo (Todo.id t) now st) =
    TodoList.totalTasks st.
Proof.
  intros st t now Hnd Hin. split.
  - unfold TodoList.completedCount, TodoList.toggleTodo. simpl.
    apply (completed_count_toggle (Todo.id t) now t); auto.
  - unfold TodoList.totalTasks, TodoList.toggleTodo. simpl.
    rewrite length_map. reflexivity.
Qed.

Lemma toggle_changes_count_by_one_witness :
  NoDup (ids (TodoList.todos editingState)) /\
  In callAnn (TodoList.todos editingState) /\
  TodoList.completedCount
    (TodoList.toggleTodo (Todo.id callAnn) 9000 editingState) = 2 /\
  TodoList.totalTasks
    (TodoList.toggleTodo (Todo.id callAnn) 9000 editingState) = 2.
Proof.
  assert (H1 : NoDup (ids (TodoList.todos editingState))).
  { vm_compute. repeat constructor.
    - intros [H | []]. discriminate.
    - intros []. }
  assert (H2 : In callAnn (TodoList.todos editingState)).
  { vm_compute. right. left. reflexivity. }
  split; [exact H1|]. split; [exact H2|].
  destruct (toggle_changes_count_by_one editingState callAnn 9000 H1 H2)
    as [E1 E2].
  split; [rewrite E1 | rewrite E2]; reflexivity.
Defined.

Lemma toggled_not_overdue (now toggleTime later : Z) (t : Todo) :
  TodoItem.isOverdue now t = true ->
  TodoItem.isOverdue later (toggled toggleTime t) = false.
Proof.
  unfold TodoItem.isOverdue, toggled. simpl.
  destruct (truthyVal (Todo.deadline t)) as [d|]; [|discriminate].
  rewrite andb_true_iff, negb_true_iff. intros [_ ->].
  apply andb_false_r.
Qed.

Lemma count_toggle (p : Todo -> bool) (id : jsstring) (now : Z) (t : Todo)
    (l : list Todo) :
  NoDup (ids l) -> In t l -> Todo.id t = id ->
  Z.of_nat
    (length
       (filter p
          (map (fun todo => if JsString.eqb (Todo.id todo) id
                            then toggled now todo else todo) l))) =
  Z.of_nat (length (filter p l)) +
  (if p (toggled now t) then 1 else 0) - (if p t then 1 else 0).
Proof.
  intros Hnd Hin <-. induction l as [|x l IH]; [contradiction|].
  unfold ids in Hnd. simpl in Hnd.
  inversion Hnd as [|? ? Hn Hl]; subst. fold (ids l) in Hn, Hl.
  cbn [map].
  destruct (JsString.eqb (Todo.id x) (Todo.id t)) eqn:E.
  - apply JsString_eqb_eq in E.
    assert (x = t) as ->.
    { apply (NoDup_ids_inj (x :: l)); simpl; auto. }
    rewrite (map_unknown_id (toggled now) (Todo.id t) l Hn).
    cbn [filter].
    destruct (p (toggled now t)), (p t); cbn [length]; lia.
  - apply JsString_eqb_neq in E.
    destruct Hin as [-> | Hin]; [congruence|].
    specialize (IH Hl Hin). cbn [filter].
    destruct (p x); cbn [length]; lia.
Qed.

(** X10.  In a collection whose identifiers are pairwise distinct,
    completing a task that is overdue lowers the overdue count by one,
    whatever the time of the toggle is. *)
Theorem completing_overdue_task_lowers_count :
  forall (st : TodoList.State) (t : Todo) (now toggleTime : Z),
    NoDup (ids (TodoList.todos st)) ->
    In t (TodoList.todos st) ->
    TodoItem.isOverdue now t = true ->
    TodoList.overdueCount now (TodoList.toggleTodo (Todo.id t) toggleTime st) =
    TodoList.overdueCount now st - 1.
Proof.
  intros st t now toggleTime Hnd Hin Ho.
  assert (E : TodoList.overdueCount now
                (TodoList.toggleTodo (Todo.id t) toggleTime st) =
              Z.of_nat
                (length
                   (filter (TodoItem.isOverdue now)
                      (map (fun todo =>
                              if JsString.eqb (Todo.id todo) (Todo.id t)
                              then toggled toggleTime todo else todo)
                           (TodoList.todos st))))).
  { rewrite overdueCount_counts_overdue. reflexivity. }
  rewrite E, overdueCount_counts_overdue.
  rewrite (count_toggle (TodoItem.isOverdue now) (Todo.id t) toggleTime t
             (TodoList.todos st) Hnd Hin eq_refl).
  rewrite Ho, (toggled_not_overdue now toggleTime now t Ho). lia.
Qed.

Lemma completing_overdue_task_lowers_count_witness :
  NoDup (ids (TodoList.todos fourTasks)) /\
  In (Todo.mk (JsString.lit "t3") (JsString.lit "Three") false 20 None
        (Some 500) low other None) (TodoList.todos fourTasks) /\
  TodoItem.isOverdue 600
    (Todo.mk (JsString.lit "t3") (JsString.lit "Three") false 20 None
       (Some 500) low other None) = true /\
  TodoList.overdueCount 600
    (TodoList.toggleTodo (JsString.lit "t3") 650 fourTasks) = 0.
Proof.
  assert (H1 : NoDup (ids (TodoList.todos fourTasks))).
  { vm_compute. repeat constructor; simpl; intuition discriminate. }
  assert (H2 : In (Todo.mk (JsString.lit "t3") (JsString.lit "Three") false 20
                     None (Some 500) low other None)
                  (TodoList.todos fourTasks)).
  { vm_compute. right. right. left. reflexivity. }
  split; [exact H1|]. split; [exact H2|]. split; [reflexivity|].
  exact (completing_overdue_task_lowers_count fourTasks _ 600 650 H1 H2
           eq_refl).
Defined.

(** ** The edit dialog *)

Lemma initial_fields (todo : Todo) (f : EditTodoDialog.Fields) :
  EditTodoDialog.initial todo = Some f ->
  EditTodoDialog.text f = Todo.text todo /\
  EditTodoDialog.notes f =
    match Todo.notes todo with Some n => n | None => [] end /\
  EditTodoDialog.deadline f = truthyVal (Todo.deadline todo) /\
  EditTodoDialog.priority f = Todo.priority todo /\
  EditTodoDialog.category f = Todo.category todo.
Proof.
  unfold EditTodoDialog.initial.
  destruct (truthyVal (Todo.deadline todo)) as [v|].
  - destruct (Z.abs v <=? EditTodoDialog.maxTime); [|discriminate].
    intros H. injection H as <-. repeat split.
  - intros H. injection H as <-. repeat split.
Qed.

Lemma handleSave_initial :
  forall (todo : Todo) (f : EditTodoDialog.Fields),
    textInv todo ->
    EditTodoDialog.initial todo = Some f ->
    EditTodoDialog.handleSave todo f =
    Some (Todo.mk (Todo.id todo) (Todo.text todo) (Todo.completed todo)
            (Todo.createdAt todo) (Todo.completedAt todo)
            (truthyVal (Todo.deadline todo)) (Todo.priority todo)
            (Todo.category todo) (Todo.notes todo)) /\
    (Todo.deadline todo <> Some 0 ->
     EditTodoDialog.handleSave todo f = Some todo).
Proof.
  intros todo f [Hne [Hc Hn]] Hf.
  destruct (initial_fields todo f Hf) as [Ft [Fn [Fd [Fp Fc]]]].
  assert (E : EditTodoDialog.handleSave todo f =
              Some (Todo.mk (Todo.id todo) (Todo.text todo)
                      (Todo.completed todo) (Todo.createdAt todo)
                      (Todo.completedAt todo) (truthyVal (Todo.deadline todo))
                      (Todo.priority todo) (Todo.category todo)
                      (Todo.notes todo))).
  { unfold EditTodoDialog.handleSave. rewrite Ft, Fn, Fd, Fp, Fc.
    rewrite (trim_clean_id _ Hc).
    destruct (Todo.text todo) as [|c r] eqn:Et; [congruence|]. simpl.
    destruct (Todo.notes todo) as [n|].
    - destruct Hn as [Hnn Hnc]. rewrite (trim_clean_id _ Hnc).
      destruct n; [congruence | reflexivity].
    - reflexivity. }
  split; [exact E|].
  intros Hd. rewrite E. destruct todo as [i tx c cr ca d p cat n]. simpl in *.
  destruct d as [z|]; simpl; [|reflexivity].
  destruct (z =? 0) eqn:Ez; [|reflexivity].
  apply Z.eqb_eq in Ez. congruence.
Qed.

(** X11.  Saving the dialog as it opened, without touching a field,
    hands back the task unchanged, for a task whose text and notes are
    trimmed and not empty and whose deadline is not the timestamp 0; a
    deadline of 0 is dropped by such a save.  The fields are those the
    dialog opens with, the deadline being one that a Date can hold. *)
Theorem save_untouched_dialog :
  forall (todo : Todo) (f : EditTodoDialog.Fields),
    textInv todo ->
    EditTodoDialog.initial todo = Some f ->
    EditTodoDialog.handleSave todo f =
    Some (Todo.mk (Todo.id todo) (Todo.text todo) (Todo.completed todo)
            (Todo.createdAt todo) (Todo.completedAt todo)
            (truthyVal (Todo.deadline todo)) (Todo.priority todo)
            (Todo.category todo) (Todo.notes todo)) /\
    (Todo.deadline todo <> Some 0 ->
     EditTodoDialog.handleSave todo f = Some todo).
Proof.
  exact handleSave_initial.
Qed.

Lemma notedTask_textInv : textInv notedTask.
Proof.
  unfold textInv, clean. simpl.
  repeat split; try discriminate; reflexivity.
Defined.

Lemma save_untouched_dialog_witness :
  textInv notedTask /\
  EditTodoDialog.initial notedTask =
    Some (EditTodoDialog.mkFields (JsString.lit "Call Bob")
            (JsString.lit "at noon") (Some 9000) low work) /\
  EditTodoDialog.handleSave notedTask
    (EditTodoDialog.mkFields (JsString.lit "Call Bob")
       (JsString.lit "at noon") (Some 9000) low work) =
  Some notedTask.
Proof.
  split; [exact notedTask_textInv|]. split; [reflexivity|].
  apply (proj2 (save_untouched_dialog notedTask _ notedTask_textInv eq_refl)).
  discriminate.
Defined.

(** X12.  Pressing save while the text field holds nothing but white
    space does nothing at all: the collection is as it was and the dialog
    stays open on its task. *)
Theorem save_blank_text_changes_nothing :
  forall (toLowerCase : jsstring -> jsstring) (st : TodoList.State)
         (f : EditTodoDialog.Fields),
    Forall (fun c => JsString.isWhiteSpace c = true) (EditTodoDialog.text f) ->
    TodoList.exec toLowerCase (TodoList.HandleSave f) st = st.
Proof.
  intros toLowerCase st f H. apply trim_nil_iff in H. simpl.
  destruct (TodoList.editingTodo st) as [todo|]; [|reflexivity].
  unfold EditTodoDialog.handleSave. rewrite H. reflexivity.
Qed.

Lemma save_blank_text_changes_nothing_witness :
  Forall (fun c => JsString.isWhiteSpace c = true)
    (EditTodoDialog.text
       (EditTodoDialog.mkFields (JsString.lit "  ") [] None low work)) /\
  TodoList.exec JsString.asciiLower
    (TodoList.HandleSave
       (EditTodoDialog.mkFields (JsString.lit "  ") [] None low work))
    sampleState = sampleState.
Proof.
  assert (H : Forall (fun c => JsString.isWhiteSpace c = true)
                (EditTodoDialog.text
                   (EditTodoDialog.mkFields (JsString.lit "  ") [] None low work))).
  { repeat constructor. }
  split; [exact H|].
  exact (save_blank_text_changes_nothing JsString.asciiLower sampleState _ H).
Defined.

(** X13.  A save that goes through closes the dialog and puts the saved
    task, with the trimmed text, in the place of every task that carries
    its identifier. *)
Theorem save_replaces_and_closes :
  forall (toLowerCase : jsstring -> jsstring) (st : TodoList.State)
         (todo : Todo) (f : EditTodoDialog.Fields),
    TodoList.editingTodo st = Some todo ->
    JsString.trim (EditTodoDialog.text f) <> [] ->
    exists u,
      EditTodoDialog.handleSave todo f = Some u /\
      Todo.text u = JsString.trim (EditTodoDialog.text f) /\
      Todo.deadline u = EditTodoDialog.deadline f /\
      Todo.priority u = EditTodoDialog.priority f /\
      Todo.category u = EditTodoDialog.category f /\
      TodoList.editingTodo
        (TodoList.exec toLowerCase (TodoList.HandleSave f) st) = None /\
      forall (i : nat) (t : Todo),
        nth_error (TodoList.todos st) i = Some t ->
        nth_error
          (TodoList.todos (TodoList.exec toLowerCase (TodoList.HandleSave f) st))
          i = Some (if JsString.eqb (Todo.id t) (Todo.id todo) then u else t).
Proof.
  intros toLowerCase st todo f Hed Ht. simpl. rewrite Hed.
  unfold EditTodoDialog.handleSave.
  destruct (JsString.trim (EditTodoDialog.text f)) as [|c r] eqn:E;
    [congruence|].
  cbn [JsString.truthy]. eexists. split; [reflexivity|].
  cbn [Todo.text Todo.deadline Todo.priority Todo.category].
  repeat (split; [reflexivity|]).
  intros i t Hi. rewrite updateTodo_nth, Hi. reflexivity.
Qed.

Lemma save_replaces_and_closes_witness :
  TodoList.editingTodo editingState = Some callAnn /\
  JsString.trim (EditTodoDialog.text editedFields) <> [] /\
  TodoList.editingTodo
    (TodoList.exec JsString.asciiLower (TodoList.HandleSave editedFields)
       editingState) = None.
Proof.
  assert (H1 : TodoList.editingTodo editingState = Some callAnn)
    by reflexivity.
  assert (H2 : JsString.trim (EditTodoDialog.text editedFields) <> [])
    by (vm_compute; discriminate).
  split; [exact H1|]. split; [exact H2|].
  destruct (save_replaces_and_closes JsString.asciiLower editingState callAnn
              editedFields H1 H2) as [u [_ [_ [_ [_ [_ [H _]]]]]]].
  exact H.
Defined.

(** ** The displayed list *)

Lemma filter_filter_and {A : Type} (f g : A -> bool) (l : list A) :
  filter f (filter g l) = filter (fun x => g x && f x) l.
Proof.
  induction l as [|x l IH]; [reflexivity|]. simpl.
  destruct (g x); simpl; [destruct (f x)|]; rewrite IH; reflexivity.
Qed.

Lemma filter_all {A : Type} (f : A -> bool) (l : list A) :
  (forall x, f x = true) -> filter f l = l.
Proof.
  intros H. induction l as [|x l IH]; [reflexivity|].
  simpl. rewrite H, IH. reflexivity.
Qed.

Lemma filter_none {A : Type} (f : A -> bool) (l : list A) :
  Forall (fun x => f x = false) l -> filter f l = [].
Proof.
  induction 1 as [|x l Hx _ IH]; [reflexivity|].
  simpl. rewrite Hx. exact IH.
Qed.

Lemma filter_kept {A : Type} (f : A -> bool) (l : list A) :
  Forall (fun x => f x = true) l -> filter f l = l.
Proof.
  induction 1 as [|x l Hx _ IH]; [reflexivity|].
  simpl. rewrite Hx, IH. reflexivity.
Qed.

Lemma filter_split_perm {A : Type} (c m : A -> bool) (l : list A) :
  Permutation
    (filter m (filter (fun t => negb (c t)) l) ++ filter m (filter c l))
    (filter m l).
Proof.
  induction l as [|x l IH]; [constructor|]. simpl.
  destruct (c x); simpl; destruct (m x); try exact IH.
  - apply Permutation_sym, Permutation_cons_app, Permutation_sym, IH.
  - simpl. constructor. exact IH.
Qed.

Lemma activeTodos_not_completed (toLowerCase : jsstring -> jsstring)
    (st : TodoList.State) :
  Forall (fun t => Todo.completed t = false)
    (TodoList.activeTodos toLowerCase st).
Proof.
  apply Forall_forall. intros t H.
  apply (Permutation_in _ (activeTodos_perm toLowerCase st)) in H.
  apply filter_In in H. destruct H as [H _].
  apply filter_In in H. destruct H as [_ H].
  apply negb_true_iff in H. exact H.
Qed.

Lemma completedTodos_completed (toLowerCase : jsstring -> jsstring)
    (st : TodoList.State) :
  Forall (fun t => Todo.completed t = true)
    (TodoList.completedTodos toLowerCase st).
Proof.
  apply Forall_forall. intros t H. unfold TodoList.completedTodos in H.
  apply filter_In in H. destruct H as [H _].
  apply filter_In in H. destruct H as [_ H]. exact H.
Qed.

Lemma displayedTodos_perm (toLowerCase : jsstring -> jsstring)
    (st : TodoList.State) :
  Permutation (TodoList.displayedTodos toLowerCase st)
    (filter (fun t => statusPasses st t &&
                      TodoList.matchesFilters toLowerCase st t)
            (TodoList.todos st)).
Proof.
  unfold TodoList.displayedTodos, statusPasses.
  destruct (TodoList.filterStatus st).
  - eapply Permutation_trans.
    + apply Permutation_app_tail. apply activeTodos_perm.
    + apply filter_split_perm.
  - eapply Permutation_trans; [apply activeTodos_perm|].
    rewrite filter_filter_and. apply Permutation_refl.
  - unfold TodoList.completedTodos. rewrite filter_filter_and.
    apply Permutation_refl.
Qed.

(** X14.  The displayed list holds the tasks that pass the status filter
    and the other filters, each exactly as many times as the collection
    holds it: displaying neither drops nor repeats a task. *)
Theorem displayed_is_rearrangement_of_passing :
  forall (toLowerCase : jsstring -> jsstring) (st : TodoList.State),
    Permutation (TodoList.displayedTodos toLowerCase st)
      (filter (fun t => statusPasses st t &&
                        TodoList.matchesFilters toLowerCase st t)
              (TodoList.todos st)).
Proof.
  exact displayedTodos_perm.
Qed.

(** X15.  In the displayed list no completed task stands before a task
    that is not completed, whatever the filters are. *)
Theorem displayed_active_before_completed :
  forall (toLowerCase : jsstring -> jsstring) (st : TodoList.State)
         (i j : nat) (a b : Todo),
    (i < j)%nat ->
    nth_error (TodoList.displayedTodos toLowerCase st) i = Some a ->
    nth_error (TodoList.displayedTodos toLowerCase st) j = Some b ->
    Todo.completed a = true -> Todo.completed b = true.
Proof.
  intros toLowerCase st i j a b Hij Ha Hb Hc.
  assert (S : exists l1 l2,
             TodoList.displayedTodos toLowerCase st = l1 ++ l2 /\
             Forall (fun t => Todo.completed t = false) l1 /\
             Forall (fun t => Todo.completed t = true) l2).
  { unfold TodoList.displayedTodos.
    destruct (TodoList.filterStatus st).
    - exists (TodoList.activeTodos toLowerCase st),
             (TodoList.completedTodos toLowerCase st).
      split; [reflexivity|].
      split; [apply activeTodos_not_completed | apply completedTodos_completed].
    - exists (TodoList.activeTodos toLowerCase st), [].
      split; [symmetry; apply app_nil_r|].
      split; [apply activeTodos_not_completed | constructor].
    - exists [], (TodoList.completedTodos toLowerCase st).
      split; [reflexivity|].
      split; [constructor | apply completedTodos_completed]. }
  destruct S as [l1 [l2 [E [H1 H2]]]]. rewrite E in Ha, Hb.
  rewrite Forall_forall in H1, H2.
  destruct (Nat.lt_ge_cases i (length l1)) as [Hi | Hi].
  - rewrite nth_error_app1 in Ha by exact Hi.
    apply nth_error_In in Ha. apply H1 in Ha. congruence.
  - rewrite nth_error_app2 in Hb by lia.
    apply nth_error_In in Hb. apply H2 in Hb. exact Hb.
Qed.

Lemma displayed_active_before_completed_witness :
  (0 < 1)%nat /\
  nth_error (TodoList.displayedTodos JsString.asciiLower editingState) 0 =
    nth_error (TodoList.todos editingState) 1 /\
  nth_error (TodoList.displayedTodos JsString.asciiLower editingState) 1 =
    nth_error (TodoList.todos editingState) 0 /\
  (forall a b,
     nth_error (TodoList.displayedTodos JsString.asciiLower editingState) 0
       = Some a ->
     nth_error (TodoList.displayedTodos JsString.asciiLower editingState) 1
       = Some b ->
     Todo.completed a = true -> Todo.completed b = true).
Proof.
  split; [lia|].
  split; [vm_compute; reflexivity|]. split; [vm_compute; reflexivity|].
  intros a b.
  apply (displayed_active_before_completed JsString.asciiLower editingState
           0 1 a b).
  lia.
Defined.

(** X16.  Completed tasks are never sorted: among the displayed tasks
    the completed ones are those of the collection that pass the
    filters, in the order in which the collection holds them, and there
    are none under the status filter [active]. *)
Theorem completed_keep_collection_order :
  forall (toLowerCase : jsstring -> jsstring) (st : TodoList.State),
    filter (fun t => Todo.completed t)
      (TodoList.displayedTodos toLowerCase st) =
    match TodoList.filterStatus st with
    | active => []
    | _ => filter (fun t => Todo.completed t &&
                            TodoList.matchesFilters toLowerCase st t)
             (TodoList.todos st)
    end.
Proof.
  intros toLowerCase st.
  assert (Ha : filter (fun t => Todo.completed t)
                 (TodoList.activeTodos toLowerCase st) = []).
  { apply filter_none. apply activeTodos_not_completed. }
  assert (Hc : filter (fun t => Todo.completed t)
                 (TodoList.completedTodos toLowerCase st) =
               filter (fun t => Todo.completed t &&
                                TodoList.matchesFilters toLowerCase st t)
                 (TodoList.todos st)).
  { etransitivity.
    - apply filter_kept. apply completedTodos_completed.
    - unfold TodoList.completedTodos. apply filter_filter_and. }
  unfold TodoList.displayedTodos.
  destruct (TodoList.filterStatus st).
  - rewrite filter_app, Ha, Hc. reflexivity.
  - exact Ha.
  - exact Hc.
Qed.

(** X17.  When the identifiers of the collection are pairwise distinct,
    so are those of the displayed tasks: no two rows of the list share
    their key. *)
Theorem displayed_ids_distinct :
  forall (toLowerCase : jsstring -> jsstring) (st : TodoList.State),
    NoDup (ids (TodoList.todos st)) ->
    NoDup (ids (TodoList.displayedTodos toLowerCase st)).
Proof.
  intros toLowerCase st H.
  apply (Permutation_NoDup
           (l := ids (filter (fun t => statusPasses st t &&
                                TodoList.matchesFilters toLowerCase st t)
                        (TodoList.todos st)))).
  - apply Permutation_sym. unfold ids. apply Permutation_map.
    apply displayedTodos_perm.
  - apply ids_filter_NoDup. exact H.
Qed.

Lemma displayed_ids_distinct_witness :
  NoDup (ids (TodoList.todos editingState)) /\
  NoDup (ids (TodoList.displayedTodos JsString.asciiLower editingState)).
Proof.
  assert (H : NoDup (ids (TodoList.todos editingState))).
  { vm_compute. repeat constructor.
    - intros [H | []]. discriminate.
    - intros []. }
  split; [exact H|].
  exact (displayed_ids_distinct JsString.asciiLower editingState H).
Defined.

Lemma noFilters_matches (toLowerCase : jsstring -> jsstring)
    (st : TodoList.State) (t : Todo) :
  noFilters st ->
  statusPasses st t && TodoList.matchesFilters toLowerCase st t = true.
Proof.
  intros [Hq [Hs [Hp Hc]]].
  unfold statusPasses, TodoList.matchesFilters.
  rewrite Hq, Hs, Hp, Hc. reflexivity.
Qed.

Lemma noFilters_perm (toLowerCase : jsstring -> jsstring)
    (st : TodoList.State) :
  noFilters st ->
  Permutation (TodoList.displayedTodos toLowerCase st) (TodoList.todos st).
Proof.
  intros H. eapply Permutation_trans; [apply displayedTodos_perm|].
  rewrite filter_all; [apply Permutation_refl|].
  intros t. apply noFilters_matches. exact H.
Qed.

(** X18.  After the button that clears the filters, and after a restart
    of the page, every task of the collection is displayed, exactly as
    many times as the collection holds it. *)
Theorem clear_filters_shows_every_task :
  forall (toLowerCase : jsstring -> jsstring) (st : TodoList.State),
    Permutation
      (TodoList.displayedTodos toLowerCase
         (TodoList.exec toLowerCase TodoList.ClearFilters st))
      (TodoList.todos st) /\
    Permutation
      (TodoList.displayedTodos toLowerCase
         (TodoList.exec toLowerCase TodoList.Reload st))
      (TodoList.todos st).
Proof.
  intros toLowerCase st. split.
  - apply (noFilters_perm toLowerCase
             (TodoList.exec toLowerCase TodoList.ClearFilters st)).
    repeat split.
  - apply (noFilters_perm toLowerCase
             (TodoList.exec toLowerCase TodoList.Reload st)).
    repeat split.
Qed.

Lemma includes_self (s : jsstring) : JsString.includes s s = true.
Proof.
  apply includes_spec. exists [], []. rewrite app_nil_r. reflexivity.
Qed.

(** X19.  A search for the full text of a task finds that task, in
    either list, whatever the case mapping does, as long as no priority
    or category filter excludes it. *)
Theorem search_for_own_text_finds_task :
  forall (toLowerCase : jsstring -> jsstring) (st : TodoList.State) (t : Todo),
    In t (TodoList.todos st) ->
    TodoList.filterStatus st = all ->
    TodoList.filterPriority st = All ->
    TodoList.filterCategory st = All ->
    In t (TodoList.displayedTodos toLowerCase
            (TodoList.setSearchQuery (Todo.text t) st)).
Proof.
  intros toLowerCase st t Hin Hs Hp Hc.
  apply (Permutation_in _
           (Permutation_sym
              (displayedTodos_perm toLowerCase
                 (TodoList.setSearchQuery (Todo.text t) st)))).
  apply filter_In. split; [exact Hin|].
  unfold statusPasses, TodoList.matchesFilters. simpl.
  rewrite Hs, Hp, Hc, includes_self. simpl.
  rewrite andb_false_r. reflexivity.
Qed.

Lemma search_for_own_text_finds_task_witness :
  In callAnn (TodoList.todos editingState) /\
  In callAnn
    (TodoList.displayedTodos JsString.asciiLower
       (TodoList.setSearchQuery (Todo.text callAnn) editingState)).
Proof.
  assert (H : In callAnn (TodoList.todos editingState)).
  { vm_compute. right. left. reflexivity. }
  split; [exact H|].
  exact (search_for_own_text_finds_task JsString.asciiLower editingState
           callAnn H eq_refl eq_refl eq_refl).
Defined.

(** ** The statistics cards *)

(** X20.  The completion rate is a whole number from 0 to 100; it is 0
    when no task is completed and 100 when every task of a collection
    that is not empty is completed.  The collection is an array, of
    fewer than 2^32 tasks. *)
Theorem completionRate_is_percentage :
  forall st : TodoList.State,
    TodoList.totalTasks st < 2 ^ 32 ->
    exists k,
      TodoList.completionRate st = Number.ofZ k /\ 0 <= k <= 100 /\
      (TodoList.completedCount st = 0 -> k = 0) /\
      (0 < TodoList.totalTasks st ->
       TodoList.completedCount st = TodoList.totalTasks st -> k = 100).
Proof.
  intros st Hn.
  pose proof (completedCount_le st) as Hc.
  destruct (Z.eq_dec (TodoList.totalTasks st) 0) as [E0|E0].
  - exists 0. unfold TodoList.completionRate. rewrite E0.
    split; [reflexivity|]. lia.
  - destruct (completionRate_value st Hn) as [k [Ek [Hk Hex]]].
    exists k. split; [exact Ek|].
    unfold spec_completionRate, roundHalfUp, isHalf in *.
    apply Z.eqb_neq in E0. rewrite E0 in Hk, Hex. apply Z.eqb_neq in E0.
    set (c := TodoList.completedCount st) in *.
    set (n := TodoList.totalTasks st) in *. clearbody c n.
    assert (Hn0 : 0 < n) by lia.
    pose proof (Z.div_mod (2 * (100 * c) + n) (2 * n) ltac:(lia)) as Hdm.
    pose proof (Z.mod_pos_bound (2 * (100 * c) + n) (2 * n) ltac:(lia)) as Hm.
    set (q := (2 * (100 * c) + n) / (2 * n)) in *.
    set (m := (2 * (100 * c) + n) mod (2 * n)) in *. clearbody q m.
    assert (Hq0 : 0 <= q).
    { destruct (Z_le_gt_dec 0 q) as [H|H]; [exact H|].
      assert (n * q <= n * (-1)) by (apply Z.mul_le_mono_nonneg_l; lia).
      lia. }
    assert (Hq1 : q <= 100).
    { destruct (Z_le_gt_dec q 100) as [H|H]; [exact H|].
      assert (n * 101 <= n * q) by (apply Z.mul_le_mono_nonneg_l; lia).
      lia. }
    assert (Hz : q = 0 -> k = 0).
    { intros ->. apply Hex. lia. }
    split; [lia|]. split.
    + intros Hc0. apply Hz.
      destruct (Z_le_gt_dec q 0) as [H|H]; [lia|].
      assert (n * 1 <= n * q) by (apply Z.mul_le_mono_nonneg_l; lia).
      lia.
    + intros _ Hall. subst c.
      assert (q = 100).
      { destruct (Z_le_gt_dec 100 q) as [H|H]; [lia|].
        assert (n * q <= n * 99) by (apply Z.mul_le_mono_nonneg_l; lia).
        lia. }
      subst q. rewrite Hex; lia.
Qed.

Lemma completionRate_is_percentage_witness :
  TodoList.totalTasks fourTasks < 2 ^ 32 /\
  exists k,
    TodoList.completionRate fourTasks = Number.ofZ k /\ 0 <= k <= 100.
Proof.
  assert (H : TodoList.totalTasks fourTasks < 2 ^ 32) by (vm_compute; reflexivity).
  split; [exact H|].
  destruct (completionRate_is_percentage fourTasks H) as [k [E [B _]]].
  exists k. split; [exact E | exact B].
Defined.

Lemma two_filters_le {A : Type} (f g : A -> bool) (l : list A) :
  (forall x, f x = true -> g x = true -> False) ->
  (length (filter f l) + length (filter g l) <= length l)%nat.
Proof.
  intros H. induction l as [|x l IH]; [simpl; lia|]. simpl.
  destruct (f x) eqn:Ef, (g x) eqn:Eg; simpl; try lia.
  exfalso. exact (H x Ef Eg).
Qed.

(** X21.  The overdue tasks are among those not completed: at every
    time the overdue count and the completed count together do not exceed
    the number of tasks. *)
Theorem overdue_among_not_completed :
  forall (now : Z) (st : TodoList.State),
    0 <= TodoList.overdueCount now st /\
    TodoList.overdueCount now st + TodoList.completedCount st <=
    TodoList.totalTasks st.
Proof.
  intros now st.
  unfold TodoList.overdueCount, TodoList.completedCount, TodoList.totalTasks.
  split; [lia|].
  pose proof (two_filters_le
                (fun t => negb (Todo.completed t) &&
                          match truthyVal (Todo.deadline t) with
                          | Some d => d <? now
                          | None => false
                          end)
                (fun t => Todo.completed t) (TodoList.todos st)) as H.
  cbv beta in H.
  assert (forall x : Todo,
             negb (Todo.completed x) &&
             match truthyVal (Todo.deadline x) with
             | Some d => d <? now
             | None => false
             end = true -> Todo.completed x = true -> False) as Hx.
  { intros x H1 H2. rewrite H2 in H1. discriminate. }
  specialize (H Hx). lia.
Qed.

(** ** The time a task took *)

(** [Math.floor] of the quotient of two integers is the integer
    quotient: the rounding of the division never carries the quotient
    across an integer. *)
Lemma floor_fdiv (a b : Q) (d c : Z) :
  (a == inject_Z d)%Q -> (b == inject_Z c)%Q ->
  0 <= d < 2 ^ 53 -> 0 < c < 2 ^ 32 ->
  floor (fdiv (Finite a) (Finite b)) = ofZ (d / c).
Proof.
  intros Ea Eb Hd Hc.
  assert (HC : (0 < inject_Z c)%Q) by (apply inject_Z_pos; lia).
  assert (HC1 : (1 <= inject_Z c)%Q).
  { change 1%Q with (inject_Z 1). rewrite <- Zle_Qle. lia. }
  assert (HC2 : (inject_Z c < 4294967296)%Q).
  { change 4294967296%Q with (inject_Z (2 ^ 32)). rewrite <- Zlt_Qlt. lia. }
  assert (HD0 : (0 <= inject_Z d)%Q) by (apply inject_Z_nonneg; lia).
  assert (HD1 : (inject_Z d < 9007199254740992)%Q).
  { change 9007199254740992%Q with (inject_Z (2 ^ 53)).
    rewrite <- Zlt_Qlt. lia. }
  rewrite fdiv_Finite by lra.
  pose proof (Z.div_mod d c ltac:(lia)) as Hdm.
  pose proof (Z.mod_pos_bound d c ltac:(lia)) as Hm.
  assert (Hk : 0 <= d / c <= d).
  { split; [apply Z.div_pos; lia|].
    apply Z.div_le_upper_bound; [lia|]. nia. }
  set (k := d / c) in *. set (m := d mod c) in *.
  set (w := (1 / inject_Z c)%Q).
  assert (Ew : (inject_Z c * w == 1)%Q) by (unfold w; field; lra).
  assert (Hw0 : (0 < w)%Q).
  { unfold w. apply Qlt_shift_div_l; lra. }
  assert (Hw1 : (w <= 1)%Q).
  { unfold w. apply Qle_shift_div_r; lra. }
  assert (Hw2 : (1 # 4294967296 < w)%Q).
  { unfold w. apply Qlt_shift_div_l; lra. }
  assert (Eq : (a / b == inject_Z k + inject_Z m * w)%Q).
  { apply (f_equal inject_Z) in Hdm.
    rewrite inject_Z_plus, inject_Z_mult in Hdm.
    rewrite Ea, Eb, Hdm. unfold w. field. lra. }
  assert (EqD : (a / b == inject_Z d * w)%Q).
  { rewrite Ea, Eb. unfold w. field. lra. }
  assert (M0 : (0 <= inject_Z m)%Q) by (apply inject_Z_nonneg; lia).
  assert (M1 : (inject_Z m <= inject_Z c - 1)%Q).
  { assert (m <= c - 1) as H by lia. rewrite Zle_Qle in H.
    unfold Z.sub in H. rewrite inject_Z_plus, inject_Z_opp in H. exact H. }
  unfold floor, ofZ.
  destruct (Z.eq_dec m 0) as [Hm0 | Hm0].
  - destruct (fl_int (a / b) k) as [r [Er Hr]].
    + rewrite Eq, Hm0. change (inject_Z 0) with 0%Q. ring.
    + lia.
    + rewrite Er, Hr, Qfloor_Z. reflexivity.
  - assert (M2 : (1 <= inject_Z m)%Q).
    { change 1%Q with (inject_Z 1). rewrite <- Zle_Qle. lia. }
    assert (P1 : (1 * w <= inject_Z m * w)%Q)
      by (apply Qmult_le_compat_r; lra).
    assert (P2 : (inject_Z m * w <= (inject_Z c - 1) * w)%Q)
      by (apply Qmult_le_compat_r; lra).
    assert (P3 : (inject_Z d * w <= inject_Z d * 1)%Q).
    { rewrite (Qmult_comm (inject_Z d) w), (Qmult_comm (inject_Z d) 1).
      apply Qmult_le_compat_r; lra. }
    assert (P4 : (inject_Z d * eps * w < 1 * w)%Q).
    { apply Qmult_lt_compat_r; [exact Hw0|]. rewrite eps_val. lra. }
    assert (P5 : (a / b * eps == inject_Z d * eps * w)%Q).
    { rewrite EqD. ring. }
    assert (K0 : (0 <= inject_Z k)%Q) by (apply inject_Z_nonneg; lia).
    set (q := (a / b)%Q) in *.
    destruct (fl_error_mid q) as [r [Er [Rlo Rhi]]].
    + clearbody q w k m. lra.
    + clearbody q w k m. lra.
    + rewrite Er. f_equal. f_equal.
      apply Qfloor_unique; clearbody q w k m; lra.
Qed.

(** The remainder of two integers is the integer remainder. *)
Lemma frem_exact (a b : Q) (d c : Z) :
  (a == inject_Z d)%Q -> (b == inject_Z c)%Q -> 0 <= d -> 0 < c ->
  exists r, frem (Finite a) (Finite b) = Finite r /\
            (r == inject_Z (d mod c))%Q.
Proof.
  intros Ea Eb Hd Hc.
  assert (HC : (0 < inject_Z c)%Q) by (apply inject_Z_pos; lia).
  assert (HD0 : (0 <= inject_Z d)%Q) by (apply inject_Z_nonneg; lia).
  pose proof (Z.div_mod d c ltac:(lia)) as Hdm.
  pose proof (Z.mod_pos_bound d c ltac:(lia)) as Hm.
  set (k := d / c) in *. set (m := d mod c) in *.
  set (w := (1 / inject_Z c)%Q).
  assert (Ew : (inject_Z c * w == 1)%Q) by (unfold w; field; lra).
  assert (Hw0 : (0 < w)%Q).
  { unfold w. apply Qlt_shift_div_l; lra. }
  assert (Eq : (a / b == inject_Z k + inject_Z m * w)%Q).
  { apply (f_equal inject_Z) in Hdm.
    rewrite inject_Z_plus, inject_Z_mult in Hdm.
    rewrite Ea, Eb, Hdm. unfold w. field. lra. }
  assert (M0 : (0 <= inject_Z m)%Q) by (apply inject_Z_nonneg; lia).
  assert (M1 : (inject_Z m <= inject_Z c - 1)%Q).
  { assert (m <= c - 1) as H by lia. rewrite Zle_Qle in H.
    unfold Z.sub in H. rewrite inject_Z_plus, inject_Z_opp in H. exact H. }
  assert (P1 : (0 <= inject_Z m * w)%Q) by (apply Qmult_le_0_compat; lra).
  assert (P2 : (inject_Z m * w <= (inject_Z c - 1) * w)%Q)
    by (apply Qmult_le_compat_r; lra).
  assert (Hfl : Qfloor (a / b) = k).
  { apply Qfloor_unique; clearbody w k m; lra. }
  assert (Hk0 : 0 <= k) by (apply Z.div_pos; lia).
  assert (K0 : (0 <= inject_Z k)%Q) by (apply inject_Z_nonneg; lia).
  unfold frem.
  destruct (Qeq_bool b 0) eqn:E0.
  { apply Qeq_bool_iff in E0. lra. }
  assert (Hpos : Qle_bool 0 (a / b) = true).
  { apply Qle_bool_iff. clearbody w k m. lra. }
  unfold truncate. rewrite Hpos, Hfl.
  eexists. split; [reflexivity|].
  apply (f_equal inject_Z) in Hdm.
  rewrite inject_Z_plus, inject_Z_mult in Hdm.
  rewrite Ea, Eb, Hdm. ring.
Qed.

Lemma gt_ofZ (a b : Z) : gt (ofZ a) (ofZ b) = (b <? a).
Proof.
  unfold gt, ofZ.
  destruct (Qle_bool (inject_Z a) (inject_Z b)) eqn:E.
  - apply Qle_bool_iff in E. rewrite <- Zle_Qle in E.
    symmetry. apply Z.ltb_ge. exact E.
  - destruct (b <? a) eqn:E'; [reflexivity|].
    apply Z.ltb_ge in E'. rewrite Zle_Qle in E'.
    apply Qle_bool_iff in E'. congruence.
Qed.

Lemma day_in_ms :
  exists h,
    fmul (fmul (fmul (ofZ 1000) (ofZ 60)) (ofZ 60)) (ofZ 24) = Finite h /\
    (h == inject_Z msPerDay)%Q.
Proof.
  eexists. split; [vm_compute; reflexivity | reflexivity].
Qed.

Lemma hour_in_ms_Z :
  exists h,
    fmul (fmul (ofZ 1000) (ofZ 60)) (ofZ 60) = Finite h /\
    (h == inject_Z msPerHour)%Q.
Proof.
  eexists. split; [vm_compute; reflexivity | reflexivity].
Qed.

Lemma minute_in_ms :
  exists h,
    fmul (ofZ 1000) (ofZ 60) = Finite h /\ (h == inject_Z msPerMinute)%Q.
Proof.
  eexists. split; [vm_compute; reflexivity | reflexivity].
Qed.

(** [getTimeTaken] computes with Numbers what [timeTakenOf] computes
    with integers. *)
Lemma getTimeTaken_value (todo : Todo) (ca : Z) :
  Todo.completedAt todo = Some ca -> ca <> 0 ->
  0 <= ca - Todo.createdAt todo < 2 ^ 53 ->
  TodoItem.getTimeTaken todo = Some (timeTakenOf (ca - Todo.createdAt todo)).
Proof.
  intros Hca Hnz Hd.
  destruct day_in_ms as [hd [Ehd Hhd]].
  destruct hour_in_ms_Z as [hh [Ehh Hhh]].
  destruct minute_in_ms as [hm [Ehm Hhm]].
  unfold TodoItem.getTimeTaken. cbv zeta.
  rewrite Ehd, Ehh, Ehm, Hca.
  assert (Et : truthy (Some ca) = true).
  { unfold truthy. apply negb_true_iff. apply Z.eqb_neq. exact Hnz. }
  rewrite Et. cbn [negb].
  set (d := ca - Todo.createdAt todo) in *.
  destruct (fl_int (inject_Z ca + - inject_Z (Todo.createdAt todo)) d)
    as [dq [Edq Hdq]].
  { unfold d, Z.sub. rewrite inject_Z_plus, inject_Z_opp. reflexivity. }
  { lia. }
  change (fsub (ofOption (Some ca)) (ofZ (Todo.createdAt todo)))
    with (fl (inject_Z ca + - inject_Z (Todo.createdAt todo))).
  rewrite Edq.
  pose proof (Z.mod_pos_bound d msPerDay ltac:(unfold msPerDay; lia)) as Bd.
  pose proof (Z.mod_pos_bound d msPerHour ltac:(unfold msPerHour; lia)) as Bh.
  destruct (frem_exact dq hd d msPerDay Hdq Hhd ltac:(lia)
              ltac:(unfold msPerDay; lia)) as [r1 [Er1 Hr1]].
  destruct (frem_exact dq hh d msPerHour Hdq Hhh ltac:(lia)
              ltac:(unfold msPerHour; lia)) as [r2 [Er2 Hr2]].
  rewrite Er1, Er2.
  rewrite (floor_fdiv dq hd d msPerDay Hdq Hhd)
    by (unfold msPerDay; lia).
  rewrite (floor_fdiv r1 hh (d mod msPerDay) msPerHour Hr1 Hhh)
    by (unfold msPerDay, msPerHour in *; lia).
  rewrite (floor_fdiv r2 hm (d mod msPerHour) msPerMinute Hr2 Hhm)
    by (unfold msPerHour, msPerMinute in *; lia).
  rewrite !gt_ofZ. unfold timeTakenOf.
  destruct (0 <? d / msPerDay); [reflexivity|].
  destruct (0 <? d mod msPerDay / msPerHour); reflexivity.
Qed.

Lemma longTask_time :
  Todo.completedAt longTask = Some 93785000 /\ 93785000 <> 0 /\
  0 <= 93785000 - Todo.createdAt longTask < 2 ^ 53.
Proof.
  split; [reflexivity|]. split; [discriminate|]. simpl. lia.
Defined.

(** X22.  For a task completed at a time other than 0, no earlier than
    its creation and less than 2^53 ms after it, the time taken is shown
    as whole days, hours below 24 and minutes below 60 that make up the
    duration to within the minute, rounded down: days and hours when at
    least a day has passed, hours and minutes when at least an hour has,
    else minutes alone. *)
Theorem time_taken_is_days_hours_minutes :
  forall (todo : Todo) (ca : Z),
    Todo.completedAt todo = Some ca -> ca <> 0 ->
    0 <= ca - Todo.createdAt todo < 2 ^ 53 ->
    exists days hours minutes : Z,
      0 <= days /\ 0 <= hours < 24 /\ 0 <= minutes < 60 /\
      days * msPerDay + hours * msPerHour + minutes * msPerMinute
        <= ca - Todo.createdAt todo
        < days * msPerDay + hours * msPerHour + minutes * msPerMinute
          + msPerMinute /\
      TodoItem.getTimeTaken todo =
      Some (if 0 <? days
            then TodoItem.DaysHours (Number.ofZ days) (Number.ofZ hours)
            else if 0 <? hours
            then TodoItem.HoursMinutes (Number.ofZ hours) (Number.ofZ minutes)
            else TodoItem.Minutes (Number.ofZ minutes)).
Proof.
  intros todo ca Hca Hnz Hd.
  rewrite (getTimeTaken_value todo ca Hca Hnz Hd).
  set (d := ca - Todo.createdAt todo) in *. clearbody d.
  exists (d / msPerDay), (d mod msPerDay / msPerHour),
         (d mod msPerHour / msPerMinute).
  unfold timeTakenOf, msPerDay, msPerHour, msPerMinute.
  pose proof (Z.div_mod d 86400000 ltac:(lia)) as D1.
  pose proof (Z.mod_pos_bound d 86400000 ltac:(lia)) as B1.
  pose proof (Z.div_mod (d mod 86400000) 3600000 ltac:(lia)) as D2.
  pose proof (Z.mod_pos_bound (d mod 86400000) 3600000 ltac:(lia)) as B2.
  pose proof (Z.div_mod d 3600000 ltac:(lia)) as D3.
  pose proof (Z.mod_pos_bound d 3600000 ltac:(lia)) as B3.
  pose proof (Z.div_mod (d mod 3600000) 60000 ltac:(lia)) as D4.
  pose proof (Z.mod_pos_bound (d mod 3600000) 60000 ltac:(lia)) as B4.
  assert (E : d mod 3600000 = (d mod 86400000) mod 3600000).
  { symmetry.
    apply (Z.mod_unique_pos d 3600000
             (24 * (d / 86400000) + d mod 86400000 / 3600000)); lia. }
  split; [apply Z.div_pos; lia|].
  split; [split; [apply Z.div_pos; lia | apply Z.div_lt_upper_bound; lia]|].
  split; [split; [apply Z.div_pos; lia | apply Z.div_lt_upper_bound; lia]|].
  split; [|reflexivity].
  rewrite E in *. lia.
Qed.

Lemma time_taken_is_days_hours_minutes_witness :
  Todo.completedAt longTask = Some 93785000 /\ 93785000 <> 0 /\
  0 <= 93785000 - Todo.createdAt longTask < 2 ^ 53 /\
  exists days hours minutes : Z,
    0 <= days /\ 0 <= hours < 24 /\ 0 <= minutes < 60 /\
    days * msPerDay + hours * msPerHour + minutes * msPerMinute
      <= 93785000 - Todo.createdAt longTask
      < days * msPerDay + hours * msPerHour + minutes * msPerMinute
        + msPerMinute /\
    TodoItem.getTimeTaken longTask =
    Some (if 0 <? days
          then TodoItem.DaysHours (Number.ofZ days) (Number.ofZ hours)
          else if 0 <? hours
          then TodoItem.HoursMinutes (Number.ofZ hours) (Number.ofZ minutes)
          else TodoItem.Minutes (Number.ofZ minutes)).
Proof.
  destruct longTask_time as [H1 [H2 H3]].
  split; [exact H1|]. split; [exact H2|]. split; [exact H3|].
  exact (time_taken_is_days_hours_minutes longTask 93785000 H1 H2 H3).
Defined.

(** The time taken by [longTask], computed: one day and two hours. *)
Example longTask_took_1d_2h :
  option_map
    (fun t => match t with
              | TodoItem.DaysHours a b =>
                  TodoItem.DaysHours (Number.reduced a) (Number.reduced b)
              | TodoItem.HoursMinutes a b =>
                  TodoItem.HoursMinutes (Number.reduced a) (Number.reduced b)
              | TodoItem.Minutes a => TodoItem.Minutes (Number.reduced a)
              end)
    (TodoItem.getTimeTaken longTask) =
  Some (TodoItem.DaysHours (Number.ofZ 1) (Number.ofZ 2)).
Proof. vm_compute. reflexivity. Qed.

(** X23.  In every state the component can reach, a task that is not
    completed shows no time taken. *)
Theorem no_time_taken_before_completion :
  forall (toLowerCase : jsstring -> jsstring) (st : TodoList.State) (t : Todo),
    TodoList.reachable toLowerCase st ->
    In t (TodoList.todos st) ->
    Todo.completed t = false ->
    TodoItem.getTimeTaken t = None.
Proof.
  intros toLowerCase st t Hr Hin Hc.
  apply reachable_inv in Hr. destruct Hr as [Hall _].
  rewrite Forall_forall in Hall. specialize (Hall t Hin).
  unfold taskInv in Hall.
  assert (E : Todo.completedAt t = None).
  { destruct (Todo.completedAt t) as [ca|] eqn:Eca; [|reflexivity].
    assert (Todo.completed t = true) by (apply Hall; discriminate).
    congruence. }
  unfold TodoItem.getTimeTaken. rewrite E. reflexivity.
Qed.

Lemma editingState_reachable :
  TodoList.reachable JsString.asciiLower editingState.
Proof.
  exists (sampleRun ++ [TodoList.ToggleTodo (JsString.lit "id-2") 8000]).
  vm_compute. reflexivity.
Defined.

Lemma no_time_taken_before_completion_witness :
  TodoList.reachable JsString.asciiLower editingState /\
  In callAnn (TodoList.todos editingState) /\
  Todo.completed callAnn = false /\
  TodoItem.getTimeTaken callAnn = None.
Proof.
  assert (H : In callAnn (TodoList.todos editingState)).
  { vm_compute. right. left. reflexivity. }
  split; [exact editingState_reachable|]. split; [exact H|].
  split; [reflexivity|].
  exact (no_time_taken_before_completion JsString.asciiLower editingState
           callAnn editingState_reachable H eq_refl).
Defined.

(** ** The category badge *)

(** X24.  The category table has an entry for the category of every
    task, so the badge of a task always has a label, which is not empty;
    and two tasks whose badges carry the same label are of the same
    category. *)
Theorem every_category_has_its_label :
  forall todo : Todo,
    exists s,
      TodoItem.categoryLabel TodoList.CATEGORIES todo = Some s /\
      s <> [] /\
      forall u : Todo,
        TodoItem.categoryLabel TodoList.CATEGORIES u = Some s ->
        Todo.category u = Todo.category todo.
Proof.
  intros todo. unfold TodoItem.categoryLabel.
  destruct (Todo.category todo) eqn:E;
    (eexists; split; [vm_compute; reflexivity|]; split; [discriminate|];
     intros u; destruct (Todo.category u) eqn:Eu; vm_compute; intros H;
     try reflexivity; discriminate H).
Qed.

(** ** The form and the dialog, in sequence *)

(** X25.  A successful add empties the input field, so adding again
    straight away adds nothing: two adds in a row, as from a key held
    down, leave the state of the first. *)
Theorem add_twice_adds_once :
  forall (uuid1 uuid2 : jsstring) (now1 now2 : Z) (st : TodoList.State),
    TodoList.addTodo uuid2 now2 (TodoList.addTodo uuid1 now1 st) =
    TodoList.addTodo uuid1 now1 st.
Proof.
  intros uuid1 uuid2 now1 now2 st.
  unfold TodoList.addTodo at 2 3.
  destruct (JsString.truthy (JsString.trim (TodoList.newTodo st))) eqn:E.
  - reflexivity.
  - unfold TodoList.addTodo. rewrite E. reflexivity.
Qed.

Lemma map_replace_self (t : Todo) (l : list Todo) :
  NoDup (ids l) -> In t l ->
  map (fun todo => if JsString.eqb (Todo.id todo) (Todo.id t)
                   then t else todo) l = l.
Proof.
  intros Hnd Hin. rewrite <- (map_id l) at 2.
  apply map_ext_in. intros x Hx.
  destruct (JsString.eqb (Todo.id x) (Todo.id t)) eqn:E; [|reflexivity].
  apply JsString_eqb_eq in E.
  symmetry. exact (NoDup_ids_inj l x t Hnd Hx Hin E).
Qed.

(** X26.  Opening the dialog on a displayed task and saving at once,
    with the fields the dialog opens with, leaves the collection exactly
    as it was and closes the dialog, when the identifiers are pairwise
    distinct, the task's text and notes are trimmed and not empty, and
    its deadline is not the timestamp 0. *)
Theorem open_and_save_changes_nothing :
  forall (toLowerCase : jsstring -> jsstring) (st : TodoList.State)
         (i : nat) (t : Todo) (f : EditTodoDialog.Fields),
    NoDup (ids (TodoList.todos st)) ->
    nth_error (TodoList.displayedTodos toLowerCase st) i = Some t ->
    EditTodoDialog.initial t = Some f ->
    textInv t ->
    Todo.deadline t <> Some 0 ->
    TodoList.run toLowerCase [TodoList.OnEdit i; TodoList.HandleSave f] st =
    TodoList.setEditingTodo None st.
Proof.
  intros toLowerCase st i t f Hnd Hi Hf Ht Hd.
  unfold TodoList.run. cbn [fold_left TodoList.exec].
  rewrite Hi. cbn [TodoList.setEditingTodo TodoList.editingTodo].
  rewrite (proj2 (handleSave_initial t f Ht Hf) Hd).
  unfold TodoList.updateTodo, TodoList.setTodos, TodoList.setEditingTodo.
  cbn [TodoList.todos TodoList.newTodo TodoList.deadline TodoList.priority
       TodoList.category TodoList.searchQuery TodoList.filterStatus
       TodoList.filterPriority TodoList.filterCategory TodoList.editingTodo].
  rewrite map_replace_self; [reflexivity | exact Hnd |].
  apply (displayedTodos_incl toLowerCase). eapply nth_error_In. exact Hi.
Qed.

Lemma callAnn_textInv : textInv callAnn.
Proof.
  unfold textInv, clean. simpl.
  repeat split; try discriminate; reflexivity.
Defined.

Lemma open_and_save_changes_nothing_witness :
  NoDup (ids (TodoList.todos editingState)) /\
  nth_error (TodoList.displayedTodos JsString.asciiLower editingState) 0 =
    Some callAnn /\
  EditTodoDialog.initial callAnn =
    Some (EditTodoDialog.mkFields (JsString.lit "Call Ann") [] None high
            personal) /\
  textInv callAnn /\
  Todo.deadline callAnn <> Some 0 /\
  TodoList.run JsString.asciiLower
    [TodoList.OnEdit 0;
     TodoList.HandleSave
       (EditTodoDialog.mkFields (JsString.lit "Call Ann") [] None high
          personal)]
    editingState =
  TodoList.setEditingTodo None editingState.
Proof.
  assert (H1 : NoDup (ids (TodoList.todos editingState))).
  { vm_compute. repeat constructor.
    - intros [H | []]. discriminate.
    - intros []. }
  assert (H2 : nth_error
                 (TodoList.displayedTodos JsString.asciiLower editingState) 0 =
               Some callAnn) by (vm_compute; reflexivity).
  assert (H4 : Todo.deadline callAnn <> Some 0) by discriminate.
  split; [exact H1|]. split; [exact H2|]. split; [reflexivity|].
  split; [exact callAnn_textInv|]. split; [exact H4|].
  exact (open_and_save_changes_nothing JsString.asciiLower editingState 0
           callAnn _ H1 H2 eq_refl callAnn_textInv H4).
Defined.

(** ** Editing and the statistics *)

Lemma filter_by_timing (pt : bool * option Z * Z -> bool) (l l' : list Todo) :
  map timing l = map timing l' ->
  map timing (filter (fun t => pt (timing t)) l) =
  map timing (filter (fun t => pt (timing t)) l').
Proof.
  revert l'. induction l as [|x l IH]; intros [|x' l'] H;
    try discriminate H; [reflexivity|].
  cbn [map] in H.
  pose proof (f_equal (fun r => hd (timing x) r) H) as Hx.
  pose proof (f_equal (@tl _) H) as Hl. cbn [hd tl] in Hx, Hl.
  cbn [filter]. rewrite Hx.
  destruct (pt (timing x')); cbn [map]; [rewrite Hx; f_equal|]; apply IH, Hl.
Qed.

Lemma fold_by_timing (g : bool * option Z * Z -> number) (l l' : list Todo) :
  map timing l = map timing l' ->
  forall acc,
    fold_left (fun sum t => fadd sum (g (timing t))) l acc =
    fold_left (fun sum t => fadd sum (g (timing t))) l' acc.
Proof.
  revert l'. induction l as [|x l IH]; intros [|x' l'] H acc;
    try discriminate H; [reflexivity|].
  cbn [map] in H.
  pose proof (f_equal (fun r => hd (timing x) r) H) as Hx.
  pose proof (f_equal (@tl _) H) as Hl. cbn [hd tl] in Hx, Hl.
  cbn [fold_left]. rewrite Hx.
  apply IH, Hl.
Qed.

Lemma statistics_by_timing (st st' : TodoList.State) :
  map timing (TodoList.todos st') = map timing (TodoList.todos st) ->
  TodoList.totalTasks st' = TodoList.totalTasks st /\
  TodoList.completedCount st' = TodoList.completedCount st /\
  TodoList.completionRate st' = TodoList.completionRate st /\
  TodoList.avgCompletionTime st' = TodoList.avgCompletionTime st.
Proof.
  intros H.
  assert (Ht : TodoList.totalTasks st' = TodoList.totalTasks st).
  { unfold TodoList.totalTasks. f_equal.
    rewrite <- (length_map timing (TodoList.todos st')), H.
    apply length_map. }
  assert (Hc : TodoList.completedCount st' = TodoList.completedCount st).
  { unfold TodoList.completedCount. f_equal.
    pose proof (filter_by_timing (fun x => fst (fst x)) _ _ H) as F.
    apply (f_equal (@length _)) in F. rewrite !length_map in F. exact F. }
  split; [exact Ht|]. split; [exact Hc|]. split.
  - unfold TodoList.completionRate. rewrite Ht, Hc. reflexivity.
  - unfold TodoList.avgCompletionTime.
    pose proof (filter_by_timing
                  (fun x => fst (fst x) && truthy (snd (fst x))) _ _ H) as F.
    cbv beta in F. unfold timing at 1 2 4 5 in F. cbn [fst snd] in F.
    set (c' := filter (fun t => Todo.completed t && truthy (Todo.completedAt t))
                 (TodoList.todos st')) in *.
    set (c := filter (fun t => Todo.completed t && truthy (Todo.completedAt t))
                (TodoList.todos st)) in *.
    assert (Hl : length c' = length c).
    { apply (f_equal (@length _)) in F. rewrite !length_map in F. exact F. }
    cbv zeta. rewrite Hl.
    rewrite (fold_by_timing
               (fun x => fsub (ofOption (snd (fst x))) (ofZ (snd x)))
               c' c F).
    reflexivity.
Qed.

(** X27.  Saving an edit of a task as the collection holds it, in a
    collection whose identifiers are pairwise distinct, changes none of
    the completion statistics: the number of tasks, the number of
    completed ones, the completion rate and the average completion time
    stay as they were, whatever the fields hold. *)
Theorem save_keeps_completion_statistics :
  forall (toLowerCase : jsstring -> jsstring) (st : TodoList.State)
         (todo : Todo) (f : EditTodoDialog.Fields),
    TodoList.editingTodo st = Some todo ->
    In todo (TodoList.todos st) ->
    NoDup (ids (TodoList.todos st)) ->
    TodoList.totalTasks (TodoList.exec toLowerCase (TodoList.HandleSave f) st) =
      TodoList.totalTasks st /\
    TodoList.completedCount
      (TodoList.exec toLowerCase (TodoList.HandleSave f) st) =
      TodoList.completedCount st /\
    TodoList.completionRate
      (TodoList.exec toLowerCase (TodoList.HandleSave f) st) =
      TodoList.completionRate st /\
    TodoList.avgCompletionTime
      (TodoList.exec toLowerCase (TodoList.HandleSave f) st) =
      TodoList.avgCompletionTime st.
Proof.
  intros toLowerCase st todo f Hed Hin Hnd.
  apply statistics_by_timing. cbn [TodoList.exec]. rewrite Hed.
  destruct (EditTodoDialog.handleSave todo f) as [u|] eqn:Eu; [|reflexivity].
  destruct (handleSave_fields todo u f Eu) as [Hi [Hc [Hca Hcr]]].
  unfold TodoList.updateTodo. cbn [TodoList.todos TodoList.setTodos
    TodoList.setEditingTodo].
  rewrite map_map. apply map_ext_in. intros x Hx.
  destruct (JsString.eqb (Todo.id x) (Todo.id u)) eqn:E; [|reflexivity].
  apply JsString_eqb_eq in E. rewrite Hi in E.
  rewrite (NoDup_ids_inj _ x todo Hnd Hx Hin E).
  unfold timing. rewrite Hc, Hca, Hcr. reflexivity.
Qed.

Lemma save_keeps_completion_statistics_witness :
  TodoList.editingTodo editingState = Some callAnn /\
  In callAnn (TodoList.todos editingState) /\
  NoDup (ids (TodoList.todos editingState)) /\
  TodoList.completionRate
    (TodoList.exec JsString.asciiLower (TodoList.HandleSave editedFields)
       editingState) =
  TodoList.completionRate editingState.
Proof.
  assert (H1 : TodoList.editingTodo editingState = Some callAnn)
    by reflexivity.
  assert (H2 : In callAnn (TodoList.todos editingState)).
  { vm_compute. right. left. reflexivity. }
  assert (H3 : NoDup (ids (TodoList.todos editingState))).
  { vm_compute. repeat constructor.
    - intros [H | []]. discriminate.
    - intros []. }
  split; [exact H1|]. split; [exact H2|]. split; [exact H3|].
  destruct (save_keeps_completion_statistics JsString.asciiLower editingState
              callAnn editedFields H1 H2 H3) as [_ [_ [H _]]].
  exact H.
Defined.
